(** * Time-expression extraction of chrono: [AbstractTimeExpressionParser]

    A shallow embedding of [src/common/parsers/AbstractTimeExpressionParser.ts]
    and the properties of its primary and range decoders.

    JavaScript numbers that the parser handles are non-negative decimal
    readings of digit groups and small sums of them; they are modelled by [Z].
    Strings are sequences of code units, one [ascii] per unit. *)

From Stdlib Require Import ZArith QArith String Ascii Bool Lia.
From stdpp Require Import gmap strings list fin_maps.

Open Scope string_scope.
Open Scope Z_scope.

(** ** JavaScript primitives used by the parser *)

Module Js.

(** Value of a decimal digit, [None] for any other code unit. *)
Definition digit_of (a : ascii) : option Z :=
  let n := Z.of_nat (nat_of_ascii a) in
  if (48 <=? n) && (n <=? 57) then Some (n - 48) else None.

Fixpoint parseInt_from (acc : Z) (s : string) : Z :=
  match s with
  | EmptyString => acc
  | String a s' =>
      match digit_of a with
      | Some d => parseInt_from (10 * acc + d) s'
      | None => acc
      end
  end.

(** [parseInt(s)] on a capture of the time grammars.  Every group it is
    applied to is [\d{1,n}], so the reading is the decimal value of the
    group; the function stops at the first non-digit as [parseInt] does.
    [NaN] (a string without a leading digit) cannot come out of the grammars
    and has no counterpart here: such a string reads as [0]. *)
Definition parseInt (s : string) : Z := parseInt_from 0 s.

(** [s.substring(0, n)] *)
Fixpoint substring_to (n : nat) (s : string) : string :=
  match n, s with
  | O, _ => EmptyString
  | S _, EmptyString => EmptyString
  | S n', String a s' => String a (substring_to n' s')
  end.

(** [s.substring(n)] *)
Fixpoint substring_from (n : nat) (s : string) : string :=
  match n, s with
  | O, _ => s
  | S _, EmptyString => EmptyString
  | S n', String _ s' => substring_from n' s'
  end.

(** [c.toLowerCase()] for one code unit below 256: the letters A-Z and the
    capital letters of Latin-1 move up by 32. *)
Definition toLowerCase (a : ascii) : ascii :=
  let n := nat_of_ascii a in
  if ((65 <=? n)%nat && (n <=? 90)%nat)
     || ((192 <=? n)%nat && (n <=? 222)%nat && negb (n =? 215)%nat)
  then ascii_of_nat (n + 32) else a.

(** [s[0].toLowerCase()]; [None] when [s] is empty. *)
Definition first_lower (s : string) : option ascii :=
  match s with
  | EmptyString => None
  | String a _ => Some (toLowerCase a)
  end.

(** [\s], restricted to the code units below 256. *)
Definition is_space (a : ascii) : bool :=
  let n := nat_of_ascii a in
  ((9 <=? n)%nat && (n <=? 13)%nat) || (n =? 32)%nat || (n =? 160)%nat.

Definition is_digit (a : ascii) : bool :=
  match digit_of a with Some _ => true | None => false end.

Fixpoint skip_spaces (s : string) : string :=
  match s with
  | String a s' => if is_space a then skip_spaces s' else s
  | EmptyString => s
  end.

Fixpoint all_digits (s : string) : bool :=
  match s with
  | EmptyString => true
  | String a s' => is_digit a && all_digits s'
  end.

(** [ToNumber] of a value that is a number or [null]. *)
Definition num (o : option Z) : Z := default 0 o.

(** [x == v] for [x] a number or [null] and [v] a number. *)
Definition loose_eq (o : option Z) (v : Z) : bool :=
  match o with
  | Some x => x =? v
  | None => false
  end.

End Js.

(** ** Collaborators that are not part of the parser file *)

(** Modelled from the spec: the [Meridiem] enumeration of [index.ts], absent
    from the sources.  The parser stores it in the component map and compares
    it with [-1] and [0], so it is a numeric enumeration; its members take the
    default numbering. *)
Module Meridiem.
Definition AM : Z := 0.
Definition PM : Z := 1.
End Meridiem.

(** Modelled from the spec: [ParsingComponents] of [results.ts], absent from
    the sources.  The spec describes it as two disjoint field mappings, the
    certain one winning on conflict: a field is CERTAIN when it was assigned,
    IMPLIED when it was defaulted or inferred, and an implied value never
    overwrites a certain one.  [imply] does replace an earlier implied value:
    the rollover and the backward propagation of the range decoder rest on
    it, as does the spec's "10-11pm".  [get] of a field that was never set is
    [null]. *)
Record ParsingComponents := mkComponents {
  knownValues : gmap string Z;
  impliedValues : gmap string Z
}.

Definition get (c : ParsingComponents) (k : string) : option Z :=
  match knownValues c !! k with
  | Some v => Some v
  | None => impliedValues c !! k
  end.

Definition isCertain (c : ParsingComponents) (k : string) : bool :=
  bool_decide (is_Some (knownValues c !! k)).

Definition assign (k : string) (v : Z) (c : ParsingComponents) : ParsingComponents :=
  {| knownValues := <[k := v]> (knownValues c);
     impliedValues := delete k (impliedValues c) |}.

Definition imply (k : string) (v : Z) (c : ParsingComponents) : ParsingComponents :=
  if isCertain c k then c
  else {| knownValues := knownValues c;
          impliedValues := <[k := v]> (impliedValues c) |}.

Definition delete_component (k : string) (c : ParsingComponents) : ParsingComponents :=
  {| knownValues := delete k (knownValues c);
     impliedValues := delete k (impliedValues c) |}.

(** [clone()] is a deep copy; with values instead of references it is the
    identity. *)
Definition clone (c : ParsingComponents) : ParsingComponents := c.

(** Days between 1970-01-01 and the civil date [y]-[m]-[d], linear in [d]
    (a day number past the end of the month runs into the next one). *)
Definition days_from_civil (y m d : Z) : Z :=
  let y' := if m <=? 2 then y - 1 else y in
  let era := y' / 400 in
  let yoe := y' - era * 400 in
  let mp := (m + 9) mod 12 in
  let doy := (153 * mp + 2) / 5 + d - 1 in
  let doe := yoe * 365 + yoe / 4 - yoe / 100 + doy in
  era * 146097 + doe - 719468.

(** Modelled from the spec: [date().getTime()] of [ParsingComponents], absent
    from the sources: the instant of the components on their calendar day, in
    milliseconds, without daylight-saving shifts.  It is undefined ([None],
    for the invalid date) when a field is missing. *)
Definition getTime (c : ParsingComponents) : option Z :=
  y ← get c "year";
  mo ← get c "month";
  d ← get c "day";
  h ← get c "hour";
  mi ← get c "minute";
  s ← get c "second";
  ms ← get c "millisecond";
  Some (days_from_civil y mo d * 86400000 + h * 3600000 + mi * 60000 + s * 1000 + ms).

(** [a.getTime() < b.getTime()]; a comparison with the time of an invalid
    date is false. *)
Definition time_lt (a b : option Z) : bool :=
  match a, b with
  | Some x, Some y => x <? y
  | _, _ => false
  end.

(** Modelled from the spec: [ParsingResult] of [results.ts]: the matched span
    (offset and consumed text), the start components and the optional end
    components. *)
Record ParsingResult := mkResult {
  res_index : nat;
  res_text : string;
  start : ParsingComponents;
  end_ : option ParsingComponents
}.

Definition clone_result (r : ParsingResult) : ParsingResult :=
  {| res_index := res_index r;
     res_text := res_text r;
     start := clone (start r);
     end_ := clone <$> end_ r |}.

(** The calendar date of [dayjs(context.refDate)]: [year()], [month()]
    (counted from 0) and [date()]. *)
Record RefDate := mkRefDate {
  ref_year : Z;
  ref_month : Z;
  ref_date : Z
}.

(** [ParsingContext] of [chrono.ts], absent from the sources: the text, the
    reference instant and the components factory.  What
    [createParsingComponents()] hands out is a field of the context. *)
Record ParsingContext := mkContext {
  text : string;
  refDate : RefDate;
  createParsingComponents : ParsingComponents
}.

(** Modelled from the spec: [createParsingResult(index, text)] makes a result
    for the span, with start components from the factory and no end. *)
Definition createParsingResult (context : ParsingContext) (index : nat) (txt : string)
  : ParsingResult :=
  {| res_index := index;
     res_text := txt;
     start := createParsingComponents context;
     end_ := None |}.

(** Modelled from the spec: what [createParsingComponents()] of the
    [ParsingContext] of [chrono.ts], absent from the sources, hands out.  The
    spec has the reference instant "used to imply unset day/month/year before
    hour/minute assignment": components fresh from the factory hold the day,
    the month (counted from 1) and the year of the reference date, each
    IMPLIED. *)
Definition implies_reference_date (context : ParsingContext) : Prop :=
  let fresh := createParsingComponents context in
  let ref := refDate context in
  (get fresh "day" = Some (ref_date ref) /\ isCertain fresh "day" = false)
  /\ (get fresh "month" = Some (ref_month ref + 1) /\ isCertain fresh "month" = false)
  /\ (get fresh "year" = Some (ref_year ref) /\ isCertain fresh "year" = false).

(** ** Matches *)

(** A [RegExpMatchArray]: the offset of the match and its capture groups,
    group 0 being the whole match; [None] is a group that took no part. *)
Record RegExpMatchArray := mkMatch {
  index : nat;
  groups : list (option string)
}.

Definition HOUR_GROUP : nat := 2.
Definition MINUTE_GROUP : nat := 3.
Definition SECOND_GROUP : nat := 4.
Definition MILLI_SECOND_GROUP : nat := 5.
Definition AM_PM_HOUR_GROUP : nat := 6.

(** [match[i]], [None] for [undefined]. *)
Definition group (m : RegExpMatchArray) (i : nat) : option string :=
  match groups m !! i with
  | Some (Some s) => Some s
  | _ => None
  end.

(** [match[i]] for the groups 0, 1 and 2, which take part in every match of
    either grammar. *)
Definition group_str (m : RegExpMatchArray) (i : nat) : string :=
  default EmptyString (group m i).

(** [ampm == "a"] for [ampm = match[AM_PM_HOUR_GROUP][0].toLowerCase()]. *)
Definition ampm_is (tok : string) (c : ascii) : bool :=
  bool_decide (Js.first_lower tok = Some c).

(** ** The parser *)

(** The guard of [extract] on the following match:
    [/^\s*([+-])\s*\d{3,4}$/] applied to [match[0]]. *)
Definition looks_like_timezone_offset (s : string) : bool :=
  match Js.skip_spaces s with
  | String a rest =>
      (bool_decide (a = "+"%char) || bool_decide (a = "-"%char))
      && (let ds := Js.skip_spaces rest in
          Js.all_digits ds
          && (bool_decide (String.length ds = 3%nat)
              || bool_decide (String.length ds = 4%nat)))
  | EmptyString => false
  end.

(** The subclass of [AbstractTimeExpressionParser]: its abstract methods
    only feed the two patterns.  [extract] receives the primary match from
    its caller and runs the following pattern itself, so a parser is known
    here by [followingTimeExpression(followingPhase(), followingSuffix()).exec]. *)
Record TimeExpressionParser := mkParser {
  followingExec : string -> option RegExpMatchArray
}.

Definition extractPrimaryTimeComponents (context : ParsingContext) (m : RegExpMatchArray)
  : option ParsingComponents :=
  let components := createParsingComponents context in
  let hour := 0 in
  let minute := 0 in
  let meridiem : option Z := None in
  (* ----- Hours *)
  let hour := Js.parseInt (group_str m HOUR_GROUP) in
  (* ----- Minutes *)
  let '(hour, minute) :=
    match group m MINUTE_GROUP with
    | Some g => (hour, Js.parseInt g)
    | None =>
        if hour >? 100 then (hour / 100, Z.rem hour 100) else (hour, minute)
    end in
  if (minute >=? 60) || (hour >? 24) then None else
  let meridiem := if hour >=? 12 then Some Meridiem.PM else meridiem in
  (* ----- AM & PM *)
  '(hour, meridiem) ←
    match group m AM_PM_HOUR_GROUP with
    | Some tok =>
        if hour >? 12 then None else
        let '(hour, meridiem) :=
          if ampm_is tok "a" then (if hour =? 12 then 0 else hour, Some Meridiem.AM)
          else (hour, meridiem) in
        let '(hour, meridiem) :=
          if ampm_is tok "p" then (if negb (hour =? 12) then hour + 12 else hour, Some Meridiem.PM)
          else (hour, meridiem) in
        Some (hour, meridiem)
    | None => Some (hour, meridiem)
    end;
  let components := assign "hour" hour components in
  let components := assign "minute" minute components in
  let components :=
    match meridiem with
    | Some md => assign "meridiem" md components
    | None =>
        if hour <? 12 then imply "meridiem" Meridiem.AM components
        else imply "meridiem" Meridiem.PM components
    end in
  (* ----- Millisecond *)
  components ←
    match group m MILLI_SECOND_GROUP with
    | Some g =>
        let millisecond := Js.parseInt (Js.substring_to 3 g) in
        if millisecond >=? 1000 then None
        else Some (assign "millisecond" millisecond components)
    | None => Some components
    end;
  (* ----- Second *)
  match group m SECOND_GROUP with
  | Some g =>
      let second := Js.parseInt g in
      if second >=? 60 then None
      else Some (assign "second" second components)
  | None => Some components
  end.

Definition extractStartTimeComponent (result : ParsingResult) (m : RegExpMatchArray)
  : option ParsingResult :=
  let hour := 0 in
  let minute := 0 in
  let meridiem : option Z := None in
  (* ----- Hours *)
  let hour := Js.parseInt (group_str m HOUR_GROUP) in
  (* ----- Minutes *)
  let '(hour, minute) :=
    match group m MINUTE_GROUP with
    | Some g => (hour, Js.parseInt g)
    | None =>
        if hour >? 100 then (hour / 100, Z.rem hour 100) else (hour, minute)
    end in
  if (minute >=? 60) || (hour >? 24) then None else
  let meridiem := if hour >=? 12 then Some Meridiem.PM else meridiem in
  (* ----- AM & PM *)
  '(hour, meridiem) ←
    match group m AM_PM_HOUR_GROUP with
    | Some tok =>
        if hour >? 12 then None else
        let '(hour, meridiem) :=
          if ampm_is tok "a" then (if hour =? 12 then 0 else hour, Some Meridiem.AM)
          else (hour, meridiem) in
        let '(hour, meridiem) :=
          if ampm_is tok "p" then (if negb (hour =? 12) then hour + 12 else hour, Some Meridiem.PM)
          else (hour, meridiem) in
        Some (hour, meridiem)
    | None => Some (hour, meridiem)
    end;
  let st := start result in
  let st := assign "hour" hour st in
  let st := assign "minute" minute st in
  let st :=
    match meridiem with
    | Some md => assign "meridiem" md st
    | None =>
        if hour <? 12 then imply "meridiem" Meridiem.AM st
        else imply "meridiem" Meridiem.PM st
    end in
  (* ----- Millisecond *)
  st ←
    match group m MILLI_SECOND_GROUP with
    | Some g =>
        let millisecond := Js.parseInt (Js.substring_to 3 g) in
        if millisecond >=? 1000 then None
        else Some (assign "millisecond" millisecond st)
    | None => Some st
    end;
  (* ----- Second *)
  st ←
    match group m SECOND_GROUP with
    | Some g =>
        let second := Js.parseInt g in
        if second >=? 60 then None
        else Some (assign "second" second st)
    | None => Some st
    end;
  Some {| res_index := res_index result;
          res_text := res_text result;
          start := st;
          end_ := end_ result |}.

Definition extractEndTimeComponent (result : ParsingResult) (m : RegExpMatchArray)
  : option ParsingResult :=
  let st := start result in
  let en := clone (start result) in
  (* ----- Millisecond *)
  en ←
    match group m MILLI_SECOND_GROUP with
    | Some g =>
        let millisecond := Js.parseInt (Js.substring_to 3 g) in
        if millisecond >=? 1000 then None
        else Some (assign "millisecond" millisecond en)
    | None => Some en
    end;
  (* ----- Second *)
  en ←
    match group m SECOND_GROUP with
    | Some g =>
        let second := Js.parseInt g in
        if second >=? 60 then None
        else Some (assign "second" second en)
    | None => Some en
    end;
  let hour := Js.parseInt (group_str m HOUR_GROUP) in
  let minute := 0 in
  let meridiem := -1 in
  (* ----- Minute *)
  let '(hour, minute) :=
    match group m MINUTE_GROUP with
    | Some g => (hour, Js.parseInt g)
    | None =>
        if hour >? 100 then (hour / 100, Z.rem hour 100) else (hour, minute)
    end in
  if (minute >=? 60) || (hour >? 24) then None else
  let meridiem := if hour >=? 12 then Meridiem.PM else meridiem in
  (* ----- AM & PM *)
  '(hour, meridiem, st, en) ←
    match group m AM_PM_HOUR_GROUP with
    | Some tok =>
        if hour >? 12 then None else
        let '(hour, meridiem, en) :=
          if ampm_is tok "a" then
            if hour =? 12 then
              (0, Meridiem.AM,
               if negb (isCertain en "day")
               then imply "day" (Js.num (get en "day") + 1) en
               else en)
            else (hour, Meridiem.AM, en)
          else (hour, meridiem, en) in
        let '(hour, meridiem) :=
          if ampm_is tok "p" then (if negb (hour =? 12) then hour + 12 else hour, Meridiem.PM)
          else (hour, meridiem) in
        let st :=
          if negb (isCertain st "meridiem") then
            if meridiem =? Meridiem.AM then
              let st := imply "meridiem" Meridiem.AM st in
              if Js.loose_eq (get st "hour") 12 then assign "hour" 0 st else st
            else
              let st := imply "meridiem" Meridiem.PM st in
              if negb (Js.loose_eq (get st "hour") 12)
              then assign "hour" (Js.num (get st "hour") + 12) st
              else st
          else st in
        Some (hour, meridiem, st, en)
    | None => Some (hour, meridiem, st, en)
    end;
  let txt := res_text result ++ group_str m 0 in
  let en := assign "hour" hour en in
  let en := assign "minute" minute en in
  let en :=
    if meridiem >=? 0 then assign "meridiem" meridiem en
    else
      let startAtPM :=
        isCertain st "meridiem" && Js.loose_eq (get st "meridiem") Meridiem.PM in
      if startAtPM && (Js.num (get st "hour") >? hour) then
        (* 10pm - 1 (am) *)
        imply "meridiem" Meridiem.AM (delete_component "meridiem" en)
      else if hour >? 12 then
        imply "meridiem" Meridiem.PM (delete_component "meridiem" en)
      else en in
  let en :=
    if time_lt (getTime en) (getTime st)
    then imply "day" (Js.num (get en "day") + 1) en
    else en in
  Some {| res_index := res_index result;
          res_text := txt;
          start := st;
          end_ := Some en |}.

(** [extract]: the match comes back with the offset the function leaves in
    [match.index], next to the result ([None] for [null]). *)
Definition extract (parser : TimeExpressionParser) (context : ParsingContext)
    (m : RegExpMatchArray) : RegExpMatchArray * option ParsingResult :=
  let ref := refDate context in
  let result :=
    createParsingResult context
      (index m + String.length (group_str m 1))%nat
      (Js.substring_from (String.length (group_str m 1)) (group_str m 0)) in
  let result :=
    {| res_index := res_index result;
       res_text := res_text result;
       start := imply "year" (ref_year ref)
                  (imply "month" (ref_month ref + 1)
                     (imply "day" (ref_date ref) (start result)));
       end_ := end_ result |} in
  match extractPrimaryTimeComponents context m with
  | None =>
      ({| index := (index m + String.length (group_str m 0))%nat;
          groups := groups m |}, None)
  | Some components =>
      let result :=
        {| res_index := res_index result;
           res_text := res_text result;
           start := components;
           end_ := end_ result |} in
      let remainingText :=
        Js.substring_from (index m + String.length (group_str m 0)) (text context) in
      match followingExec parser remainingText with
      | None => (m, Some result)
      | Some m' =>
          (* Pattern "YY.YY -XXXX" is more like timezone offset *)
          if looks_like_timezone_offset (group_str m' 0) then (m, Some result)
          else
            match extractEndTimeComponent (clone_result result) m' with
            | Some newResult => (m, Some newResult)
            | None => (m, Some result)
            end
      end
  end.

(** The hour and minute step shared by the three decoders (lines 98-106,
    173-181 and 261-271), on its own: the reading of group 2, the reading of
    group 3, and the packed form when group 3 is absent. *)
Definition decodeHourMinute (m : RegExpMatchArray) : Z * Z :=
  let hour := Js.parseInt (group_str m HOUR_GROUP) in
  let minute := 0 in
  match group m MINUTE_GROUP with
  | Some g => (hour, Js.parseInt g)
  | None =>
      if hour >? 100 then (hour / 100, Z.rem hour 100) else (hour, minute)
  end.

(** The [return null] sites of [extractPrimaryTimeComponents], collected. *)
Definition primary_rejected (m : RegExpMatchArray) : bool :=
  let '(hour, minute) := decodeHourMinute m in
  (minute >=? 60) || (hour >? 24)
  || (bool_decide (is_Some (group m AM_PM_HOUR_GROUP)) && (hour >? 12))
  || match group m MILLI_SECOND_GROUP with
     | Some g => Js.parseInt (Js.substring_to 3 g) >=? 1000
     | None => false
     end
  || match group m SECOND_GROUP with
     | Some g => Js.parseInt g >=? 60
     | None => false
     end.

(** The [return null] sites of [extractEndTimeComponent]: the same tests. *)
Definition range_end_rejected (m : RegExpMatchArray) : bool :=
  primary_rejected m.

(** [result] with other start components. *)
Definition with_start (r : ParsingResult) (c : ParsingComponents) : ParsingResult :=
  {| res_index := res_index r;
     res_text := res_text r;
     start := c;
     end_ := end_ r |}.

(** The start-only result of [extract] once the primary decode gave [c]. *)
Definition start_only (context : ParsingContext) (m : RegExpMatchArray)
    (c : ParsingComponents) : ParsingResult :=
  with_start
    (createParsingResult context
       (index m + String.length (group_str m 1))%nat
       (Js.substring_from (String.length (group_str m 1)) (group_str m 0)))
    c.

(** The text that [extract] scans for a range continuation. *)
Definition remainingText (context : ParsingContext) (m : RegExpMatchArray) : string :=
  Js.substring_from (index m + String.length (group_str m 0)) (text context).

(** The end match is a "12am": an AM token on a decoded hour of 12, the case
    in which [extractEndTimeComponent] moves the end to the next day at once
    (lines 288-295). *)
Definition ends_at_twelve_am (m : RegExpMatchArray) : bool :=
  match group m AM_PM_HOUR_GROUP with
  | Some tok => ampm_is tok "a" && (fst (decodeHourMinute m) =? 12)
  | None => false
  end.

(** Two components agree on a field: same value and same certainty tag. *)
Definition same_field (k : string) (a b : ParsingComponents) : Prop :=
  knownValues a !! k = knownValues b !! k
  /\ impliedValues a !! k = impliedValues b !! k.

(** The start is CERTAIN-PM (line 327). *)
Definition startAtPM (st : ParsingComponents) : bool :=
  isCertain st "meridiem" && Js.loose_eq (get st "meridiem") Meridiem.PM.

(** ** The range decoder, stage by stage

    [extractEndTimeComponent] runs four stages in a row; each is named here
    so that it can be studied alone, and [extractEnd_stages] shows that the
    decoder is their composition. *)

(** Lines 245-259: the fraction and the seconds of the end. *)
Definition end_second_stage (en : ParsingComponents) (m : RegExpMatchArray)
  : option ParsingComponents :=
  en ←
    match group m MILLI_SECOND_GROUP with
    | Some g =>
        let millisecond := Js.parseInt (Js.substring_to 3 g) in
        if millisecond >=? 1000 then None
        else Some (assign "millisecond" millisecond en)
    | None => Some en
    end;
  match group m SECOND_GROUP with
  | Some g =>
      let second := Js.parseInt g in
      if second >=? 60 then None
      else Some (assign "second" second en)
  | None => Some en
  end.

(** Lines 282-318: the AM/PM token of the end and its way back into the
    start. *)
Definition end_ampm_stage (m : RegExpMatchArray) (hour meridiem : Z)
    (st en : ParsingComponents) : option (Z * Z * ParsingComponents * ParsingComponents) :=
  match group m AM_PM_HOUR_GROUP with
  | Some tok =>
      if hour >? 12 then None else
      let '(hour, meridiem, en) :=
        if ampm_is tok "a" then
          if hour =? 12 then
            (0, Meridiem.AM,
             if negb (isCertain en "day")
             then imply "day" (Js.num (get en "day") + 1) en
             else en)
          else (hour, Meridiem.AM, en)
        else (hour, meridiem, en) in
      let '(hour, meridiem) :=
        if ampm_is tok "p" then (if negb (hour =? 12) then hour + 12 else hour, Meridiem.PM)
        else (hour, meridiem) in
      let st :=
        if negb (isCertain st "meridiem") then
          if meridiem =? Meridiem.AM then
            let st := imply "meridiem" Meridiem.AM st in
            if Js.loose_eq (get st "hour") 12 then assign "hour" 0 st else st
          else
            let st := imply "meridiem" Meridiem.PM st in
            if negb (Js.loose_eq (get st "hour") 12)
            then assign "hour" (Js.num (get st "hour") + 12) st
            else st
        else st in
      Some (hour, meridiem, st, en)
  | None => Some (hour, meridiem, st, en)
  end.

(** Lines 321-336: hour, minute and meridiem of the end. *)
Definition end_meridiem_stage (hour minute meridiem : Z) (st en : ParsingComponents)
  : ParsingComponents :=
  let en := assign "hour" hour en in
  let en := assign "minute" minute en in
  if meridiem >=? 0 then assign "meridiem" meridiem en
  else
    let startAtPM :=
      isCertain st "meridiem" && Js.loose_eq (get st "meridiem") Meridiem.PM in
    if startAtPM && (Js.num (get st "hour") >? hour) then
      imply "meridiem" Meridiem.AM (delete_component "meridiem" en)
    else if hour >? 12 then
      imply "meridiem" Meridiem.PM (delete_component "meridiem" en)
    else en.

(** Lines 338-340: the rollover. *)
Definition end_rollover_stage (st en : ParsingComponents) : ParsingComponents :=
  if time_lt (getTime en) (getTime st)
  then imply "day" (Js.num (get en "day") + 1) en
  else en.

(** The start as [extractEndTimeComponent] leaves it when the end carries an
    AM/PM token that decoded to [meridiem] (lines 303-317). *)
Definition start_after_end_token (meridiem : Z) (st : ParsingComponents)
  : ParsingComponents :=
  if negb (isCertain st "meridiem") then
    if meridiem =? Meridiem.AM then
      let st := imply "meridiem" Meridiem.AM st in
      if Js.loose_eq (get st "hour") 12 then assign "hour" 0 st else st
    else
      let st := imply "meridiem" Meridiem.PM st in
      if negb (Js.loose_eq (get st "hour") 12)
      then assign "hour" (Js.num (get st "hour") + 12) st
      else st
  else st.

(** Seconds and milliseconds within their ranges, when set. *)
Definition seconds_in_range (c : ParsingComponents) : Prop :=
  (forall s, get c "second" = Some s -> 0 <= s <= 59)
  /\ (forall ms, get c "millisecond" = Some ms -> 0 <= ms <= 999).

(** The time fields of components attached to a result: an hour and a
    minute are set, within 0..24 and 0..59, and the seconds and
    milliseconds are within their ranges. *)
Definition time_fields_in_range (c : ParsingComponents) : Prop :=
  (exists h, get c "hour" = Some h /\ 0 <= h <= 24)
  /\ (exists mi, get c "minute" = Some mi /\ 0 <= mi <= 59)
  /\ seconds_in_range c.


(** ** Sample inputs *)

Module Samples.

(** A factory that starts every components value from the calendar date
    2020-07-10 and from zero seconds and milliseconds, all implied. *)
Definition dated_components : ParsingComponents :=
  imply "millisecond" 0
    (imply "second" 0
       (imply "year" 2020
          (imply "month" 7
             (imply "day" 10 (mkComponents ∅ ∅))))).

(** A factory that hands out components with no field at all. *)
Definition blank_components : ParsingComponents := mkComponents ∅ ∅.

Definition july_10 : RefDate := mkRefDate 2020 6 10.

Definition dated_context (txt : string) : ParsingContext :=
  mkContext txt july_10 dated_components.

(** A match of the primary grammar at offset 0 with an empty boundary. *)
Definition primary_match (whole hour : string) (minute second millisecond ampm : option string)
  : RegExpMatchArray :=
  mkMatch 0 [Some whole; Some EmptyString; Some hour; minute; second; millisecond; ampm].

(** A match of the following grammar whose phrase is a dash. *)
Definition following_match (whole hour : string) (minute second millisecond ampm : option string)
  : RegExpMatchArray :=
  mkMatch 0 [Some whole; Some "-"; Some hour; minute; second; millisecond; ampm].

(** A parser whose following pattern finds nothing. *)
Definition no_range : TimeExpressionParser := mkParser (fun _ => None).

(** A parser whose following pattern finds [m'] after every primary match. *)
Definition range_with (m' : RegExpMatchArray) : TimeExpressionParser :=
  mkParser (fun _ => Some m').

Definition m_10 := primary_match "10" "10" None None None None.
Definition m_1530 := primary_match "1530" "1530" None None None None.
Definition m_15_30 := primary_match "15:30" "15" (Some "30") None None None.
Definition m_14_30 := primary_match "14:30" "14" (Some "30") None None None.
Definition m_24_00 := primary_match "24:00" "24" (Some "00") None None None.
Definition m_9am := primary_match "9am" "9" None None None (Some "am").
Definition m_10pm := primary_match "10pm" "10" None None None (Some "pm").
Definition m_11pm := primary_match "11pm" "11" None None None (Some "pm").
Definition m_12am := primary_match "12am" "12" None None None (Some "am").
Definition m_12pm := primary_match "12pm" "12" None None None (Some "pm").
Definition m_13pm := primary_match "13pm" "13" None None None (Some "pm").

Definition f_11pm := following_match "-11pm" "11" None None None (Some "pm").
Definition f_1am := following_match "-1am" "1" None None None (Some "am").
Definition f_12 := following_match "-12" "12" None None None None.
Definition f_0500 := following_match "-0500" "0500" None None None None.
Definition f_11_75 := following_match "-11:75" "11" (Some "75") None None None.

(** The start-only result that [extract] hands to the range decoder for the
    primary match [m], when the primary decode succeeds. *)
Definition start_result (context : ParsingContext) (m : RegExpMatchArray)
  : option ParsingResult :=
  start_only context m <$> extractPrimaryTimeComponents context m.

End Samples.

Import Samples.


(** ** Further notions about results *)

(** Hour and meridiem of a components value tell the same half of the day:
    AM with an hour below 12, PM with an hour of 12 or more. *)
Definition meridiem_agrees (c : ParsingComponents) : Prop :=
  exists h md,
    get c "hour" = Some h /\ get c "meridiem" = Some md
    /\ ((md = Meridiem.AM /\ 0 <= h < 12) \/ (md = Meridiem.PM /\ 12 <= h <= 24)).

(** The calendar date, the seconds and the milliseconds are set, so that
    [date()] is a valid date once hour and minute are. *)
Definition has_date_and_seconds (c : ParsingComponents) : Prop :=
  is_Some (get c "year") /\ is_Some (get c "month") /\ is_Some (get c "day")
  /\ is_Some (get c "second") /\ is_Some (get c "millisecond").

(** The character of a decimal digit. *)
Definition digit_char (d : Z) : ascii := ascii_of_nat (Z.to_nat (48 + d)).

(** A number below 100 written with two digits, and a number below 1000
    written with three: the text of a minute, seconds or fraction group. *)
Definition two_digits (n : Z) : string :=
  String (digit_char (n / 10)) (String (digit_char (n mod 10)) EmptyString).

Definition three_digits (n : Z) : string :=
  String (digit_char (n / 100)) (two_digits (n mod 100)).

(** The strings that the guard [/^\s*([+-])\s*\d{3,4}$/] describes. *)
Definition all_spaces (s : string) : Prop := Js.skip_spaces s = EmptyString.

Definition timezone_offset_shape (s : string) : Prop :=
  exists ws1 sign ws2 ds,
    s = ws1 ++ String sign (ws2 ++ ds)
    /\ all_spaces ws1 /\ (sign = "+"%char \/ sign = "-"%char) /\ all_spaces ws2
    /\ Js.all_digits ds = true
    /\ (String.length ds = 3%nat \/ String.length ds = 4%nat).

(** ** The primary decoder, stage by stage *)

(** Lines 112-133: the provisional PM and the AM/PM token, from the hour of
    the hour and minute step to the final hour and the meridiem. *)
Definition primary_ampm_stage (m : RegExpMatchArray) (hour : Z) : option (Z * option Z) :=
  let meridiem : option Z := None in
  let meridiem := if hour >=? 12 then Some Meridiem.PM else meridiem in
  match group m AM_PM_HOUR_GROUP with
  | Some tok =>
      if hour >? 12 then None else
      let '(hour, meridiem) :=
        if ampm_is tok "a" then (if hour =? 12 then 0 else hour, Some Meridiem.AM)
        else (hour, meridiem) in
      let '(hour, meridiem) :=
        if ampm_is tok "p" then (if negb (hour =? 12) then hour + 12 else hour, Some Meridiem.PM)
        else (hour, meridiem) in
      Some (hour, meridiem)
  | None => Some (hour, meridiem)
  end.

(** Lines 135-146: hour, minute and meridiem go into the components. *)
Definition primary_store_stage (hour minute : Z) (meridiem : option Z)
    (components : ParsingComponents) : ParsingComponents :=
  let components := assign "hour" hour components in
  let components := assign "minute" minute components in
  match meridiem with
  | Some md => assign "meridiem" md components
  | None =>
      if hour <? 12 then imply "meridiem" Meridiem.AM components
      else imply "meridiem" Meridiem.PM components
  end.


(** ** More JavaScript primitives, for [locales/fr/constants.ts] *)

Module JsText.

(** [s.toLowerCase()], code unit by code unit. *)
Fixpoint toLowerCase (s : string) : string :=
  match s with
  | EmptyString => EmptyString
  | String a s' => String (Js.toLowerCase a) (toLowerCase s')
  end.

(** A text unit against a pattern letter, exactly. *)
Definition unit_eq (p c : ascii) : bool := bool_decide (c = p).

(** A text unit against a lower-case pattern letter under the flag [i]. *)
Definition unit_ci (p c : ascii) : bool := bool_decide (Js.toLowerCase c = p).

(** The literal [pat] at the head of [s]: what follows it, if it is there. *)
Fixpoint matches_at (eqb : ascii -> ascii -> bool) (pat s : string) : option string :=
  match pat, s with
  | EmptyString, _ => Some s
  | String p pat', String c s' => if eqb p c then matches_at eqb pat' s' else None
  | String _ _, EmptyString => None
  end.

(** [/pat/.test(s)] and [s.match(/pat/)] as a truth value, for a literal
    [pat]: is there an occurrence. *)
Fixpoint regex_test (eqb : ascii -> ascii -> bool) (pat s : string) : bool :=
  match matches_at eqb pat s with
  | Some _ => true
  | None =>
      match s with
      | String _ s' => regex_test eqb pat s'
      | EmptyString => false
      end
  end.

(** [s.replace(/pat/, '')] for a literal [pat]: the leftmost occurrence goes. *)
Fixpoint regex_remove_first (eqb : ascii -> ascii -> bool) (pat s : string) : string :=
  match matches_at eqb pat s with
  | Some rest => rest
  | None =>
      match s with
      | String c s' => String c (regex_remove_first eqb pat s')
      | EmptyString => EmptyString
      end
  end.

(** Value of a hexadecimal digit. *)
Definition hex_digit_of (a : ascii) : option Z :=
  let n := Z.of_nat (nat_of_ascii a) in
  if (48 <=? n) && (n <=? 57) then Some (n - 48)
  else if (97 <=? n) && (n <=? 102) then Some (n - 87)
  else if (65 <=? n) && (n <=? 70) then Some (n - 55)
  else None.

(** The longest run of digits at the head of [s], read in the given radix;
    [None] when [s] does not start with a digit. *)
Fixpoint read_digits (radix : Z) (digit : ascii -> option Z) (acc : Z) (seen : bool)
    (s : string) : option Z :=
  match s with
  | String a s' =>
      match digit a with
      | Some d => read_digits radix digit (radix * acc + d) true s'
      | None => if seen then Some acc else None
      end
  | EmptyString => if seen then Some acc else None
  end.

(** [parseInt(s)] without radix: leading white space is skipped, a sign is
    read, a prefix [0x] or [0X] switches to radix 16, and the longest run of
    digits is the value; [None] is [NaN].  The value is the mathematical
    one; JavaScript rounds it to a double, which changes nothing below
    2^53, and reads "-0" as the negative zero. *)
Definition parseInt (s : string) : option Z :=
  let s := Js.skip_spaces s in
  let '(sign, s) :=
    match s with
    | String a s' =>
        if bool_decide (a = "-"%char) then (-1, s')
        else if bool_decide (a = "+"%char) then (1, s')
        else (1, s)
    | EmptyString => (1, s)
    end in
  let '(radix, digit, s) :=
    match s with
    | String a (String b s') =>
        if bool_decide (a = "0"%char)
           && (bool_decide (b = "x"%char) || bool_decide (b = "X"%char))
        then (16, hex_digit_of, s')
        else (10, Js.digit_of, s)
    | _ => (10, Js.digit_of, s)
    end in
  n ← read_digits radix digit 0 false s;
  Some (sign * n).

End JsText.

(** ** [locales/fr/constants.ts] *)

Module Fr.

(** The letters of the dictionaries outside ASCII, one code unit each. *)
Definition e_acute : string := String (ascii_of_nat 233) EmptyString.
Definition u_circumflex : string := String (ascii_of_nat 251) EmptyString.

(** An object literal used as a dictionary is a finite map from its keys;
    the properties that every object inherits ([constructor], [__proto__])
    are not part of it. *)
Definition WEEKDAY_DICTIONARY : gmap string Z :=
  list_to_map
    [("dimanche", 0); ("dim", 0); ("lundi", 1); ("lun", 1); ("mardi", 2); ("mar", 2);
     ("mercredi", 3); ("mer", 3); ("jeudi", 4); ("jeu", 4); ("vendredi", 5); ("ven", 5);
     ("samedi", 6); ("sam", 6)].

Definition MONTH_DICTIONARY : gmap string Z :=
  list_to_map
    [("janvier", 1); ("jan", 1); ("jan.", 1);
     ("f" ++ e_acute ++ "vrier", 2); ("f" ++ e_acute ++ "v", 2);
     ("f" ++ e_acute ++ "v.", 2); ("fevrier", 2); ("fev", 2); ("fev.", 2);
     ("mars", 3); ("mar", 3); ("mar.", 3);
     ("avril", 4); ("avr", 4); ("avr.", 4);
     ("mai", 5);
     ("juin", 6); ("jun", 6);
     ("juillet", 7); ("jul", 7); ("jul.", 7);
     ("ao" ++ u_circumflex ++ "t", 8); ("aout", 8);
     ("septembre", 9); ("sep", 9); ("sep.", 9); ("sept", 9); ("sept.", 9);
     ("octobre", 10); ("oct", 10); ("oct.", 10);
     ("novembre", 11); ("nov", 11); ("nov.", 11);
     ("d" ++ e_acute ++ "cembre", 12); ("decembre", 12); ("dec", 12); ("dec.", 12)].

Definition INTEGER_WORD_DICTIONARY : gmap string Z :=
  list_to_map
    [("un", 1); ("deux", 2); ("trois", 3); ("quatre", 4); ("cinq", 5); ("six", 6);
     ("sept", 7); ("huit", 8); ("neuf", 9); ("dix", 10); ("onze", 11); ("douze", 12);
     ("treize", 13)].

Definition TIME_UNIT_DICTIONARY : gmap string string :=
  list_to_map
    [("sec", "second"); ("seconde", "second"); ("secondes", "second");
     ("min", "minute"); ("mins", "minute"); ("minute", "minute"); ("minutes", "minute");
     ("h", "hour"); ("hr", "hour"); ("hrs", "hour"); ("heure", "hour"); ("heures", "hour");
     ("jour", "d"); ("jours", "d");
     ("semaine", "week"); ("semaines", "week");
     ("mois", "month");
     ("ann" ++ e_acute ++ "e", "year"); ("ann" ++ e_acute ++ "es", "year")].

(** A JavaScript number that is [NaN] ([None]) or a rational. *)
Definition number : Type := option Q.

Definition of_Z (n : Z) : number := Some (inject_Z n).

(** [parseNumberPattern].  [parseFloat] is the built-in of that name, a
    parameter here: only texts that are no word, no "a" or "an", and hold
    neither "few" nor "half" reach it. *)
Definition parseNumberPattern (parseFloat : string -> number) (text : string) : number :=
  let num := JsText.toLowerCase text in
  match INTEGER_WORD_DICTIONARY !! num with
  | Some n => of_Z n
  | None =>
      if bool_decide (num = "a") || bool_decide (num = "an") then of_Z 1
      else if JsText.regex_test JsText.unit_eq "few" num then of_Z 3
      else if JsText.regex_test JsText.unit_eq "half" num then Some (1 # 2)%Q
      else parseFloat num
  end.

(** The last two units of [s] are one of [st], [nd], [rd], [th] under the
    flag [i], and nothing follows: [/(?:st|nd|rd|th)$/i] matches at the head
    of [s]. *)
Definition ordinal_suffix_here (s : string) : bool :=
  match s with
  | String a (String b EmptyString) =>
      (JsText.unit_ci "s" a && JsText.unit_ci "t" b)
      || (JsText.unit_ci "n" a && JsText.unit_ci "d" b)
      || (JsText.unit_ci "r" a && JsText.unit_ci "d" b)
      || (JsText.unit_ci "t" a && JsText.unit_ci "h" b)
  | _ => false
  end.

(** [num.replace(/(?:st|nd|rd|th)$/i, '')] *)
Fixpoint remove_ordinal_suffix (s : string) : string :=
  if ordinal_suffix_here s then EmptyString
  else
    match s with
    | String c s' => String c (remove_ordinal_suffix s')
    | EmptyString => EmptyString
    end.

Definition parseOrdinalNumberPattern (text : string) : option Z :=
  let num := JsText.toLowerCase text in
  let num := remove_ordinal_suffix num in
  JsText.parseInt num.

(** [parseYear]; [None] is [NaN]. *)
Definition parseYear (text : string) : option Z :=
  if JsText.regex_test JsText.unit_ci "be" text then
    (* Buddhist Era *)
    let text := JsText.regex_remove_first JsText.unit_ci "be" text in
    n ← JsText.parseInt text; Some (n - 543)
  else if JsText.regex_test JsText.unit_ci "bc" text then
    (* Before Christ *)
    let text := JsText.regex_remove_first JsText.unit_ci "bc" text in
    n ← JsText.parseInt text; Some (- n)
  else if JsText.regex_test JsText.unit_ci "ad" text then
    let text := JsText.regex_remove_first JsText.unit_ci "ad" text in
    JsText.parseInt text
  else
    yearNumber ← JsText.parseInt text;
    Some (if yearNumber <? 100
          then (if yearNumber >? 50 then yearNumber + 1900 else yearNumber + 2000)
          else yearNumber).

(** [collectDateTimeFragment]: [fragments[unit] = num]; a unit that the
    dictionary does not hold is [undefined], whose key is "undefined". *)
Definition collectDateTimeFragment (parseFloat : string -> number)
    (fragments : gmap string number) (m : RegExpMatchArray) : gmap string number :=
  let num := parseNumberPattern parseFloat (group_str m 1) in
  let unit := TIME_UNIT_DICTIONARY !! JsText.toLowerCase (group_str m 2) in
  <[default "undefined" unit := num]> fragments.

(** The loop of [parseTimeUnits], with the number of iterations it may still
    run; [None] when they do not suffice.  [exec] is
    [SINGLE_TIME_UNIT_REGEX.exec], a parameter: the pattern is built by
    [matchAnyPattern], which is not among the sources. *)
Fixpoint parseTimeUnits_loop (parseFloat : string -> number)
    (exec : string -> option RegExpMatchArray) (fuel : nat)
    (fragments : gmap string number) (remainingText : string)
  : option (gmap string number) :=
  match exec remainingText with
  | None => Some fragments
  | Some m =>
      match fuel with
      | O => None
      | S fuel' =>
          parseTimeUnits_loop parseFloat exec fuel'
            (collectDateTimeFragment parseFloat fragments m)
            (Js.substring_from (String.length (group_str m 0)) remainingText)
      end
  end.

(** [parseTimeUnits]: the text is at least as long as the number of
    iterations when every match is a non-empty part of the text it was found
    in. *)
Definition parseTimeUnits (parseFloat : string -> number)
    (exec : string -> option RegExpMatchArray) (timeunitText : string)
  : option (gmap string number) :=
  parseTimeUnits_loop parseFloat exec (String.length timeunitText) ∅ timeunitText.

End Fr.


(** Every unit of [s] passes the test [f]. *)
Fixpoint string_all (f : ascii -> bool) (s : string) : bool :=
  match s with
  | EmptyString => true
  | String a s' => f a && string_all f s'
  end.

(** A digit or a white-space character: a unit that is no letter. *)
Definition plain_unit (a : ascii) : bool := Js.is_digit a || Js.is_space a.

(** A letter of the alphabet, in lower case. *)
Definition lower_letter (p : ascii) : Prop := (97 <= nat_of_ascii p <= 122)%nat.


(** A stand-in for [SINGLE_TIME_UNIT_REGEX.exec] that reads every text that
    is not empty as a match of its first unit, with the number "2" and the
    unit "h". *)
Definition unit_by_unit_exec (t : string) : option RegExpMatchArray :=
  match t with
  | EmptyString => None
  | String c _ => Some (mkMatch 0 [Some (String c EmptyString); Some "2"; Some "h"])
  end.

(** The keys that [parseTimeUnits] can write. *)
Definition fragment_keys : list string :=
  ["second"; "minute"; "hour"; "d"; "week"; "month"; "year"; "undefined"].

(** ** Components: reading after writing *)

Section components.

Implicit Types (c : ParsingComponents) (k : string) (v : Z).

Lemma known_assign k v c k' :
  knownValues (assign k v c) !! k' = if decide (k = k') then Some v else knownValues c !! k'.
Proof. unfold assign; simpl. apply lookup_insert. Qed.

Lemma implied_assign k v c k' :
  impliedValues (assign k v c) !! k' = if decide (k = k') then None else impliedValues c !! k'.
Proof. unfold assign; simpl. apply lookup_delete. Qed.

Lemma known_imply k v c k' :
  knownValues (imply k v c) !! k' = knownValues c !! k'.
Proof. unfold imply. destruct (isCertain c k); reflexivity. Qed.

Lemma implied_imply k v c k' :
  impliedValues (imply k v c) !! k' =
  if decide (k = k') then (if isCertain c k then impliedValues c !! k' else Some v)
  else impliedValues c !! k'.
Proof.
  unfold imply. destruct (isCertain c k); simpl.
  - destruct (decide (k = k')); reflexivity.
  - apply lookup_insert.
Qed.

Lemma known_delete k c k' :
  knownValues (delete_component k c) !! k' = if decide (k = k') then None else knownValues c !! k'.
Proof. unfold delete_component; simpl. apply lookup_delete. Qed.

Lemma implied_delete k c k' :
  impliedValues (delete_component k c) !! k' = if decide (k = k') then None else impliedValues c !! k'.
Proof. unfold delete_component; simpl. apply lookup_delete. Qed.

Lemma isCertain_false c k : isCertain c k = false <-> knownValues c !! k = None.
Proof.
  unfold isCertain. rewrite bool_decide_eq_false, <- eq_None_not_Some. reflexivity.
Qed.

Lemma isCertain_true c k : isCertain c k = true <-> is_Some (knownValues c !! k).
Proof. unfold isCertain. apply bool_decide_eq_true. Qed.

Lemma get_certain c k : isCertain c k = true -> get c k = knownValues c !! k.
Proof.
  intros [v Hv]%isCertain_true. unfold get. rewrite Hv. reflexivity.
Qed.

Lemma get_implied c k : isCertain c k = false -> get c k = impliedValues c !! k.
Proof. intros Hk%isCertain_false. unfold get. rewrite Hk. reflexivity. Qed.

Lemma get_assign k v c k' :
  get (assign k v c) k' = if decide (k = k') then Some v else get c k'.
Proof.
  unfold get. rewrite known_assign, implied_assign.
  destruct (decide (k = k')); reflexivity.
Qed.

Lemma isCertain_assign k v c k' :
  isCertain (assign k v c) k' = if decide (k = k') then true else isCertain c k'.
Proof.
  unfold isCertain. rewrite known_assign.
  destruct (decide (k = k')); [apply bool_decide_eq_true; eauto | reflexivity].
Qed.

Lemma get_imply k v c k' :
  get (imply k v c) k' =
  if decide (k = k') then (if isCertain c k then get c k' else Some v) else get c k'.
Proof.
  unfold get. rewrite known_imply, implied_imply.
  destruct (decide (k = k')) as [<-|]; [|reflexivity].
  destruct (isCertain c k) eqn:Hc; [reflexivity|].
  apply isCertain_false in Hc. rewrite Hc. reflexivity.
Qed.

Lemma isCertain_imply k v c k' : isCertain (imply k v c) k' = isCertain c k'.
Proof. unfold isCertain. rewrite known_imply. reflexivity. Qed.

Lemma get_delete k c k' :
  get (delete_component k c) k' = if decide (k = k') then None else get c k'.
Proof.
  unfold get. rewrite known_delete, implied_delete.
  destruct (decide (k = k')); reflexivity.
Qed.

Lemma isCertain_delete k c k' :
  isCertain (delete_component k c) k' = if decide (k = k') then false else isCertain c k'.
Proof.
  unfold isCertain. rewrite known_delete.
  destruct (decide (k = k')); [|reflexivity].
  apply bool_decide_eq_false. intros [? ?]; discriminate.
Qed.

Lemma same_field_refl k c : same_field k c c.
Proof. split; reflexivity. Qed.

Lemma same_field_get k a b : same_field k a b -> get a k = get b k.
Proof. intros [H1 H2]. unfold get. rewrite H1, H2. reflexivity. Qed.

Lemma same_field_isCertain k a b : same_field k a b -> isCertain a k = isCertain b k.
Proof. intros [H1 _]. unfold isCertain. rewrite H1. reflexivity. Qed.

Lemma same_field_assign_ne k k' v a b :
  k <> k' -> same_field k' a b -> same_field k' (assign k v a) b.
Proof.
  intros Hne [H1 H2]. split.
  - rewrite known_assign, decide_False by done. exact H1.
  - rewrite implied_assign, decide_False by done. exact H2.
Qed.

Lemma same_field_imply_ne k k' v a b :
  k <> k' -> same_field k' a b -> same_field k' (imply k v a) b.
Proof.
  intros Hne [H1 H2]. split.
  - rewrite known_imply. exact H1.
  - rewrite implied_imply, decide_False by done. exact H2.
Qed.

Lemma same_field_delete_ne k k' a b :
  k <> k' -> same_field k' a b -> same_field k' (delete_component k a) b.
Proof.
  intros Hne [H1 H2]. split.
  - rewrite known_delete, decide_False by done. exact H1.
  - rewrite implied_delete, decide_False by done. exact H2.
Qed.

End components.

(** ** Readings of digit groups *)

Section readings.

Lemma digit_of_range a d : Js.digit_of a = Some d -> 0 <= d <= 9.
Proof.
  unfold Js.digit_of.
  destruct (_ && _) eqn:E; [|discriminate].
  intros [= <-]. apply andb_true_iff in E. lia.
Qed.

Lemma parseInt_from_nonneg s : forall acc, 0 <= acc -> 0 <= Js.parseInt_from acc s.
Proof.
  induction s as [|a s IH]; intros acc Hacc; simpl; [exact Hacc|].
  destruct (Js.digit_of a) as [d|] eqn:Hd; [|exact Hacc].
  apply digit_of_range in Hd. apply IH. lia.
Qed.

Lemma parseInt_nonneg s : 0 <= Js.parseInt s.
Proof. apply parseInt_from_nonneg. lia. Qed.

Lemma parseInt_from_bound s :
  forall acc, 0 <= acc ->
    Js.parseInt_from acc s < (acc + 1) * 10 ^ Z.of_nat (String.length s).
Proof.
  induction s as [|a s IH]; intros acc Hacc.
  - simpl. lia.
  - cbn [Js.parseInt_from String.length].
    rewrite Nat2Z.inj_succ, Z.pow_succ_r by lia.
    assert (0 < 10 ^ Z.of_nat (String.length s)) by (apply Z.pow_pos_nonneg; lia).
    destruct (Js.digit_of a) as [d|] eqn:Hd.
    + apply digit_of_range in Hd.
      specialize (IH (10 * acc + d) ltac:(lia)). nia.
    + nia.
Qed.

Lemma substring_to_length n s : (String.length (Js.substring_to n s) <= n)%nat.
Proof.
  revert s; induction n as [|n IH]; intros [|a s]; simpl; try lia.
  specialize (IH s). lia.
Qed.

(** The first three fractional digits always read below 1000: the
    millisecond test of the decoders never rejects. *)
Lemma millisecond_reading_bound g : Js.parseInt (Js.substring_to 3 g) < 1000.
Proof.
  unfold Js.parseInt.
  pose proof (parseInt_from_bound (Js.substring_to 3 g) 0 ltac:(lia)) as Hb.
  pose proof (substring_to_length 3 g) as Hl.
  assert (10 ^ Z.of_nat (String.length (Js.substring_to 3 g)) <= 10 ^ 3)
    by (apply Z.pow_le_mono_r; lia).
  lia.
Qed.

Lemma decodeHourMinute_nonneg m :
  0 <= fst (decodeHourMinute m) /\ 0 <= snd (decodeHourMinute m).
Proof.
  unfold decodeHourMinute.
  pose proof (parseInt_nonneg (group_str m HOUR_GROUP)) as Hh.
  destruct (group m MINUTE_GROUP) as [g|]; simpl.
  - split; [exact Hh | apply parseInt_nonneg].
  - destruct (_ >? 100) eqn:E; simpl; [|lia].
    split; [apply Z.div_pos; lia | apply Z.rem_nonneg; lia].
Qed.

Lemma decodeHourMinute_packed_minute m :
  group m MINUTE_GROUP = None -> snd (decodeHourMinute m) < 100.
Proof.
  intros Hg. unfold decodeHourMinute. rewrite Hg.
  pose proof (parseInt_nonneg (group_str m HOUR_GROUP)) as Hh.
  destruct (_ >? 100) eqn:E; simpl; [|lia].
  rewrite Z.rem_mod_nonneg by lia. apply Z.mod_pos_bound. lia.
Qed.

End readings.

(** ** Proof steps shared by the decoders *)

(** Names the hour and minute step inside an unfolded decoder. *)
Ltac name_decode m hour minute :=
  let hm := fresh "hm" in
  let E := fresh "Ehm" in
  set (hm := match group m MINUTE_GROUP with Some _ => _ | None => _ end);
  assert (E : hm = decodeHourMinute m) by reflexivity;
  clearbody hm; destruct hm as [hour minute].

(** Turns the boolean tests in the context into arithmetic facts. *)
Ltac tests_to_facts :=
  repeat match goal with
  | H : (_ || _) = false |- _ => apply orb_false_iff in H; destruct H
  | H : (_ || _) = true |- _ => apply orb_true_iff in H; destruct H
  | H : (_ && _) = true |- _ => apply andb_true_iff in H; destruct H
  | H : negb _ = true |- _ => apply negb_true_iff in H
  | H : negb _ = false |- _ => apply negb_false_iff in H
  | H : (_ >? _) = _ |- _ => rewrite Z.gtb_ltb in H
  | H : (_ >=? _) = _ |- _ => rewrite Z.geb_leb in H
  | H : (_ <? _) = true |- _ => apply Z.ltb_lt in H
  | H : (_ <? _) = false |- _ => apply Z.ltb_ge in H
  | H : (_ <=? _) = true |- _ => apply Z.leb_le in H
  | H : (_ <=? _) = false |- _ => apply Z.leb_gt in H
  | H : (_ =? _) = true |- _ => apply Z.eqb_eq in H
  | H : (_ =? _) = false |- _ => apply Z.eqb_neq in H
  end.

(** Reads fields back through a stack of [assign], [imply] and [delete],
    splitting on the tests met on the way. *)
Ltac step_fields :=
  first
    [ progress (rewrite ?get_assign, ?get_imply, ?get_delete,
                        ?isCertain_assign, ?isCertain_imply, ?isCertain_delete)
    | case_decide; simplify_eq
    | match goal with
      | |- context [if ?b then _ else _] => destruct b eqn:?
      end ].

Ltac read_fields :=
  repeat step_fields; tests_to_facts; try done; try lia; try congruence.

(** Discharges a frame goal: a field that a stack of writes to other fields
    leaves alone. *)
Ltac frame_fields :=
  repeat first
    [ apply same_field_refl
    | apply same_field_assign_ne; [congruence|]
    | apply same_field_imply_ne; [congruence|]
    | apply same_field_delete_ne; [congruence|] ].

Section primary.

Variable context : ParsingContext.

Lemma extractPrimary_None_iff m :
  extractPrimaryTimeComponents context m = None <-> primary_rejected m = true.
Proof.
  unfold extractPrimaryTimeComponents, primary_rejected.
  name_decode m hour minute. rewrite <- Ehm. clear Ehm.
  destruct (group m AM_PM_HOUR_GROUP) as [tok|]; simpl;
  destruct (group m MILLI_SECOND_GROUP) as [ms|]; simpl;
  destruct (group m SECOND_GROUP) as [s|]; simpl.
  all: rewrite ?orb_false_r, ?andb_false_l, ?andb_true_l.
  all: destruct ((minute >=? 60) || (hour >? 24)) eqn:E1; simpl; try tauto.
  all: try (destruct (hour >? 12) eqn:E2; simpl; try tauto).
  all: repeat (case_match; simplify_eq/=); try tauto; try (split; intros; discriminate).
Qed.

Lemma ampm_a_not_p tok : ampm_is tok "a" = true -> ampm_is tok "p" = false.
Proof.
  unfold ampm_is. intros Ha%bool_decide_eq_true. rewrite Ha.
  apply bool_decide_eq_false. discriminate.
Qed.

(** What a successful primary decode returns, field by field: the hour and
    minute of the decode step with the AM/PM adjustment, and the meridiem. *)
Lemma extractPrimary_fields m c :
  extractPrimaryTimeComponents context m = Some c ->
  let fresh := createParsingComponents context in
  let hour := fst (decodeHourMinute m) in
  let minute := snd (decodeHourMinute m) in
  minute < 60 /\ hour <= 24
  /\ get c "minute" = Some minute /\ isCertain c "minute" = true
  /\ isCertain c "hour" = true
  /\ match group m AM_PM_HOUR_GROUP with
     | None =>
         get c "hour" = Some hour
         /\ (12 <= hour -> get c "meridiem" = Some Meridiem.PM /\ isCertain c "meridiem" = true)
         /\ (hour < 12 ->
             get c "meridiem"
             = (if isCertain fresh "meridiem" then get fresh "meridiem" else Some Meridiem.AM)
             /\ isCertain c "meridiem" = isCertain fresh "meridiem")
     | Some tok =>
         hour <= 12
         /\ (ampm_is tok "a" = true ->
             get c "hour" = Some (if hour =? 12 then 0 else hour)
             /\ get c "meridiem" = Some Meridiem.AM /\ isCertain c "meridiem" = true)
         /\ (ampm_is tok "p" = true ->
             get c "hour" = Some (if hour =? 12 then hour else hour + 12)
             /\ get c "meridiem" = Some Meridiem.PM /\ isCertain c "meridiem" = true)
         /\ (ampm_is tok "a" = false -> ampm_is tok "p" = false ->
             get c "hour" = Some hour
             /\ (12 <= hour -> isCertain c "meridiem" = true))
     end.
Proof.
  unfold extractPrimaryTimeComponents.
  name_decode m hour minute. rewrite <- Ehm. clear Ehm. cbn [fst snd].
  destruct ((minute >=? 60) || (hour >? 24)) eqn:E1; [discriminate|].
  destruct (group m AM_PM_HOUR_GROUP) as [tok|]; cbn [mbind option_bind].
  - destruct (hour >? 12) eqn:E2; [discriminate|]. cbn [mbind option_bind].
    pose proof (ampm_a_not_p tok) as Hap.
    destruct (ampm_is tok "a") eqn:Ea; [rewrite (Hap eq_refl)|];
      [|destruct (ampm_is tok "p") eqn:Ep];
      destruct (group m MILLI_SECOND_GROUP) as [ms|]; cbn [mbind option_bind];
      try (destruct (_ >=? 1000); [discriminate|]; cbn [mbind option_bind]);
      destruct (group m SECOND_GROUP) as [s|];
      try (destruct (Js.parseInt s >=? 60) eqn:Es; [discriminate|]).
    all: intros [= <-]; clear Hap.
    all: repeat split; try discriminate; intros; read_fields.
  - destruct (group m MILLI_SECOND_GROUP) as [ms|]; cbn [mbind option_bind];
      try (destruct (_ >=? 1000); [discriminate|]; cbn [mbind option_bind]);
      destruct (group m SECOND_GROUP) as [s|];
      try (destruct (Js.parseInt s >=? 60) eqn:Es; [discriminate|]).
    all: intros [= <-].
    all: repeat split; intros; read_fields.
Qed.

(** Seconds and milliseconds of a successful primary decode: read from the
    match when their group took part, left as the factory made them
    otherwise. *)
Lemma extractPrimary_seconds m c :
  extractPrimaryTimeComponents context m = Some c ->
  let fresh := createParsingComponents context in
  match group m SECOND_GROUP with
  | Some g => get c "second" = Some (Js.parseInt g)
              /\ isCertain c "second" = true /\ Js.parseInt g < 60
  | None => same_field "second" c fresh
  end
  /\ match group m MILLI_SECOND_GROUP with
     | Some g => get c "millisecond" = Some (Js.parseInt (Js.substring_to 3 g))
                 /\ isCertain c "millisecond" = true
     | None => same_field "millisecond" c fresh
     end
  /\ (forall k, k <> "hour" -> k <> "minute" -> k <> "meridiem" ->
      k <> "second" -> k <> "millisecond" -> same_field k c fresh).
Proof.
  unfold extractPrimaryTimeComponents.
  name_decode m hour minute. clear Ehm.
  destruct ((minute >=? 60) || (hour >? 24)) eqn:E1; [discriminate|].
  destruct (match group m AM_PM_HOUR_GROUP with Some _ => _ | None => _ end)
    as [[hour' meridiem]|]; [|discriminate].
  cbn [mbind option_bind].
  destruct (group m MILLI_SECOND_GROUP) as [ms|]; cbn [mbind option_bind];
    try (destruct (_ >=? 1000); [discriminate|]; cbn [mbind option_bind]);
    destruct (group m SECOND_GROUP) as [s|];
    try (destruct (Js.parseInt s >=? 60) eqn:Es; [discriminate|]).
  all: intros [= <-]; repeat split; intros.
  all: try (destruct meridiem; [|destruct (hour' <? 12)]; frame_fields).
  all: read_fields.
Qed.

End primary.

Lemma extractEnd_stages r m :
  extractEndTimeComponent r m =
  en ← end_second_stage (clone (start r)) m;
  let '(hour, minute) := decodeHourMinute m in
  if (minute >=? 60) || (hour >? 24) then None else
  '(hour, meridiem, st, en) ←
    end_ampm_stage m hour (if hour >=? 12 then Meridiem.PM else -1) (start r) en;
  Some {| res_index := res_index r;
          res_text := res_text r ++ group_str m 0;
          start := st;
          end_ := Some (end_rollover_stage st (end_meridiem_stage hour minute meridiem st en)) |}.
Proof.
  unfold extractEndTimeComponent, end_second_stage.
  destruct (group m MILLI_SECOND_GROUP) as [ms|]; cbn [mbind option_bind];
    try (destruct (_ >=? 1000); [reflexivity|]; cbn [mbind option_bind]);
    destruct (group m SECOND_GROUP) as [s|]; cbn [mbind option_bind];
    try (destruct (Js.parseInt s >=? 60); [reflexivity|]; cbn [mbind option_bind]).
  all: reflexivity.
Qed.

Lemma same_field_trans k a b c : same_field k a b -> same_field k b c -> same_field k a c.
Proof. intros [H1 H2] [H3 H4]. split; congruence. Qed.

Section range_stages.

Implicit Types (st en : ParsingComponents) (m : RegExpMatchArray).

Lemma end_second_stage_None en0 m :
  end_second_stage en0 m = None <->
  match group m SECOND_GROUP with
  | Some g => Js.parseInt g >= 60
  | None => False
  end.
Proof.
  unfold end_second_stage.
  destruct (group m MILLI_SECOND_GROUP) as [ms|]; cbn [mbind option_bind].
  - pose proof (millisecond_reading_bound ms).
    destruct (_ >=? 1000) eqn:E; [tests_to_facts; lia|]. cbn [mbind option_bind].
    destruct (group m SECOND_GROUP) as [s|]; [|split; [discriminate|tauto]].
    destruct (Js.parseInt s >=? 60) eqn:Es; tests_to_facts; split; try done; lia.
  - destruct (group m SECOND_GROUP) as [s|]; [|split; [discriminate|tauto]].
    destruct (Js.parseInt s >=? 60) eqn:Es; tests_to_facts; split; try done; lia.
Qed.

Lemma end_second_stage_Some en0 m en :
  end_second_stage en0 m = Some en ->
  (forall k, k <> "second" -> k <> "millisecond" -> same_field k en en0)
  /\ match group m SECOND_GROUP with
     | Some g => get en "second" = Some (Js.parseInt g)
                 /\ isCertain en "second" = true /\ Js.parseInt g < 60
     | None => same_field "second" en en0
     end
  /\ match group m MILLI_SECOND_GROUP with
     | Some g => get en "millisecond" = Some (Js.parseInt (Js.substring_to 3 g))
                 /\ isCertain en "millisecond" = true
     | None => same_field "millisecond" en en0
     end.
Proof.
  unfold end_second_stage.
  destruct (group m MILLI_SECOND_GROUP) as [ms|]; cbn [mbind option_bind];
    try (destruct (_ >=? 1000); [discriminate|]; cbn [mbind option_bind]);
    destruct (group m SECOND_GROUP) as [s|];
    try (destruct (Js.parseInt s >=? 60) eqn:Es; [discriminate|]).
  all: intros [= <-]; repeat split; intros; try frame_fields; read_fields.
Qed.

Lemma end_ampm_stage_no_token m hour meridiem st en :
  group m AM_PM_HOUR_GROUP = None ->
  end_ampm_stage m hour meridiem st en = Some (hour, meridiem, st, en).
Proof. intros H. unfold end_ampm_stage. rewrite H. reflexivity. Qed.

Lemma end_ampm_stage_token m tok hour meridiem st en :
  group m AM_PM_HOUR_GROUP = Some tok ->
  end_ampm_stage m hour meridiem st en =
  if hour >? 12 then None else
  let twelve := ampm_is tok "a" && (hour =? 12) in
  let hour' :=
    if ampm_is tok "a" then (if hour =? 12 then 0 else hour)
    else if ampm_is tok "p" then (if hour =? 12 then hour else hour + 12)
    else hour in
  let meridiem' :=
    if ampm_is tok "a" then Meridiem.AM
    else if ampm_is tok "p" then Meridiem.PM else meridiem in
  Some (hour', meridiem', start_after_end_token meridiem' st,
        if twelve && negb (isCertain en "day")
        then imply "day" (Js.num (get en "day") + 1) en else en).
Proof.
  intros H. unfold end_ampm_stage, start_after_end_token. rewrite H.
  destruct (hour >? 12); [reflexivity|].
  pose proof (ampm_a_not_p tok) as Hap.
  destruct (ampm_is tok "a") eqn:Ea; [rewrite (Hap eq_refl)|];
    [|destruct (ampm_is tok "p") eqn:Ep];
    destruct (hour =? 12) eqn:E12; simpl; try reflexivity.
  all: destruct (isCertain en "day"); reflexivity.
Qed.

Lemma start_after_end_token_frame meridiem st k :
  k <> "hour" -> k <> "meridiem" -> same_field k (start_after_end_token meridiem st) st.
Proof.
  intros. unfold start_after_end_token.
  repeat (match goal with |- context [if ?b then _ else _] => destruct b end);
    frame_fields.
Qed.

Lemma end_meridiem_stage_frame hour minute meridiem st en k :
  k <> "hour" -> k <> "minute" -> k <> "meridiem" ->
  same_field k (end_meridiem_stage hour minute meridiem st en) en.
Proof.
  intros. unfold end_meridiem_stage.
  repeat (match goal with |- context [if ?b then _ else _] => destruct b end);
    frame_fields.
Qed.

Lemma end_meridiem_stage_hour_minute hour minute meridiem st en :
  let en' := end_meridiem_stage hour minute meridiem st en in
  get en' "hour" = Some hour /\ isCertain en' "hour" = true
  /\ get en' "minute" = Some minute /\ isCertain en' "minute" = true.
Proof.
  unfold end_meridiem_stage. repeat split; read_fields.
Qed.

Lemma end_meridiem_stage_meridiem hour minute meridiem st en :
  let en' := end_meridiem_stage hour minute meridiem st en in
  (0 <= meridiem -> get en' "meridiem" = Some meridiem /\ isCertain en' "meridiem" = true)
  /\ (meridiem < 0 -> startAtPM st = true -> Js.num (get st "hour") > hour ->
      get en' "meridiem" = Some Meridiem.AM /\ isCertain en' "meridiem" = false)
  /\ (meridiem < 0 -> hour <= 12 ->
      ~ (startAtPM st = true /\ Js.num (get st "hour") > hour) ->
      same_field "meridiem" en' en).
Proof.
  unfold end_meridiem_stage, startAtPM.
  repeat split; intros.
  1,2: read_fields.
  - destruct (meridiem >=? 0) eqn:E; [tests_to_facts; lia|].
    rewrite H0. simpl. destruct (_ >? hour) eqn:E2; [|tests_to_facts; lia].
    read_fields.
  - destruct (meridiem >=? 0) eqn:E; [tests_to_facts; lia|].
    rewrite H0. simpl. destruct (_ >? hour) eqn:E2; [|tests_to_facts; lia].
    read_fields.
  - destruct (meridiem >=? 0) eqn:E; [tests_to_facts; lia|].
    destruct (_ && (_ >? hour)) eqn:E2.
    { exfalso. apply H1. tests_to_facts. split; [|lia].
      apply andb_true_iff; split; assumption. }
    destruct (hour >? 12) eqn:E3; [tests_to_facts; lia|].
    frame_fields.
  - destruct (meridiem >=? 0) eqn:E; [tests_to_facts; lia|].
    destruct (_ && (_ >? hour)) eqn:E2.
    { exfalso. apply H1. tests_to_facts. split; [|lia].
      apply andb_true_iff; split; assumption. }
    destruct (hour >? 12) eqn:E3; [tests_to_facts; lia|].
    frame_fields.
Qed.

Lemma end_rollover_stage_frame st en k :
  k <> "day" -> same_field k (end_rollover_stage st en) en.
Proof.
  intros. unfold end_rollover_stage. destruct (time_lt _ _); frame_fields.
Qed.


End range_stages.

Lemma extractEnd_None_iff r m :
  extractEndTimeComponent r m = None <-> range_end_rejected m = true.
Proof.
  rewrite extractEnd_stages. unfold range_end_rejected, primary_rejected.
  destruct (decodeHourMinute m) as [hour minute].
  destruct (end_second_stage (clone (start r)) m) as [en1|] eqn:E1; cbn [mbind option_bind].
  - assert (match group m MILLI_SECOND_GROUP with
            | Some g => Js.parseInt (Js.substring_to 3 g) >=? 1000 | None => false end = false) as ->.
    { destruct (group m MILLI_SECOND_GROUP) as [g|]; [|reflexivity].
      pose proof (millisecond_reading_bound g). rewrite Z.geb_leb. apply Z.leb_gt. lia. }
    assert (match group m SECOND_GROUP with
            | Some g => Js.parseInt g >=? 60 | None => false end = false) as ->.
    { apply end_second_stage_Some in E1 as (_ & Hs & _).
      destruct (group m SECOND_GROUP) as [g|]; [|reflexivity].
      destruct Hs as (_ & _ & Hs). rewrite Z.geb_leb. apply Z.leb_gt. lia. }
    rewrite !orb_false_r.
    destruct ((minute >=? 60) || (hour >? 24)) eqn:E2; [tauto|]. simpl.
    destruct (group m AM_PM_HOUR_GROUP) as [tok|] eqn:Et.
    + rewrite (end_ampm_stage_token _ tok) by assumption.
      rewrite bool_decide_eq_true_2 by eauto. simpl.
      destruct (hour >? 12); simpl; [tauto|]. split; discriminate.
    + rewrite end_ampm_stage_no_token by assumption. simpl.
      split; discriminate.
  - split; [intros _|reflexivity].
    apply end_second_stage_None in E1.
    destruct (group m SECOND_GROUP) as [g|]; [|contradiction].
    assert ((Js.parseInt g >=? 60) = true) as -> by (rewrite Z.geb_leb; apply Z.leb_le; lia).
    apply orb_true_r.
Qed.

(** A successful range decode, as the composition of its stages. *)
Lemma extractEnd_inv r m r' :
  extractEndTimeComponent r m = Some r' ->
  let hour := fst (decodeHourMinute m) in
  let minute := snd (decodeHourMinute m) in
  exists en1 hour' meridiem' st' en2,
    end_second_stage (start r) m = Some en1
    /\ minute < 60 /\ hour <= 24
    /\ end_ampm_stage m hour (if hour >=? 12 then Meridiem.PM else -1) (start r) en1
       = Some (hour', meridiem', st', en2)
    /\ r' = {| res_index := res_index r;
               res_text := res_text r ++ group_str m 0;
               start := st';
               end_ := Some (end_rollover_stage st'
                               (end_meridiem_stage hour' minute meridiem' st' en2)) |}.
Proof.
  rewrite extractEnd_stages. unfold clone.
  destruct (decodeHourMinute m) as [hour minute]. cbn [fst snd].
  destruct (end_second_stage (start r) m) as [en1|]; [|discriminate].
  cbn [mbind option_bind].
  destruct ((minute >=? 60) || (hour >? 24)) eqn:E; [discriminate|].
  destruct (end_ampm_stage _ _ _ _ _) as [[[[hour' meridiem'] st'] en2]|] eqn:Ea;
    [|discriminate].
  cbn [mbind option_bind]. intros [= <-].
  exists en1, hour', meridiem', st', en2. tests_to_facts.
  repeat split; try lia; try reflexivity. exact Ea.
Qed.

(** The rejections, spelled out: a minute of 60 or more, an hour above 24,
    an AM/PM token on an hour above 12, or seconds of 60 or more.  (The test
    on the milliseconds never rejects, three digits being below 1000.) *)
Lemma primary_rejected_spec m :
  primary_rejected m = true <->
  snd (decodeHourMinute m) >= 60
  \/ fst (decodeHourMinute m) > 24
  \/ (is_Some (group m AM_PM_HOUR_GROUP) /\ fst (decodeHourMinute m) > 12)
  \/ (exists g, group m SECOND_GROUP = Some g /\ Js.parseInt g >= 60).
Proof.
  unfold primary_rejected.
  destruct (decodeHourMinute m) as [hour minute]. cbn [fst snd].
  assert (match group m MILLI_SECOND_GROUP with
          | Some g => Js.parseInt (Js.substring_to 3 g) >=? 1000 | None => false end = false) as ->.
  { destruct (group m MILLI_SECOND_GROUP) as [g|]; [|reflexivity].
    pose proof (millisecond_reading_bound g). rewrite Z.geb_leb. apply Z.leb_gt. lia. }
  rewrite orb_false_r, !orb_true_iff, andb_true_iff, bool_decide_eq_true.
  rewrite !Z.geb_leb, !Z.gtb_ltb, Z.leb_le, !Z.ltb_lt.
  destruct (group m SECOND_GROUP) as [s|].
  - rewrite Z.geb_leb, Z.leb_le. split.
    + intros [[[H|H]|H]|H]; [lia|lia|right; right; left; split; [tauto|lia]|].
      right; right; right. exists s. split; [reflexivity|lia].
    + intros [H|[H|[[H1 H2]|(g & [= <-] & H)]]]; [left; left; left; lia|left; left; right; lia| |right; lia].
      left; right. split; [assumption|lia].
  - split.
    + intros [[[H|H]|H]|H]; [lia|lia|right; right; left; split; [tauto|lia]|discriminate].
    + intros [H|[H|[[H1 H2]|(g & [=] & H)]]]; [left; left; left; lia|left; left; right; lia|].
      left; right. split; [assumption|lia].
Qed.

(** ** The primary decoder *)

(** C9: the two full decode routines agree.  Run on a result whose start is
    a components value fresh from the factory, [extractStartTimeComponent]
    fails exactly when [extractPrimaryTimeComponents] fails, and otherwise
    leaves in the start the very components that the latter returns: the
    same values and the same certain/implied tags for hour, minute, second,
    millisecond and meridiem. *)
Theorem decode_routines_agree (context : ParsingContext) (r : ParsingResult)
    (m : RegExpMatchArray) :
  extractStartTimeComponent (with_start r (createParsingComponents context)) m
  = with_start r <$> extractPrimaryTimeComponents context m.
Proof.
  unfold extractStartTimeComponent, extractPrimaryTimeComponents, with_start.
  cbn [start res_index res_text end_].
  name_decode m hour minute. clear Ehm.
  destruct ((minute >=? 60) || (hour >? 24)); [reflexivity|].
  destruct (match group m AM_PM_HOUR_GROUP with Some _ => _ | None => _ end)
    as [[hour' meridiem]|]; [|reflexivity].
  cbn [mbind option_bind].
  destruct (group m MILLI_SECOND_GROUP) as [ms|]; cbn [mbind option_bind];
    try (destruct (_ >=? 1000); [reflexivity|]; cbn [mbind option_bind]);
    destruct (group m SECOND_GROUP) as [s|];
    try (destruct (Js.parseInt s >=? 60)); reflexivity.
Qed.

(** C1 (as amended): a successful primary decode of a match without AM/PM
    token, run with a factory that leaves the meridiem uncertain, tags the
    meridiem IMPLIED with value AM when the decoded hour is below 12; when
    the decoded hour is 12 or more the meridiem is PM and tagged CERTAIN. *)
Theorem meridiem_without_token (context : ParsingContext) (m : RegExpMatchArray)
    (c : ParsingComponents) :
  isCertain (createParsingComponents context) "meridiem" = false ->
  group m AM_PM_HOUR_GROUP = None ->
  extractPrimaryTimeComponents context m = Some c ->
  exists hour,
    get c "hour" = Some hour
    /\ (hour < 12 -> get c "meridiem" = Some Meridiem.AM /\ isCertain c "meridiem" = false)
    /\ (12 <= hour -> get c "meridiem" = Some Meridiem.PM /\ isCertain c "meridiem" = true).
Proof.
  intros Hfresh Htok Hc.
  apply extractPrimary_fields in Hc as (_ & _ & _ & _ & _ & Hc).
  rewrite Htok in Hc. destruct Hc as (Hh & Hpm & Ham).
  exists (fst (decodeHourMinute m)). split; [exact Hh|]. split; [|exact Hpm].
  intros Hlt. destruct (Ham Hlt) as [Hv Ht]. rewrite Hfresh in Hv, Ht. split; assumption.
Qed.

Lemma meridiem_without_token_witness :
  exists c hour,
    extractPrimaryTimeComponents (dated_context "10") m_10 = Some c
    /\ get c "hour" = Some hour
    /\ (hour < 12 -> get c "meridiem" = Some Meridiem.AM /\ isCertain c "meridiem" = false)
    /\ (12 <= hour -> get c "meridiem" = Some Meridiem.PM /\ isCertain c "meridiem" = true).
Proof.
  eexists.
  destruct (meridiem_without_token (dated_context "10") m_10 _ eq_refl eq_refl eq_refl)
    as [hour H].
  exists hour. split; [reflexivity | exact H].
Defined.

(** C1 as stated fails on "15:30": no AM/PM token, yet the meridiem of the
    returned components is CERTAIN. *)
Lemma meridiem_without_token_counterexample :
  ~ (forall c,
       group m_15_30 AM_PM_HOUR_GROUP = None ->
       extractPrimaryTimeComponents (dated_context "15:30") m_15_30 = Some c ->
       isCertain c "meridiem" = false
       /\ get c "meridiem"
          = Some (if fst (decodeHourMinute m_15_30) <? 12 then Meridiem.AM else Meridiem.PM)).
Proof.
  intros H. destruct (H _ eq_refl eq_refl) as [Htag _].
  vm_compute in Htag. discriminate.
Qed.

(** C6: the hour and minute step.  The hour is the reading of digit group 1
    and the minute that of digit group 2; without group 2 and with an hour
    above 100 the packed split applies; the primary decode then fails
    whenever the minute is 60 or more or the hour above 24, whatever the
    other groups hold, and a successful decode stores this minute, and this
    hour when there is no AM/PM token. *)
Theorem hour_minute_decode (context : ParsingContext) (m : RegExpMatchArray) :
  let raw := Js.parseInt (group_str m HOUR_GROUP) in
  let hour := fst (decodeHourMinute m) in
  let minute := snd (decodeHourMinute m) in
  (forall g, group m MINUTE_GROUP = Some g -> hour = raw /\ minute = Js.parseInt g)
  /\ (group m MINUTE_GROUP = None -> raw > 100 -> hour = raw / 100 /\ minute = raw mod 100)
  /\ (group m MINUTE_GROUP = None -> raw <= 100 -> hour = raw /\ minute = 0)
  /\ (minute >= 60 \/ hour > 24 -> extractPrimaryTimeComponents context m = None)
  /\ (forall g, group m MINUTE_GROUP = Some g -> Js.parseInt g = 60 ->
      extractPrimaryTimeComponents context m = None)
  /\ (raw = 25 -> extractPrimaryTimeComponents context m = None)
  /\ (forall c, extractPrimaryTimeComponents context m = Some c ->
      get c "minute" = Some minute
      /\ (group m AM_PM_HOUR_GROUP = None -> get c "hour" = Some hour)).
Proof.
  cbv zeta.
  assert (Hfail : snd (decodeHourMinute m) >= 60 \/ fst (decodeHourMinute m) > 24 ->
                  extractPrimaryTimeComponents context m = None).
  { intros H. apply extractPrimary_None_iff, primary_rejected_spec. tauto. }
  assert (Hstore : forall c, extractPrimaryTimeComponents context m = Some c ->
            get c "minute" = Some (snd (decodeHourMinute m))
            /\ (group m AM_PM_HOUR_GROUP = None ->
                get c "hour" = Some (fst (decodeHourMinute m)))).
  { intros c H. apply extractPrimary_fields in H as (_ & _ & Hm & _ & _ & Hh).
    split; [exact Hm|]. intros Htok. rewrite Htok in Hh. apply Hh. }
  pose proof (parseInt_nonneg (group_str m HOUR_GROUP)) as Hraw.
  assert (Hgiven : forall g, group m MINUTE_GROUP = Some g ->
            fst (decodeHourMinute m) = Js.parseInt (group_str m HOUR_GROUP)
            /\ snd (decodeHourMinute m) = Js.parseInt g).
  { intros g Hg. unfold decodeHourMinute. rewrite Hg. split; reflexivity. }
  assert (Hpacked : group m MINUTE_GROUP = None ->
            Js.parseInt (group_str m HOUR_GROUP) > 100 ->
            fst (decodeHourMinute m) = Js.parseInt (group_str m HOUR_GROUP) / 100
            /\ snd (decodeHourMinute m) = Js.parseInt (group_str m HOUR_GROUP) mod 100).
  { intros Hg Hgt. unfold decodeHourMinute. rewrite Hg.
    destruct (_ >? 100) eqn:E; [|tests_to_facts; lia]. cbn [fst snd].
    rewrite Z.rem_mod_nonneg by lia. split; reflexivity. }
  assert (Hplain : group m MINUTE_GROUP = None ->
            Js.parseInt (group_str m HOUR_GROUP) <= 100 ->
            fst (decodeHourMinute m) = Js.parseInt (group_str m HOUR_GROUP)
            /\ snd (decodeHourMinute m) = 0).
  { intros Hg Hle. unfold decodeHourMinute. rewrite Hg.
    destruct (_ >? 100) eqn:E; [tests_to_facts; lia|]. split; reflexivity. }
  split; [exact Hgiven|]. split; [exact Hpacked|]. split; [exact Hplain|].
  split; [exact Hfail|]. split; [|split; [|exact Hstore]].
  - intros g Hg H60. apply Hfail. left. destruct (Hgiven g Hg) as [_ ->]. lia.
  - intros H25. apply Hfail. right.
    destruct (group m MINUTE_GROUP) as [g|] eqn:Hg.
    + destruct (Hgiven g eq_refl) as [-> _]. lia.
    + destruct (Hplain eq_refl ltac:(lia)) as [-> _]. lia.
Qed.

Lemma hour_minute_decode_witness :
  exists c,
    extractPrimaryTimeComponents (dated_context "1530") m_1530 = Some c
    /\ get c "hour" = Some 15 /\ get c "minute" = Some 30.
Proof.
  eexists. split; [reflexivity|].
  destruct (hour_minute_decode (dated_context "1530") m_1530)
    as (_ & _ & _ & _ & _ & _ & H).
  destruct (H _ eq_refl) as [Hm Hh]. split; [exact (Hh eq_refl) | exact Hm].
Defined.

(** C7: the AM/PM token of the primary match.  The decode fails when the
    hour is above 12; otherwise a token starting with "a" gives AM with hour
    12 read as 0, a token starting with "p" gives PM with 12 added to every
    hour but 12, and the meridiem is tagged CERTAIN.  The decode does
    succeed when the hour is at most 12 and minute and seconds are below
    60. *)
Theorem ampm_token_decode (context : ParsingContext) (m : RegExpMatchArray) (tok : string) :
  group m AM_PM_HOUR_GROUP = Some tok ->
  let hour := fst (decodeHourMinute m) in
  let minute := snd (decodeHourMinute m) in
  (hour > 12 -> extractPrimaryTimeComponents context m = None)
  /\ (hour <= 12 -> minute < 60 ->
      (forall g, group m SECOND_GROUP = Some g -> Js.parseInt g < 60) ->
      is_Some (extractPrimaryTimeComponents context m))
  /\ (forall c, extractPrimaryTimeComponents context m = Some c ->
      (ampm_is tok "a" = true ->
         get c "meridiem" = Some Meridiem.AM /\ isCertain c "meridiem" = true
         /\ get c "hour" = Some (if hour =? 12 then 0 else hour))
      /\ (ampm_is tok "p" = true ->
         get c "meridiem" = Some Meridiem.PM /\ isCertain c "meridiem" = true
         /\ get c "hour" = Some (if hour =? 12 then 12 else hour + 12))).
Proof.
  intros Htok. cbv zeta. split; [|split].
  - intros Hgt. apply extractPrimary_None_iff, primary_rejected_spec.
    right; right; left. rewrite Htok. eauto.
  - intros Hle Hmin Hsec.
    destruct (extractPrimaryTimeComponents context m) as [c|] eqn:E; [eauto|].
    apply extractPrimary_None_iff, primary_rejected_spec in E.
    destruct E as [E|[E|[[_ E]|(g & Hg & E)]]]; try lia.
    specialize (Hsec g Hg). lia.
  - intros c H.
    apply extractPrimary_fields in H as (_ & _ & _ & _ & _ & H).
    rewrite Htok in H. destruct H as (_ & Ha & Hp & _). split.
    + intros Hisa. destruct (Ha Hisa) as (Hh & Hm & Hc). auto.
    + intros Hisp. destruct (Hp Hisp) as (Hh & Hm & Hc).
      split; [exact Hm|]. split; [exact Hc|]. rewrite Hh.
      destruct (_ =? 12) eqn:E; [|reflexivity]. apply Z.eqb_eq in E. rewrite E. reflexivity.
Qed.

Lemma ampm_token_decode_witness :
  exists c,
    extractPrimaryTimeComponents (dated_context "12am") m_12am = Some c
    /\ get c "meridiem" = Some Meridiem.AM /\ isCertain c "meridiem" = true
    /\ get c "hour" = Some 0.
Proof.
  eexists. split; [reflexivity|].
  destruct (ampm_token_decode (dated_context "12am") m_12am "am" eq_refl)
    as (_ & _ & H).
  destruct (H _ eq_refl) as [Ha _]. exact (Ha eq_refl).
Defined.

(** "13pm" fails, and "12pm" is noon. *)
Example thirteen_pm_fails :
  extractPrimaryTimeComponents (dated_context "13pm") m_13pm = None.
Proof. reflexivity. Qed.

Example twelve_pm_is_noon :
  exists c,
    extractPrimaryTimeComponents (dated_context "12pm") m_12pm = Some c
    /\ get c "hour" = Some 12 /\ get c "meridiem" = Some Meridiem.PM
    /\ isCertain c "meridiem" = true.
Proof. eexists. repeat split; reflexivity. Qed.

(** C5: a malformed or timezone-like range end never costs the start.  When
    the following match is a timezone-offset look-alike, or one of the
    validations of the range decoder rejects it, [extract] returns the
    start-only result: the span of the primary match, the start components
    exactly as the primary decode produced them, and no end. *)
Theorem malformed_range_keeps_start (parser : TimeExpressionParser)
    (context : ParsingContext) (m m' : RegExpMatchArray) (c : ParsingComponents) :
  extractPrimaryTimeComponents context m = Some c ->
  followingExec parser (remainingText context m) = Some m' ->
  looks_like_timezone_offset (group_str m' 0) = true \/ range_end_rejected m' = true ->
  snd (extract parser context m) = Some (start_only context m c)
  /\ start (start_only context m c) = c
  /\ end_ (start_only context m c) = None.
Proof.
  intros Hc Hm' Hbad. split; [|split; reflexivity].
  unfold extract. rewrite Hc.
  fold (remainingText context m). rewrite Hm'.
  destruct (looks_like_timezone_offset (group_str m' 0)) eqn:Htz; [reflexivity|].
  destruct Hbad as [Hbad|Hbad]; [discriminate|].
  apply (extractEnd_None_iff (clone_result (start_only context m c))) in Hbad.
  unfold start_only, with_start, createParsingResult in Hbad. cbn in Hbad.
  cbn [res_index res_text end_ createParsingResult].
  rewrite Hbad. reflexivity.
Qed.

Lemma malformed_range_keeps_start_witness :
  exists r,
    snd (extract (range_with f_0500) (dated_context "14:30-0500") m_14_30) = Some r
    /\ get (start r) "hour" = Some 14 /\ get (start r) "minute" = Some 30
    /\ end_ r = None.
Proof.
  destruct (malformed_range_keeps_start (range_with f_0500)
              (dated_context "14:30-0500") m_14_30 f_0500 _ eq_refl eq_refl
              (or_introl eq_refl)) as (H & _ & He).
  eexists. split; [exact H|]. split; [reflexivity|]. split; [reflexivity|exact He].
Defined.

(** A range end with 75 minutes is dropped as well. *)
Example bad_minutes_keep_start :
  exists r,
    snd (extract (range_with f_11_75) (dated_context "14:30-11:75") m_14_30) = Some r
    /\ get (start r) "hour" = Some 14 /\ end_ r = None.
Proof. eexists. repeat split; reflexivity. Qed.

(** The calendar fields of the returned start are the ones the factory
    put there; neither decoder writes them. *)
Lemma extract_start_date_frame parser context m r k :
  snd (extract parser context m) = Some r ->
  k = "day" \/ k = "month" \/ k = "year" ->
  same_field k (start r) (createParsingComponents context).
Proof.
  intros Hr Hk. unfold extract in Hr.
  destruct (extractPrimaryTimeComponents context m) as [c|] eqn:Hc; [|discriminate].
  apply extractPrimary_seconds in Hc as (_ & _ & Hframe).
  assert (Hck : same_field k c (createParsingComponents context)).
  { apply Hframe; destruct Hk as [-> | [-> | ->]]; discriminate. }
  destruct (followingExec parser _) as [m'|]; [|injection Hr as Hr; subst r; exact Hck].
  destruct (looks_like_timezone_offset _); [injection Hr as Hr; subst r; exact Hck|].
  destruct (extractEndTimeComponent _ m') as [r'|] eqn:He;
    [|injection Hr as Hr; subst r; exact Hck].
  injection Hr as Hr; subst r.
  apply extractEnd_inv in He as (en1 & hour' & mer' & st' & en2 & _ & _ & _ & Ha & ->).
  cbn [start clone_result clone] in *.
  eapply same_field_trans; [|exact Hck].
  destruct (group m' AM_PM_HOUR_GROUP) as [tok|] eqn:Et.
  - rewrite (end_ampm_stage_token _ tok) in Ha by assumption.
    destruct (_ >? 12); [discriminate|]. injection Ha as _ _ Hst _; subst st'.
    apply start_after_end_token_frame; destruct Hk as [-> | [-> | ->]]; discriminate.
  - rewrite end_ampm_stage_no_token in Ha by assumption.
    injection Ha as _ _ Hst _; subst st'. apply same_field_refl.
Qed.

(** C8: the returned start carries the reference date.  With a factory that
    implies day, month and year from the reference instant, every result of
    [extract] has a start whose day, month and year are those of the
    reference date, each tagged IMPLIED, and so have the components that a
    successful primary decode returns.  The implication is in place when
    [extractPrimaryTimeComponents] takes its components from the factory
    (line 92), before it assigns hour and minute, and no later step of the
    primary decode or of the range reconciliation writes one of the three
    fields of the start ([extract_start_date_frame]).  The three [imply]
    calls of [extract] itself (lines 65-67) act on a start that line 69
    replaces by those components. *)
Theorem reference_date_implied (parser : TimeExpressionParser)
    (context : ParsingContext) (m : RegExpMatchArray) :
  implies_reference_date context ->
  let ref := refDate context in
  let dated (c : ParsingComponents) :=
    (get c "day" = Some (ref_date ref) /\ isCertain c "day" = false)
    /\ (get c "month" = Some (ref_month ref + 1) /\ isCertain c "month" = false)
    /\ (get c "year" = Some (ref_year ref) /\ isCertain c "year" = false) in
  (forall c, extractPrimaryTimeComponents context m = Some c -> dated c)
  /\ (forall r, snd (extract parser context m) = Some r -> dated (start r)).
Proof.
  intros Hfresh. cbv zeta.
  assert (forall c : ParsingComponents,
            (forall k, k = "day" \/ k = "month" \/ k = "year" ->
                       same_field k c (createParsingComponents context)) ->
            (get c "day" = Some (ref_date (refDate context))
             /\ isCertain c "day" = false)
            /\ (get c "month" = Some (ref_month (refDate context) + 1)
                /\ isCertain c "month" = false)
            /\ (get c "year" = Some (ref_year (refDate context))
                /\ isCertain c "year" = false)) as Hcarry.
  { intros c Hsame.
    destruct Hfresh as ((Hd & Hdc) & (Hm & Hmc) & (Hy & Hyc)).
    pose proof (Hsame "day" (or_introl eq_refl)) as Fd.
    pose proof (Hsame "month" (or_intror (or_introl eq_refl))) as Fm.
    pose proof (Hsame "year" (or_intror (or_intror eq_refl))) as Fy.
    rewrite (same_field_get _ _ _ Fd), (same_field_isCertain _ _ _ Fd).
    rewrite (same_field_get _ _ _ Fm), (same_field_isCertain _ _ _ Fm).
    rewrite (same_field_get _ _ _ Fy), (same_field_isCertain _ _ _ Fy).
    split; [split; assumption|]. split; split; assumption. }
  split.
  - intros c Hc. apply Hcarry. intros k Hk.
    apply extractPrimary_seconds in Hc as (_ & _ & Hframe).
    apply Hframe; destruct Hk as [-> | [-> | ->]]; discriminate.
  - intros r Hr. apply Hcarry. intros k Hk.
    exact (extract_start_date_frame parser context m r k Hr Hk).
Qed.

Lemma reference_date_implied_witness :
  exists r,
    snd (extract (range_with f_11pm) (dated_context "10-11pm") m_10) = Some r
    /\ ref_date july_10 = 10 /\ ref_month july_10 = 6 /\ ref_year july_10 = 2020
    /\ (get (start r) "day" = Some 10 /\ isCertain (start r) "day" = false)
    /\ (get (start r) "month" = Some 7 /\ isCertain (start r) "month" = false)
    /\ (get (start r) "year" = Some 2020 /\ isCertain (start r) "year" = false)
    /\ get (start r) "hour" = Some 22.
Proof.
  assert (implies_reference_date (dated_context "10-11pm")) as Hfresh.
  { unfold implies_reference_date. cbv zeta.
    split; [split; reflexivity|]. split; split; reflexivity. }
  destruct (reference_date_implied (range_with f_11pm) (dated_context "10-11pm") m_10
              Hfresh) as [_ Hr].
  eexists. split; [reflexivity|].
  split; [reflexivity|]. split; [reflexivity|]. split; [reflexivity|].
  destruct (Hr _ eq_refl) as (Hd & Hm & Hy).
  split; [exact Hd|]. split; [exact Hm|]. split; [exact Hy|]. reflexivity.
Defined.

(** ** Ranges of the time fields *)

Lemma seconds_in_range_same a b :
  same_field "second" a b -> same_field "millisecond" a b ->
  seconds_in_range b -> seconds_in_range a.
Proof.
  intros Hs Hms [H1 H2]. split; intros v Hv.
  - apply H1. rewrite <- (same_field_get _ _ _ Hs). exact Hv.
  - apply H2. rewrite <- (same_field_get _ _ _ Hms). exact Hv.
Qed.

Lemma primary_in_range context m c :
  seconds_in_range (createParsingComponents context) ->
  extractPrimaryTimeComponents context m = Some c ->
  time_fields_in_range c
  /\ (isCertain c "meridiem" = false -> exists h, get c "hour" = Some h /\ 0 <= h < 12).
Proof.
  intros [Hfs Hfms] Hc.
  pose proof (extractPrimary_fields _ _ _ Hc) as (Hmin & Hh24 & Hm & _ & _ & Hhour).
  pose proof (extractPrimary_seconds _ _ _ Hc) as (Hs & Hms & _).
  cbv zeta in *.
  pose proof (decodeHourMinute_nonneg m) as [Hh0 Hm0].
  assert (Hsec : seconds_in_range c).
  { split; intros v Hv.
    - destruct (group m SECOND_GROUP) as [g|].
      + destruct Hs as (Hg & _ & Hlt). pose proof (parseInt_nonneg g).
        rewrite Hg in Hv. apply (inj Some) in Hv. lia.
      + apply Hfs. rewrite <- (same_field_get _ _ _ Hs). exact Hv.
    - destruct (group m MILLI_SECOND_GROUP) as [g|].
      + destruct Hms as (Hg & _). pose proof (parseInt_nonneg (Js.substring_to 3 g)).
        pose proof (millisecond_reading_bound g).
        rewrite Hg in Hv. apply (inj Some) in Hv. lia.
      + apply Hfms. rewrite <- (same_field_get _ _ _ Hms). exact Hv. }
  assert (Hminute : exists mi, get c "minute" = Some mi /\ 0 <= mi <= 59)
    by (eexists; split; [exact Hm|lia]).
  destruct (group m AM_PM_HOUR_GROUP) as [tok|].
  - destruct Hhour as (Hle & Ha & Hp & Hn).
    destruct (ampm_is tok "a") eqn:Ea; [|destruct (ampm_is tok "p") eqn:Ep].
    + destruct (Ha eq_refl) as (Hh & _ & Hcert). split.
      * split; [|split; assumption]. eexists; split; [exact Hh|].
        destruct (_ =? 12); lia.
      * intros Hu. congruence.
    + destruct (Hp eq_refl) as (Hh & _ & Hcert). split.
      * split; [|split; assumption]. eexists; split; [exact Hh|].
        destruct (_ =? 12); lia.
      * intros Hu. congruence.
    + destruct (Hn eq_refl eq_refl) as (Hh & Hcert). split.
      * split; [|split; assumption]. eexists; split; [exact Hh|lia].
      * intros Hu. eexists; split; [exact Hh|].
        destruct (Z_lt_le_dec (fst (decodeHourMinute m)) 12); [lia|].
        rewrite Hcert in Hu by assumption. discriminate.
  - destruct Hhour as (Hh & Hpm & _). split.
    + split; [|split; assumption]. eexists; split; [exact Hh|lia].
    + intros Hu. eexists; split; [exact Hh|].
      destruct (Z_lt_le_dec (fst (decodeHourMinute m)) 12); [lia|].
      destruct (Hpm ltac:(assumption)) as [_ Hcert]. congruence.
Qed.

Lemma start_after_end_token_in_range meridiem st :
  time_fields_in_range st ->
  (isCertain st "meridiem" = false -> exists h, get st "hour" = Some h /\ 0 <= h < 12) ->
  time_fields_in_range (start_after_end_token meridiem st).
Proof.
  intros (Hh & Hm & Hs) Hu.
  split; [|split].
  - unfold start_after_end_token.
    destruct (isCertain st "meridiem") eqn:Ec; [exact Hh|]. cbn [negb].
    destruct (Hu eq_refl) as (h & Hget & Hlt).
    destruct (meridiem =? Meridiem.AM); cbv zeta;
      rewrite get_imply, decide_False, Hget by discriminate; unfold Js.loose_eq.
    + destruct (h =? 12) eqn:E; [tests_to_facts; lia|].
      exists h. rewrite get_imply, decide_False by discriminate. split; [assumption|lia].
    + destruct (h =? 12) eqn:E; [tests_to_facts; lia|]. cbn [negb].
      exists (h + 12). rewrite get_assign, decide_True by reflexivity.
      unfold Js.num. simpl. split; [reflexivity|lia].
  - destruct Hm as (mi & Hget & Hr). exists mi. split; [|exact Hr].
    rewrite (same_field_get "minute" _ st); [exact Hget|].
    apply start_after_end_token_frame; discriminate.
  - eapply seconds_in_range_same; [| |exact Hs];
      apply start_after_end_token_frame; discriminate.
Qed.

(** The fields of the end of a successful range decode. *)
Lemma extractEnd_in_range r m r' :
  time_fields_in_range (start r) ->
  (isCertain (start r) "meridiem" = false ->
   exists h, get (start r) "hour" = Some h /\ 0 <= h < 12) ->
  extractEndTimeComponent r m = Some r' ->
  time_fields_in_range (start r')
  /\ forall e, end_ r' = Some e -> time_fields_in_range e.
Proof.
  intros Hst Hu He.
  apply extractEnd_inv in He as (en1 & hour' & mer' & st' & en2 & H1 & Hmin & Hh24 & Ha & ->).
  cbv zeta in *. cbn [start end_].
  pose proof (decodeHourMinute_nonneg m) as [Hh0 Hm0].
  apply end_second_stage_Some in H1 as (_ & Hs & Hms).
  assert (Hen1 : seconds_in_range en1).
  { destruct Hst as (_ & _ & [Hfs Hfms]). split; intros v Hv.
    - destruct (group m SECOND_GROUP) as [g|].
      + destruct Hs as (Hg & _ & Hlt). pose proof (parseInt_nonneg g).
        rewrite Hg in Hv. apply (inj Some) in Hv. lia.
      + apply Hfs. rewrite <- (same_field_get _ _ _ Hs). exact Hv.
    - destruct (group m MILLI_SECOND_GROUP) as [g|].
      + destruct Hms as (Hg & _). pose proof (parseInt_nonneg (Js.substring_to 3 g)).
        pose proof (millisecond_reading_bound g).
        rewrite Hg in Hv. apply (inj Some) in Hv. lia.
      + apply Hfms. rewrite <- (same_field_get _ _ _ Hms). exact Hv. }
  assert (Hstage : time_fields_in_range st' /\ 0 <= hour' <= 24
                   /\ same_field "second" en2 en1 /\ same_field "millisecond" en2 en1).
  { destruct (group m AM_PM_HOUR_GROUP) as [tok|] eqn:Et.
    - rewrite (end_ampm_stage_token _ tok) in Ha by assumption.
      destruct (_ >? 12) eqn:E12; [discriminate|]. cbv zeta in Ha.
      injection Ha as Hh' _ Hst' Hen2. subst st' en2 hour'. tests_to_facts.
      split; [apply start_after_end_token_in_range; assumption|].
      split.
      + repeat match goal with
               | |- context [if ?b then _ else _] => destruct b
               end; lia.
      + split; destruct (_ && negb _); frame_fields.
    - rewrite end_ampm_stage_no_token in Ha by assumption.
      injection Ha as <- _ <- <-. split; [assumption|].
      split; [lia|]. split; apply same_field_refl. }
  destruct Hstage as (Hst' & Hh' & Hs2 & Hms2).
  split; [exact Hst'|]. intros e [= <-].
  pose proof (end_meridiem_stage_hour_minute hour' (snd (decodeHourMinute m)) mer' st' en2)
    as (Hgh & _ & Hgm & _).
  cbv zeta in *.
  split; [|split].
  - exists hour'. split; [|lia].
    erewrite same_field_get by (apply end_rollover_stage_frame; discriminate).
    exact Hgh.
  - exists (snd (decodeHourMinute m)). split; [|lia].
    erewrite same_field_get by (apply end_rollover_stage_frame; discriminate).
    exact Hgm.
  - eapply seconds_in_range_same; [| |exact Hen1].
    + eapply same_field_trans; [apply end_rollover_stage_frame; discriminate|].
      eapply same_field_trans; [apply end_meridiem_stage_frame; discriminate|]. exact Hs2.
    + eapply same_field_trans; [apply end_rollover_stage_frame; discriminate|].
      eapply same_field_trans; [apply end_meridiem_stage_frame; discriminate|]. exact Hms2.
Qed.

(** C2 (as amended): every components value attached to a returned result,
    the start and the end after range reconciliation, has an hour in
    [0,24] (the decoders reject an hour only above 24, so "24:00" is kept),
    a minute in [0,59], and seconds and milliseconds in [0,59] and
    [0,999], given that the values the factory may start them from are in
    these ranges. *)
Theorem returned_fields_in_range (parser : TimeExpressionParser)
    (context : ParsingContext) (m : RegExpMatchArray) (r : ParsingResult) :
  seconds_in_range (createParsingComponents context) ->
  snd (extract parser context m) = Some r ->
  time_fields_in_range (start r)
  /\ forall e, end_ r = Some e -> time_fields_in_range e.
Proof.
  intros Hfresh Hr. unfold extract in Hr.
  destruct (extractPrimaryTimeComponents context m) as [c|] eqn:Hc; [|discriminate].
  destruct (primary_in_range _ _ _ Hfresh Hc) as [Hrange Hu].
  assert (Hstart_only :
            forall r0, start r0 = c -> end_ r0 = None ->
              time_fields_in_range (start r0)
              /\ forall e, end_ r0 = Some e -> time_fields_in_range e).
  { intros r0 -> ->. split; [exact Hrange|discriminate]. }
  destruct (followingExec parser _) as [m'|];
    [|injection Hr as Hr; subst r; apply Hstart_only; reflexivity].
  destruct (looks_like_timezone_offset _);
    [injection Hr as Hr; subst r; apply Hstart_only; reflexivity|].
  destruct (extractEndTimeComponent _ m') as [r'|] eqn:He;
    [|injection Hr as Hr; subst r; apply Hstart_only; reflexivity].
  injection Hr as Hr; subst r.
  eapply extractEnd_in_range; [| |exact He]; assumption.
Qed.

Lemma returned_fields_in_range_witness :
  exists r e,
    snd (extract (range_with f_11pm) (dated_context "10-11pm") m_10) = Some r
    /\ end_ r = Some e
    /\ time_fields_in_range (start r) /\ time_fields_in_range e.
Proof.
  assert (Hfresh : seconds_in_range (createParsingComponents (dated_context "10-11pm"))).
  { split; intros v Hv; vm_compute in Hv; injection Hv as <-; lia. }
  destruct (returned_fields_in_range (range_with f_11pm) (dated_context "10-11pm") m_10 _
              Hfresh eq_refl) as [Hs He].
  eexists. eexists. split; [reflexivity|]. split; [reflexivity|].
  split; [exact Hs | exact (He _ eq_refl)].
Defined.

(** C2 as stated fails on "24:00": the hour of the returned start is 24. *)
Lemma returned_fields_in_range_counterexample :
  ~ (forall r h,
       snd (extract no_range (dated_context "24:00") m_24_00) = Some r ->
       get (start r) "hour" = Some h -> 0 <= h <= 23).
Proof.
  intros H. specialize (H _ 24 eq_refl eq_refl). lia.
Qed.

(** ** Range reconciliation *)

Lemma start_after_end_token_uncertain meridiem st :
  isCertain st "meridiem" = false ->
  let st' := start_after_end_token meridiem st in
  isCertain st' "meridiem" = false
  /\ get st' "meridiem" = Some (if meridiem =? Meridiem.AM then Meridiem.AM else Meridiem.PM)
  /\ get st' "hour" =
     if meridiem =? Meridiem.AM
     then (if Js.loose_eq (get st "hour") 12 then Some 0 else get st "hour")
     else (if Js.loose_eq (get st "hour") 12 then get st "hour"
           else Some (Js.num (get st "hour") + 12)).
Proof.
  intros Hu. unfold start_after_end_token. rewrite Hu. cbn [negb]. cbv zeta.
  destruct (meridiem =? Meridiem.AM);
    rewrite !get_imply, decide_False by discriminate;
    destruct (Js.loose_eq (get st "hour") 12); cbn [negb];
    repeat split; read_fields.
Qed.

(** C3 (as amended): range meridiem reconciliation.  When the end match has
    an AM/PM token and the start's meridiem is only IMPLIED, the token goes
    back into the start: AM makes the start AM with hour 12 becoming 0, PM
    makes the start PM with every hour but 12 gaining 12.  When the end
    match has no token, the start is left alone and the end's meridiem is PM,
    tagged CERTAIN, if the decoded end hour is 12 or more; below 12 it is
    inferred (IMPLIED) as AM if the start's meridiem is CERTAIN-PM and
    start.hour > end.hour, and is otherwise the one copied from the start. *)
Theorem range_meridiem_reconciliation (r r' : ParsingResult) (m : RegExpMatchArray)
    (e : ParsingComponents) :
  extractEndTimeComponent r m = Some r' ->
  end_ r' = Some e ->
  let st := start r in
  let st' := start r' in
  let hour := fst (decodeHourMinute m) in
  (forall tok,
     group m AM_PM_HOUR_GROUP = Some tok -> isCertain st "meridiem" = false ->
     (ampm_is tok "a" = true ->
        get st' "meridiem" = Some Meridiem.AM /\ isCertain st' "meridiem" = false
        /\ get st' "hour" = (if Js.loose_eq (get st "hour") 12 then Some 0 else get st "hour")
        /\ get e "meridiem" = Some Meridiem.AM
        /\ get e "hour" = Some (if hour =? 12 then 0 else hour))
     /\ (ampm_is tok "p" = true ->
        get st' "meridiem" = Some Meridiem.PM /\ isCertain st' "meridiem" = false
        /\ get st' "hour" = (if Js.loose_eq (get st "hour") 12 then get st "hour"
                            else Some (Js.num (get st "hour") + 12))
        /\ get e "meridiem" = Some Meridiem.PM
        /\ get e "hour" = Some (if hour =? 12 then 12 else hour + 12)))
  /\ (group m AM_PM_HOUR_GROUP = None ->
      st' = st
      /\ get e "hour" = Some hour
      /\ (12 <= hour -> get e "meridiem" = Some Meridiem.PM /\ isCertain e "meridiem" = true)
      /\ (hour < 12 -> startAtPM st = true -> Js.num (get st "hour") > hour ->
          get e "meridiem" = Some Meridiem.AM /\ isCertain e "meridiem" = false)
      /\ (hour < 12 -> ~ (startAtPM st = true /\ Js.num (get st "hour") > hour) ->
          same_field "meridiem" e st)).
Proof.
  intros He Hend. cbv zeta.
  apply extractEnd_inv in He as (en1 & hour' & mer' & st' & en2 & H1 & Hmin & Hh24 & Ha & ->).
  cbv zeta in *. cbn [start end_] in *. injection Hend as <-.
  set (minute := snd (decodeHourMinute m)) in *.
  assert (Hroll : forall k en, k <> "day" ->
            get (end_rollover_stage st' en) k = get en k
            /\ isCertain (end_rollover_stage st' en) k = isCertain en k).
  { intros k en Hk. pose proof (end_rollover_stage_frame st' en k Hk) as Hf.
    split; [apply same_field_get | apply same_field_isCertain]; exact Hf. }
  pose proof (end_meridiem_stage_hour_minute hour' minute mer' st' en2) as (Hgh & _).
  pose proof (end_meridiem_stage_meridiem hour' minute mer' st' en2) as (Hm1 & Hm2 & Hm3).
  cbv zeta in *.
  split.
  - intros tok Htok Hu.
    rewrite (end_ampm_stage_token _ tok) in Ha by assumption.
    destruct (_ >? 12) eqn:E12; [discriminate|]. cbv zeta in Ha.
    injection Ha as Hh' Hmer Hst' _. subst st' hour' mer'.
    pose proof (ampm_a_not_p tok) as Hap.
    split; intros Htokc; rewrite ?Htokc, ?(Hap Htokc) in *;
      [|destruct (ampm_is tok "a") eqn:Ea; [specialize (Hap eq_refl); congruence|]].
    + destruct (start_after_end_token_uncertain Meridiem.AM _ Hu) as (Hc & Hg & Hh).
      destruct (Hroll "meridiem" (end_meridiem_stage
                  (if fst (decodeHourMinute m) =? 12 then 0 else fst (decodeHourMinute m))
                  minute Meridiem.AM (start_after_end_token Meridiem.AM (start r)) en2)
                  ltac:(discriminate)) as [-> _].
      destruct (Hroll "hour" (end_meridiem_stage
                  (if fst (decodeHourMinute m) =? 12 then 0 else fst (decodeHourMinute m))
                  minute Meridiem.AM (start_after_end_token Meridiem.AM (start r)) en2)
                  ltac:(discriminate)) as [-> _].
      repeat split; try assumption. apply Hm1. unfold Meridiem.AM. lia.
    + destruct (start_after_end_token_uncertain Meridiem.PM _ Hu) as (Hc & Hg & Hh).
      destruct (Hroll "meridiem" (end_meridiem_stage
                  (if fst (decodeHourMinute m) =? 12 then fst (decodeHourMinute m)
                   else fst (decodeHourMinute m) + 12)
                  minute Meridiem.PM (start_after_end_token Meridiem.PM (start r)) en2)
                  ltac:(discriminate)) as [-> _].
      destruct (Hroll "hour" (end_meridiem_stage
                  (if fst (decodeHourMinute m) =? 12 then fst (decodeHourMinute m)
                   else fst (decodeHourMinute m) + 12)
                  minute Meridiem.PM (start_after_end_token Meridiem.PM (start r)) en2)
                  ltac:(discriminate)) as [-> _].
      repeat split; try assumption.
      * apply Hm1. unfold Meridiem.PM. lia.
      * rewrite Hgh. destruct (_ =? 12) eqn:E; [|reflexivity].
        apply Z.eqb_eq in E. rewrite E. reflexivity.
  - intros Htok. rewrite end_ampm_stage_no_token in Ha by assumption.
    injection Ha as Hh' Hmer Hst' Hen2. subst st' hour' mer' en2.
    destruct (Hroll "meridiem" (end_meridiem_stage (fst (decodeHourMinute m)) minute
                (if fst (decodeHourMinute m) >=? 12 then Meridiem.PM else -1)
                (start r) en1) ltac:(discriminate)) as [Hrm Hrc].
    destruct (Hroll "hour" (end_meridiem_stage (fst (decodeHourMinute m)) minute
                (if fst (decodeHourMinute m) >=? 12 then Meridiem.PM else -1)
                (start r) en1) ltac:(discriminate)) as [Hrh _].
    split; [reflexivity|]. split; [rewrite Hrh; exact Hgh|].
    apply end_second_stage_Some in H1 as (Hframe & _).
    split; [|split].
    + intros Hge. rewrite Hrm, Hrc.
      destruct (_ >=? 12) eqn:E; [|tests_to_facts; lia].
      apply Hm1. unfold Meridiem.PM. lia.
    + intros Hlt Hpm Hgt. rewrite Hrm, Hrc.
      destruct (_ >=? 12) eqn:E; [tests_to_facts; lia|].
      apply Hm2; [lia|assumption|assumption].
    + intros Hlt Hno.
      destruct (_ >=? 12) eqn:E; [tests_to_facts; lia|].
      eapply same_field_trans; [apply end_rollover_stage_frame; discriminate|].
      eapply same_field_trans; [apply Hm3; [lia|lia|assumption]|].
      apply Hframe; discriminate.
Qed.

Lemma range_meridiem_reconciliation_witness :
  exists r0 r' e,
    start_result (dated_context "10-11pm") m_10 = Some r0
    /\ extractEndTimeComponent r0 f_11pm = Some r'
    /\ end_ r' = Some e
    /\ get (start r') "meridiem" = Some Meridiem.PM
    /\ isCertain (start r') "meridiem" = false
    /\ get (start r') "hour" = Some 22
    /\ get e "meridiem" = Some Meridiem.PM
    /\ get e "hour" = Some 23.
Proof.
  eexists. eexists. eexists.
  split; [reflexivity|]. split; [reflexivity|]. split; [reflexivity|].
  destruct (range_meridiem_reconciliation _ _ f_11pm _
              (eq_refl : extractEndTimeComponent
                           (start_only (dated_context "10-11pm") m_10
                              (default blank_components
                                 (extractPrimaryTimeComponents (dated_context "10-11pm") m_10)))
                           f_11pm = Some _)
              eq_refl) as [Htok _].
  destruct (Htok "pm" eq_refl eq_refl) as [_ Hp].
  exact (Hp eq_refl).
Defined.

(** C3 as stated fails on "10pm-12": the end has no token, the start is
    CERTAIN-PM with hour 22 above the end hour 12, yet the end's meridiem
    is PM, not AM. *)
Lemma range_meridiem_reconciliation_counterexample :
  ~ (forall r0 r' e,
       start_result (dated_context "10pm-12") m_10pm = Some r0 ->
       extractEndTimeComponent r0 f_12 = Some r' ->
       end_ r' = Some e ->
       group f_12 AM_PM_HOUR_GROUP = None ->
       startAtPM (start r') = true ->
       Js.num (get (start r') "hour") > Js.num (get e "hour") ->
       get e "meridiem" = Some Meridiem.AM).
Proof.
  intros H.
  specialize (H _ _ _ eq_refl eq_refl eq_refl eq_refl eq_refl eq_refl).
  vm_compute in H. discriminate.
Qed.

(** ** Rollover *)





(** ** What the end keeps of the start *)

(** C10 (as amended): the end starts as a copy of the start, and every field
    that the range decoder does not write keeps the start's value and
    certainty tag: all fields other than hour, minute, second, millisecond,
    meridiem and day; the second and the millisecond when the following
    match has no seconds, respectively no fractional, group; and the meridiem
    when the match has no AM/PM token, the decoded end hour is below 12 and
    the start is not a CERTAIN PM with an hour above the end's. *)
Theorem end_keeps_start_fields (r r' : ParsingResult) (m : RegExpMatchArray)
    (e : ParsingComponents) :
  extractEndTimeComponent r m = Some r' ->
  end_ r' = Some e ->
  let st := start r in
  let hour := fst (decodeHourMinute m) in
  (forall k, k <> "hour" -> k <> "minute" -> k <> "second" -> k <> "millisecond" ->
             k <> "meridiem" -> k <> "day" -> same_field k e st)
  /\ (group m SECOND_GROUP = None -> same_field "second" e st)
  /\ (group m MILLI_SECOND_GROUP = None -> same_field "millisecond" e st)
  /\ (group m AM_PM_HOUR_GROUP = None -> hour < 12 ->
      ~ (startAtPM st = true /\ Js.num (get st "hour") > hour) ->
      same_field "meridiem" e st).
Proof.
  intros He Hend. cbv zeta.
  assert (Hmer : group m AM_PM_HOUR_GROUP = None -> fst (decodeHourMinute m) < 12 ->
            ~ (startAtPM (start r) = true
               /\ Js.num (get (start r) "hour") > fst (decodeHourMinute m)) ->
            same_field "meridiem" e (start r)).
  { intros Htok Hlt Hno.
    pose proof He as He'.
    apply extractEnd_inv in He' as (en1 & hour' & mer' & st' & en2 & H1 & _ & _ & Ha & ->).
    cbn [end_] in Hend. apply (inj Some) in Hend. subst e.
    rewrite end_ampm_stage_no_token in Ha by assumption.
    injection Ha as <- <- <- <-.
    apply end_second_stage_Some in H1 as (Hframe & _).
    destruct (_ >=? 12) eqn:E; [tests_to_facts; lia|].
    eapply same_field_trans; [apply end_rollover_stage_frame; discriminate|].
    eapply same_field_trans;
      [apply end_meridiem_stage_meridiem; [lia|lia|assumption]|].
    apply Hframe; discriminate. }
  apply extractEnd_inv in He as (en1 & hour' & mer' & st' & en2 & H1 & _ & _ & Ha & ->).
  cbv zeta in *. cbn [start end_] in *. apply (inj Some) in Hend. subst e.
  apply end_second_stage_Some in H1 as (Hframe & Hs & Hms).
  assert (H2 : forall k, k <> "day" -> same_field k en2 en1).
  { intros k Hk. destruct (group m AM_PM_HOUR_GROUP) as [tok|] eqn:Et.
    - rewrite (end_ampm_stage_token _ tok) in Ha by assumption.
      destruct (_ >? 12); [discriminate|]. cbv zeta in Ha.
      injection Ha as _ _ _ <-. destruct (_ && negb _); frame_fields.
    - rewrite end_ampm_stage_no_token in Ha by assumption.
      injection Ha as _ _ _ <-. apply same_field_refl. }
  assert (Hlate : forall k, k <> "hour" -> k <> "minute" -> k <> "meridiem" -> k <> "day" ->
            same_field k (end_rollover_stage st'
                            (end_meridiem_stage hour' (snd (decodeHourMinute m)) mer' st' en2))
                       en1).
  { intros k ? ? ? ?.
    eapply same_field_trans; [apply end_rollover_stage_frame; assumption|].
    eapply same_field_trans; [apply end_meridiem_stage_frame; assumption|].
    apply H2; assumption. }
  split; [|split; [|split]].
  - intros k ? ? ? ? ? ?.
    eapply same_field_trans; [apply Hlate; assumption|]. apply Hframe; assumption.
  - intros Hg. rewrite Hg in Hs.
    eapply same_field_trans; [apply Hlate; discriminate|]. exact Hs.
  - intros Hg. rewrite Hg in Hms.
    eapply same_field_trans; [apply Hlate; discriminate|]. exact Hms.
  - exact Hmer.
Qed.

Lemma end_keeps_start_fields_witness :
  exists r0 r' e,
    start_result (dated_context "11pm-1am") m_11pm = Some r0
    /\ extractEndTimeComponent r0 f_1am = Some r'
    /\ end_ r' = Some e
    /\ same_field "year" e (start r0)
    /\ same_field "second" e (start r0)
    /\ same_field "millisecond" e (start r0).
Proof.
  eexists. eexists. eexists.
  split; [reflexivity|]. split; [reflexivity|]. split; [reflexivity|].
  destruct (end_keeps_start_fields
              (start_only (dated_context "11pm-1am") m_11pm
                 (default blank_components
                    (extractPrimaryTimeComponents (dated_context "11pm-1am") m_11pm)))
              _ f_1am _ eq_refl eq_refl) as (Hk & Hs & Hms & _).
  split; [apply Hk; discriminate|]. split; [exact (Hs eq_refl) | exact (Hms eq_refl)].
Defined.

(** C10 as stated fails on "9am-12": the end has no AM/PM token, the start
    is not PM and the end hour is not above 12, so neither inference applies;
    yet the end's meridiem is PM while the start's is AM. *)
Lemma end_keeps_start_fields_counterexample :
  ~ (forall r0 r' e,
       start_result (dated_context "9am-12") m_9am = Some r0 ->
       extractEndTimeComponent r0 f_12 = Some r' ->
       end_ r' = Some e ->
       group f_12 AM_PM_HOUR_GROUP = None ->
       ~ (startAtPM (start r0) = true
          /\ Js.num (get (start r0) "hour") > Js.num (get e "hour")) ->
       ~ (Js.num (get e "hour") > 12) ->
       get e "meridiem" = get (start r0) "meridiem").
Proof.
  intros H.
  assert (Hno : ~ (false = true /\ 9 > 12)) by (intros [? _]; discriminate).
  assert (Hle : ~ (12 > 12)) by lia.
  specialize (H _ _ _ eq_refl eq_refl eq_refl eq_refl Hno Hle).
  vm_compute in H. discriminate.
Qed.

(** ** What [extract] returns *)

(** Once the primary decode succeeds, [extract] returns a result and leaves
    the match alone. *)
Lemma extract_success parser context m c :
  extractPrimaryTimeComponents context m = Some c ->
  exists r, extract parser context m = (m, Some r).
Proof.
  intros Hc. unfold extract. rewrite Hc.
  destruct (followingExec parser _) as [m'|]; [|eauto].
  destruct (looks_like_timezone_offset _); [eauto|].
  destruct (extractEndTimeComponent _ m'); eauto.
Qed.

Lemma extract_failure parser context m :
  extractPrimaryTimeComponents context m = None ->
  extract parser context m
  = ({| index := (index m + String.length (group_str m 0))%nat; groups := groups m |},
     None).
Proof. intros Hc. unfold extract. rewrite Hc. reflexivity. Qed.

(** X1: [extract] returns [null] exactly when the primary captures are
    rejected, that is for a minute of 60 or more, an hour above 24, an AM/PM
    token on an hour above 12, or seconds of 60 or more; a fractional group
    never rejects.  It then moves [match.index] past the whole match, and it
    leaves the match as it was whenever it returns a result. *)
Theorem extract_null_iff (parser : TimeExpressionParser) (context : ParsingContext)
    (m : RegExpMatchArray) :
  (snd (extract parser context m) = None <->
   snd (decodeHourMinute m) >= 60
   \/ fst (decodeHourMinute m) > 24
   \/ (is_Some (group m AM_PM_HOUR_GROUP) /\ fst (decodeHourMinute m) > 12)
   \/ (exists g, group m SECOND_GROUP = Some g /\ Js.parseInt g >= 60))
  /\ (snd (extract parser context m) = None ->
      index (fst (extract parser context m))
      = (index m + String.length (group_str m 0))%nat
      /\ groups (fst (extract parser context m)) = groups m)
  /\ (snd (extract parser context m) <> None -> fst (extract parser context m) = m).
Proof.
  rewrite <- primary_rejected_spec, <- (extractPrimary_None_iff context).
  destruct (extractPrimaryTimeComponents context m) as [c|] eqn:Hc.
  - destruct (extract_success parser context m c Hc) as [r ->]. cbn [fst snd].
    split; [split; discriminate|]. split; [discriminate|reflexivity].
  - rewrite (extract_failure parser context m Hc). cbn [fst snd index groups].
    split; [tauto|]. split; [auto|]. intros H. contradiction.
Qed.

(** X2: the span of a result.  The offset is the offset of the match plus
    the length of its boundary group, and the text is the match without that
    boundary; an end is attached exactly when the following pattern finds a
    match that is neither timezone-like nor rejected, and the text is then
    extended by that whole match. *)
Theorem extract_span (parser : TimeExpressionParser) (context : ParsingContext)
    (m : RegExpMatchArray) (r : ParsingResult) :
  snd (extract parser context m) = Some r ->
  let primary_text :=
    Js.substring_from (String.length (group_str m 1)) (group_str m 0) in
  res_index r = (index m + String.length (group_str m 1))%nat
  /\ match followingExec parser (remainingText context m) with
     | Some m' =>
         if looks_like_timezone_offset (group_str m' 0) || range_end_rejected m'
         then end_ r = None /\ res_text r = primary_text
         else is_Some (end_ r) /\ res_text r = primary_text ++ group_str m' 0
     | None => end_ r = None /\ res_text r = primary_text
     end.
Proof.
  intros Hr. cbv zeta. unfold extract in Hr. fold (remainingText context m) in Hr.
  destruct (extractPrimaryTimeComponents context m) as [c|]; [|discriminate].
  destruct (followingExec parser _) as [m'|];
    [|injection Hr as Hr; subst r; repeat split].
  destruct (looks_like_timezone_offset _);
    [injection Hr as Hr; subst r; repeat split|].
  cbn [orb].
  destruct (extractEndTimeComponent _ m') as [r'|] eqn:He.
  - injection Hr as Hr; subst r.
    assert (range_end_rejected m' = false) as ->.
    { destruct (range_end_rejected m') eqn:E; [|reflexivity].
      rewrite (proj2 (extractEnd_None_iff _ _) E) in He. discriminate. }
    apply extractEnd_inv in He as (en1 & hour' & mer' & st' & en2 & _ & _ & _ & _ & ->).
    cbn. repeat split. eauto.
  - injection Hr as Hr; subst r.
    apply extractEnd_None_iff in He. rewrite He. repeat split.
Qed.

Lemma extract_span_witness :
  exists r,
    snd (extract (range_with f_11pm) (dated_context "10-11pm") m_10) = Some r
    /\ res_index r = 0%nat /\ is_Some (end_ r) /\ res_text r = "10-11pm".
Proof.
  eexists. split; [reflexivity|].
  destruct (extract_span (range_with f_11pm) (dated_context "10-11pm") m_10 _ eq_refl)
    as [Hi Ht].
  split; [exact Hi|]. exact Ht.
Defined.

(** ** The primary decoder as a composition *)

(** Lines 148-162 are the statements of lines 245-259: the seconds stage of
    the range decoder also ends the primary decoder. *)
Lemma extractPrimary_stages context m :
  extractPrimaryTimeComponents context m =
  let '(hour, minute) := decodeHourMinute m in
  if (minute >=? 60) || (hour >? 24) then None else
  '(hour', meridiem) ← primary_ampm_stage m hour;
  end_second_stage
    (primary_store_stage hour' minute meridiem (createParsingComponents context)) m.
Proof. reflexivity. Qed.

Lemma primary_ampm_stage_cases m hour hour' meridiem :
  0 <= hour <= 24 ->
  primary_ampm_stage m hour = Some (hour', meridiem) ->
  0 <= hour' <= 24
  /\ ((meridiem = Some Meridiem.AM /\ hour' < 12)
      \/ (meridiem = Some Meridiem.PM /\ 12 <= hour')
      \/ (meridiem = None /\ hour' < 12)).
Proof.
  intros Hr. unfold primary_ampm_stage.
  destruct (group m AM_PM_HOUR_GROUP) as [tok|].
  - destruct (hour >? 12) eqn:E12; [discriminate|].
    pose proof (ampm_a_not_p tok) as Hap.
    destruct (ampm_is tok "a") eqn:Ea; [rewrite (Hap eq_refl)|];
      [|destruct (ampm_is tok "p") eqn:Ep];
      destruct (hour =? 12) eqn:Eh; cbn [negb];
      try destruct (hour >=? 12) eqn:Ege;
      intros [= <- <-]; tests_to_facts; (split; [lia|]);
      first [ left; split; [reflexivity|lia]
            | right; left; split; [reflexivity|lia]
            | right; right; split; [reflexivity|lia] ].
  - destruct (hour >=? 12) eqn:Ege; intros [= <- <-]; tests_to_facts; (split; [lia|]);
      first [ right; left; split; [reflexivity|lia]
            | right; right; split; [reflexivity|lia] ].
Qed.

Lemma primary_store_stage_meridiem hour minute meridiem fresh :
  isCertain fresh "meridiem" = false ->
  0 <= hour <= 24 ->
  (meridiem = Some Meridiem.AM /\ hour < 12)
  \/ (meridiem = Some Meridiem.PM /\ 12 <= hour)
  \/ (meridiem = None /\ hour < 12) ->
  let c := primary_store_stage hour minute meridiem fresh in
  get c "hour" = Some hour
  /\ ((get c "meridiem" = Some Meridiem.AM /\ hour < 12)
      \/ (get c "meridiem" = Some Meridiem.PM /\ 12 <= hour
          /\ isCertain c "meridiem" = true)).
Proof.
  intros Hfresh Hr Hcase. unfold primary_store_stage.
  destruct Hcase as [[-> Hlt]|[[-> Hge]|[-> Hlt]]].
  - split; [read_fields|]. left. split; [read_fields|lia].
  - split; [read_fields|]. right. repeat split; try lia; read_fields.
  - destruct (hour <? 12) eqn:E; [|tests_to_facts; lia].
    split; [read_fields|]. left. split; [|lia].
    rewrite get_imply, decide_True by reflexivity.
    rewrite !isCertain_assign, !decide_False, Hfresh by discriminate. reflexivity.
Qed.

(** The meridiem of a primary decode agrees with its hour, and a PM is
    always CERTAIN. *)
Lemma extractPrimary_meridiem context m c :
  isCertain (createParsingComponents context) "meridiem" = false ->
  extractPrimaryTimeComponents context m = Some c ->
  exists h md,
    get c "hour" = Some h /\ get c "meridiem" = Some md
    /\ ((md = Meridiem.AM /\ 0 <= h < 12)
        \/ (md = Meridiem.PM /\ 12 <= h <= 24 /\ isCertain c "meridiem" = true)).
Proof.
  intros Hfresh. rewrite extractPrimary_stages.
  pose proof (decodeHourMinute_nonneg m) as [Hh0 _].
  destruct (decodeHourMinute m) as [hour minute]. cbn [fst] in Hh0.
  destruct ((minute >=? 60) || (hour >? 24)) eqn:E; [discriminate|].
  tests_to_facts.
  destruct (primary_ampm_stage m hour) as [[hour' meridiem]|] eqn:Ea; [|discriminate].
  cbn [mbind option_bind]. intros Hc.
  apply primary_ampm_stage_cases in Ea as [Hr Hcase]; [|lia].
  destruct (primary_store_stage_meridiem hour' minute meridiem _ Hfresh Hr Hcase)
    as [Hh Hm].
  apply end_second_stage_Some in Hc as (Hframe & _).
  pose proof (Hframe "hour" ltac:(discriminate) ltac:(discriminate)) as Fh.
  pose proof (Hframe "meridiem" ltac:(discriminate) ltac:(discriminate)) as Fm.
  rewrite <- (same_field_get _ _ _ Fh) in Hh.
  rewrite <- (same_field_get _ _ _ Fm), <- (same_field_isCertain _ _ _ Fm) in Hm.
  destruct Hm as [[Hm Hlt]|(Hm & Hge & Hc)].
  - exists hour', Meridiem.AM. repeat split; try assumption. left. lia.
  - exists hour', Meridiem.PM. repeat split; try assumption. right. repeat split; try lia.
    assumption.
Qed.

Lemma meridiem_agrees_weaken c :
  (exists h md,
    get c "hour" = Some h /\ get c "meridiem" = Some md
    /\ ((md = Meridiem.AM /\ 0 <= h < 12)
        \/ (md = Meridiem.PM /\ 12 <= h <= 24 /\ isCertain c "meridiem" = true))) ->
  meridiem_agrees c.
Proof.
  intros (h & md & Hh & Hm & [?|(? & ? & ?)]); exists h, md; auto.
Qed.

(** The range decoder keeps hour and meridiem in agreement, for the start
    and for the end, when they agree in the start it is given and a PM there
    is CERTAIN. *)
Lemma extractEnd_meridiem r m r' :
  (exists h md,
    get (start r) "hour" = Some h /\ get (start r) "meridiem" = Some md
    /\ ((md = Meridiem.AM /\ 0 <= h < 12)
        \/ (md = Meridiem.PM /\ 12 <= h <= 24
            /\ isCertain (start r) "meridiem" = true))) ->
  extractEndTimeComponent r m = Some r' ->
  meridiem_agrees (start r')
  /\ forall e, end_ r' = Some e -> meridiem_agrees e.
Proof.
  intros (h & md & Hh & Hm & Hcase) He.
  apply extractEnd_inv in He as (en1 & hour' & mer' & st' & en2 & H1 & Hmin & Hh24 & Ha & ->).
  cbv zeta in *. cbn [start end_].
  pose proof (decodeHourMinute_nonneg m) as [Hh0 _].
  set (hour := fst (decodeHourMinute m)) in *.
  set (minute := snd (decodeHourMinute m)) in *.
  apply end_second_stage_Some in H1 as (Hframe1 & _).
  assert (Hst : meridiem_agrees (start r))
    by (apply meridiem_agrees_weaken; eauto 10).
  (* the start after the token, and what the token decoded to *)
  assert (Hstage :
    meridiem_agrees st'
    /\ same_field "meridiem" en2 en1
    /\ (isCertain (start r) "meridiem" = true -> st' = start r)
    /\ 0 <= hour' <= 24
    /\ ((mer' = Meridiem.AM /\ hour' < 12)
        \/ (mer' = Meridiem.PM /\ 12 <= hour')
        \/ (mer' = -1 /\ hour' < 12))).
  { destruct (group m AM_PM_HOUR_GROUP) as [tok|] eqn:Et.
    - rewrite (end_ampm_stage_token _ tok) in Ha by assumption.
      destruct (hour >? 12) eqn:E12; [discriminate|]. cbv zeta in Ha.
      injection Ha as Hh' Hmer Hst' Hen2. tests_to_facts.
      rewrite Hmer in Hst'.
      split; [|split; [|split; [|split]]].
      + subst st'. destruct (isCertain (start r) "meridiem") eqn:Ec.
        * unfold start_after_end_token. rewrite Ec. exact Hst.
        * destruct (start_after_end_token_uncertain mer' _ Ec) as (_ & Hgm & Hgh).
          destruct Hcase as [[-> Hlt]|(-> & _ & Hc)]; [|congruence].
          rewrite Hh in Hgh. unfold Js.loose_eq, Js.num in Hgh. cbn [default] in Hgh.
          assert ((h =? 12) = false) as E by (apply Z.eqb_neq; lia).
          rewrite E in Hgh.
          destruct (mer' =? Meridiem.AM).
          -- exists h, Meridiem.AM. repeat split; try assumption. left. lia.
          -- exists (h + 12), Meridiem.PM. repeat split; try assumption. right. lia.
      + subst en2. destruct (_ && negb _); frame_fields.
      + intros Hc. subst st'. unfold start_after_end_token. rewrite Hc. reflexivity.
      + subst hour'.
        repeat match goal with
               | |- context [if ?b then _ else _] => destruct b
               end; lia.
      + subst hour' mer'.
        destruct (ampm_is tok "a"); [|destruct (ampm_is tok "p")].
        * left. split; [reflexivity|]. destruct (hour =? 12) eqn:?; tests_to_facts; lia.
        * right; left. split; [reflexivity|].
          destruct (hour =? 12) eqn:?; tests_to_facts; lia.
        * destruct (hour >=? 12) eqn:?; tests_to_facts;
            [right; left | right; right]; split; try reflexivity; lia.
    - rewrite end_ampm_stage_no_token in Ha by assumption.
      injection Ha as <- <- <- <-.
      split; [exact Hst|]. split; [apply same_field_refl|]. split; [reflexivity|].
      split; [lia|].
      destruct (hour >=? 12) eqn:?; tests_to_facts;
        [right; left | right; right]; split; try reflexivity; lia. }
  destruct Hstage as (Hst' & Hm2 & Hkeep & Hr' & Hmer).
  split; [exact Hst'|]. intros e [= <-].
  pose proof (end_meridiem_stage_hour_minute hour' minute mer' st' en2) as (Hgh & _).
  pose proof (end_meridiem_stage_meridiem hour' minute mer' st' en2) as (Hm1 & Hm2' & Hm3).
  cbv zeta in *.
  assert (Hroll : forall k, k <> "day" ->
            get (end_rollover_stage st' (end_meridiem_stage hour' minute mer' st' en2)) k
            = get (end_meridiem_stage hour' minute mer' st' en2) k).
  { intros k Hk. apply same_field_get, end_rollover_stage_frame. exact Hk. }
  unfold meridiem_agrees. rewrite !Hroll by discriminate. rewrite Hgh.
  destruct Hmer as [[-> Hlt]|[[-> Hge]|[-> Hlt]]].
  - destruct (Hm1 ltac:(unfold Meridiem.AM; lia)) as [Hg _].
    exists hour', Meridiem.AM. repeat split; try assumption. left. lia.
  - destruct (Hm1 ltac:(unfold Meridiem.PM; lia)) as [Hg _].
    exists hour', Meridiem.PM. repeat split; try assumption. right. lia.
  - destruct (startAtPM st' && (Js.num (get st' "hour") >? hour')) eqn:Einf.
    + tests_to_facts.
      destruct (Hm2' ltac:(lia) ltac:(assumption) ltac:(lia)) as [Hg _].
      exists hour', Meridiem.AM. repeat split; try assumption. left. lia.
    + assert (Hno : ~ (startAtPM st' = true /\ Js.num (get st' "hour") > hour')).
      { intros [Hpm Hgt]. rewrite Hpm in Einf. cbn in Einf. tests_to_facts. lia. }
      pose proof (Hm3 ltac:(lia) ltac:(lia) Hno) as Hsame.
      exists hour'.
      assert (Hkept : get (end_meridiem_stage hour' minute (-1) st' en2) "meridiem"
                      = get (start r) "meridiem").
      { rewrite (same_field_get _ _ _ Hsame), (same_field_get _ _ _ Hm2).
        apply same_field_get, Hframe1; discriminate. }
      rewrite Hkept, Hm.
      destruct Hcase as [[-> _]|(-> & Hge & Hc)].
      * exists Meridiem.AM. repeat split. left. lia.
      * exfalso. apply Hno. rewrite (Hkeep Hc).
        unfold startAtPM. rewrite Hc, Hm, Hh. cbn. split; [reflexivity|lia].
Qed.

(** X4: hour and meridiem always agree.  In every result of [extract], run
    with a factory that leaves the meridiem uncertain, the start and the end
    carry an hour and a meridiem, AM with an hour below 12 and PM with an
    hour of 12 or more; this also holds after the end's token was carried
    back into the start. *)
Theorem extract_meridiem_agrees (parser : TimeExpressionParser)
    (context : ParsingContext) (m : RegExpMatchArray) (r : ParsingResult) :
  isCertain (createParsingComponents context) "meridiem" = false ->
  snd (extract parser context m) = Some r ->
  meridiem_agrees (start r)
  /\ forall e, end_ r = Some e -> meridiem_agrees e.
Proof.
  intros Hfresh Hr. unfold extract in Hr.
  destruct (extractPrimaryTimeComponents context m) as [c|] eqn:Hc; [|discriminate].
  pose proof (extractPrimary_meridiem _ _ _ Hfresh Hc) as Hprim.
  assert (Hstart_only :
            forall r0, start r0 = c -> end_ r0 = None ->
              meridiem_agrees (start r0)
              /\ forall e, end_ r0 = Some e -> meridiem_agrees e).
  { intros r0 -> ->. split; [apply meridiem_agrees_weaken; exact Hprim|discriminate]. }
  destruct (followingExec parser _) as [m'|];
    [|injection Hr as Hr; subst r; apply Hstart_only; reflexivity].
  destruct (looks_like_timezone_offset _);
    [injection Hr as Hr; subst r; apply Hstart_only; reflexivity|].
  destruct (extractEndTimeComponent _ m') as [r'|] eqn:He;
    [|injection Hr as Hr; subst r; apply Hstart_only; reflexivity].
  injection Hr as Hr; subst r.
  eapply extractEnd_meridiem; [|exact He]. exact Hprim.
Qed.

Lemma extract_meridiem_agrees_witness :
  exists r e,
    snd (extract (range_with f_11pm) (dated_context "10-11pm") m_10) = Some r
    /\ end_ r = Some e
    /\ meridiem_agrees (start r) /\ meridiem_agrees e.
Proof.
  destruct (extract_meridiem_agrees (range_with f_11pm) (dated_context "10-11pm") m_10 _
              eq_refl eq_refl) as [Hs He].
  eexists. eexists. split; [reflexivity|]. split; [reflexivity|].
  split; [exact Hs | exact (He _ eq_refl)].
Defined.

(** ** Instants of the start and of the end *)

Lemma days_from_civil_succ y m d :
  days_from_civil y m (d + 1) = days_from_civil y m d + 1.
Proof. unfold days_from_civil. lia. Qed.

Lemma getTime_of c y mo d h mi s ms :
  get c "year" = Some y -> get c "month" = Some mo -> get c "day" = Some d ->
  get c "hour" = Some h -> get c "minute" = Some mi ->
  get c "second" = Some s -> get c "millisecond" = Some ms ->
  getTime c
  = Some (days_from_civil y mo d * 86400000 + h * 3600000 + mi * 60000 + s * 1000 + ms).
Proof.
  intros Hy Hmo Hd Hh Hmi Hs Hms. unfold getTime.
  rewrite Hy, Hmo, Hd, Hh, Hmi, Hs, Hms. reflexivity.
Qed.

(** The start that the range decoder returns differs from the one it was
    given in hour and meridiem at most. *)
Lemma extractEnd_start_frame r m r' :
  extractEndTimeComponent r m = Some r' ->
  (forall k, k <> "hour" -> k <> "meridiem" -> same_field k (start r') (start r))
  /\ (isCertain (start r) "meridiem" = true -> start r' = start r)
  /\ (group m AM_PM_HOUR_GROUP = None -> start r' = start r).
Proof.
  intros He.
  apply extractEnd_inv in He as (en1 & hour' & mer' & st' & en2 & _ & _ & _ & Ha & ->).
  cbn [start].
  destruct (group m AM_PM_HOUR_GROUP) as [tok|] eqn:Et.
  - rewrite (end_ampm_stage_token _ tok) in Ha by assumption.
    destruct (_ >? 12); [discriminate|]. cbv zeta in Ha.
    injection Ha as _ _ Hst _. subst st'.
    split; [|split].
    + intros k ? ?. apply start_after_end_token_frame; assumption.
    + intros Hc. unfold start_after_end_token. rewrite Hc. reflexivity.
    + discriminate.
  - rewrite end_ampm_stage_no_token in Ha by assumption.
    injection Ha as _ _ Hst _. subst st'.
    split; [|split]; intros; try reflexivity. apply same_field_refl.
Qed.

(** The end of a successful range decode is the rollover stage applied to
    components that hold the start's calendar date, the day moved on by one
    for a "12am" end, and seconds and milliseconds whenever the start has
    them. *)
Lemma extractEnd_end_fields r m r' :
  extractEndTimeComponent r m = Some r' ->
  exists en3,
    end_ r' = Some (end_rollover_stage (start r') en3)
    /\ (forall k, k <> "hour" -> k <> "minute" -> k <> "second" -> k <> "millisecond" ->
                  k <> "meridiem" -> k <> "day" -> same_field k en3 (start r))
    /\ (is_Some (get (start r) "second") -> is_Some (get en3 "second"))
    /\ (is_Some (get (start r) "millisecond") -> is_Some (get en3 "millisecond"))
    /\ (group m SECOND_GROUP = None -> same_field "second" en3 (start r))
    /\ (group m MILLI_SECOND_GROUP = None -> same_field "millisecond" en3 (start r))
    /\ (forall d, isCertain (start r) "day" = false -> get (start r) "day" = Some d ->
        isCertain en3 "day" = false
        /\ get en3 "day" = Some (if ends_at_twelve_am m then d + 1 else d)).
Proof.
  intros He.
  apply extractEnd_inv in He as (en1 & hour' & mer' & st' & en2 & H1 & _ & _ & Ha & ->).
  cbv zeta in *. cbn [start end_].
  exists (end_meridiem_stage hour' (snd (decodeHourMinute m)) mer' st' en2).
  split; [reflexivity|].
  apply end_second_stage_Some in H1 as (Hframe & Hs & Hms).
  assert (H2 : (forall k, k <> "day" -> same_field k en2 en1)
               /\ en2 = (if ends_at_twelve_am m && negb (isCertain en1 "day")
                         then imply "day" (Js.num (get en1 "day") + 1) en1 else en1)).
  { unfold ends_at_twelve_am.
    destruct (group m AM_PM_HOUR_GROUP) as [tok|] eqn:Et.
    - rewrite (end_ampm_stage_token _ tok) in Ha by assumption.
      destruct (_ >? 12); [discriminate|]. cbv zeta in Ha.
      injection Ha as _ _ _ <-. split; [|reflexivity].
      intros k Hk. destruct (_ && negb _); frame_fields.
    - rewrite end_ampm_stage_no_token in Ha by assumption.
      injection Ha as _ _ _ <-. split; [|reflexivity]. intros. apply same_field_refl. }
  destruct H2 as [H2 Hen2].
  assert (Hlate : forall k, k <> "hour" -> k <> "minute" -> k <> "meridiem" -> k <> "day" ->
            same_field k (end_meridiem_stage hour' (snd (decodeHourMinute m)) mer' st' en2) en1).
  { intros k ? ? ? ?.
    eapply same_field_trans; [apply end_meridiem_stage_frame; assumption|].
    apply H2; assumption. }
  split; [|split; [|split; [|split; [|split]]]].
  - intros k ? ? ? ? ? ?.
    eapply same_field_trans; [apply Hlate; assumption|]. apply Hframe; assumption.
  - intros Hsome. rewrite (same_field_get _ _ _ (Hlate "second" ltac:(discriminate)
                             ltac:(discriminate) ltac:(discriminate) ltac:(discriminate))).
    destruct (group m SECOND_GROUP) as [g|].
    + destruct Hs as (-> & _). eauto.
    + rewrite (same_field_get _ _ _ Hs). exact Hsome.
  - intros Hsome. rewrite (same_field_get _ _ _ (Hlate "millisecond" ltac:(discriminate)
                             ltac:(discriminate) ltac:(discriminate) ltac:(discriminate))).
    destruct (group m MILLI_SECOND_GROUP) as [g|].
    + destruct Hms as (-> & _). eauto.
    + rewrite (same_field_get _ _ _ Hms). exact Hsome.
  - intros Hg. rewrite Hg in Hs.
    eapply same_field_trans; [apply Hlate; discriminate|]. exact Hs.
  - intros Hg. rewrite Hg in Hms.
    eapply same_field_trans; [apply Hlate; discriminate|]. exact Hms.
  - intros d Hu Hd.
    pose proof (Hframe "day" ltac:(discriminate) ltac:(discriminate)) as Hday1.
    assert (Hu1 : isCertain en1 "day" = false)
      by (rewrite (same_field_isCertain _ _ _ Hday1); exact Hu).
    assert (Hd1 : get en1 "day" = Some d)
      by (rewrite (same_field_get _ _ _ Hday1); exact Hd).
    pose proof (end_meridiem_stage_frame hour' (snd (decodeHourMinute m)) mer' st' en2 "day"
                  ltac:(discriminate) ltac:(discriminate) ltac:(discriminate)) as Hday3.
    rewrite (same_field_isCertain _ _ _ Hday3), (same_field_get _ _ _ Hday3).
    rewrite Hen2, Hu1. cbn [negb]. rewrite andb_true_r.
    destruct (ends_at_twelve_am m).
    + rewrite isCertain_imply, get_imply, decide_True, Hu1, Hd1 by reflexivity.
      split; reflexivity.
    + split; assumption.
Qed.

(** The instants of the start and of the end of a successful range decode,
    in terms of their times of day [ts] and [te]. *)
Lemma extractEnd_instants r m r' e y mo d :
  time_fields_in_range (start r) ->
  (isCertain (start r) "meridiem" = false ->
   exists h, get (start r) "hour" = Some h /\ 0 <= h < 12) ->
  get (start r) "year" = Some y -> get (start r) "month" = Some mo ->
  get (start r) "day" = Some d -> isCertain (start r) "day" = false ->
  is_Some (get (start r) "second") -> is_Some (get (start r) "millisecond") ->
  extractEndTimeComponent r m = Some r' -> end_ r' = Some e ->
  exists hs he ts te,
    get (start r') "hour" = Some hs /\ get e "hour" = Some he
    /\ hs * 3600000 <= ts < (hs + 1) * 3600000
    /\ he * 3600000 <= te < (he + 1) * 3600000
    /\ 0 <= hs <= 24 /\ 0 <= he <= 24
    /\ let d0 := if ends_at_twelve_am m then d + 1 else d in
       let start_instant := days_from_civil y mo d * 86400000 + ts in
       let end_instant := days_from_civil y mo d0 * 86400000 + te in
       getTime (start r') = Some start_instant
       /\ get e "day" = Some (if end_instant <? start_instant then d0 + 1 else d0)
       /\ getTime e
          = Some (if end_instant <? start_instant then end_instant + 86400000
                  else end_instant).
Proof.
  intros Hrange Hu Hy Hmo Hd Hud [s0 Hs0] [ms0 Hms0] He Hend.
  destruct (extractEnd_in_range r m r' Hrange Hu He) as [Rs Re].
  specialize (Re e Hend).
  destruct (extractEnd_start_frame r m r' He) as (Fs & _ & _).
  destruct (extractEnd_end_fields r m r' He)
    as (en3 & Hend' & Fe & Hsec & Hmsec & _ & _ & Hday).
  rewrite Hend in Hend'. apply (inj Some) in Hend'.
  destruct (Hday d Hud Hd) as [Hu3 Hd3].
  set (d0 := if ends_at_twelve_am m then d + 1 else d) in *.
  (* the fields of the start *)
  destruct Rs as ((hs & Hhs & Rhs) & (mis & Hmis & Rmis) & Rss & Rmss).
  assert (Hsy : get (start r') "year" = Some y)
    by (rewrite (same_field_get _ _ _ (Fs "year" ltac:(discriminate) ltac:(discriminate)));
        exact Hy).
  assert (Hsmo : get (start r') "month" = Some mo)
    by (rewrite (same_field_get _ _ _ (Fs "month" ltac:(discriminate) ltac:(discriminate)));
        exact Hmo).
  assert (Hsd : get (start r') "day" = Some d)
    by (rewrite (same_field_get _ _ _ (Fs "day" ltac:(discriminate) ltac:(discriminate)));
        exact Hd).
  assert (Hss : get (start r') "second" = Some s0)
    by (rewrite (same_field_get _ _ _ (Fs "second" ltac:(discriminate) ltac:(discriminate)));
        exact Hs0).
  assert (Hsms : get (start r') "millisecond" = Some ms0)
    by (rewrite (same_field_get _ _ _ (Fs "millisecond" ltac:(discriminate)
                                         ltac:(discriminate)));
        exact Hms0).
  specialize (Rss s0 Hss). specialize (Rmss ms0 Hsms).
  (* the fields of the end before the rollover *)
  assert (Fr : forall k, k <> "day" -> get e k = get en3 k).
  { intros k Hk. rewrite Hend'. apply same_field_get, end_rollover_stage_frame. exact Hk. }
  destruct Re as ((he & Hhe & Rhe) & (mie & Hmie & Rmie) & Rse & Rmse).
  destruct (Hsec ltac:(eauto)) as [se Hse]. destruct (Hmsec ltac:(eauto)) as [mse Hmse].
  rewrite <- Fr in Hse, Hmse by discriminate.
  specialize (Rse se Hse). specialize (Rmse mse Hmse).
  assert (Hey : get en3 "year" = Some y).
  { rewrite (same_field_get _ _ _ (Fe "year" ltac:(discriminate) ltac:(discriminate)
               ltac:(discriminate) ltac:(discriminate) ltac:(discriminate)
               ltac:(discriminate))). exact Hy. }
  assert (Hemo : get en3 "month" = Some mo).
  { rewrite (same_field_get _ _ _ (Fe "month" ltac:(discriminate) ltac:(discriminate)
               ltac:(discriminate) ltac:(discriminate) ltac:(discriminate)
               ltac:(discriminate))). exact Hmo. }
  rewrite Fr in Hhe, Hmie, Hse, Hmse by discriminate.
  exists hs, he, (hs * 3600000 + mis * 60000 + s0 * 1000 + ms0),
         (he * 3600000 + mie * 60000 + se * 1000 + mse).
  split; [exact Hhs|]. split; [rewrite Fr by discriminate; exact Hhe|].
  split; [lia|]. split; [lia|]. split; [lia|]. split; [lia|].
  cbv zeta.
  pose proof (getTime_of _ _ _ _ _ _ _ _ Hsy Hsmo Hsd Hhs Hmis Hss Hsms) as Ts.
  pose proof (getTime_of _ _ _ _ _ _ _ _ Hey Hemo Hd3 Hhe Hmie Hse Hmse) as Te.
  rewrite !Z.add_assoc.
  split; [exact Ts|].
  rewrite Hend'. unfold end_rollover_stage. rewrite Ts, Te. cbn [time_lt].
  destruct (_ <? _) eqn:Elt.
  - split.
    + rewrite get_imply, decide_True, Hu3, Hd3 by reflexivity. reflexivity.
    + erewrite getTime_of;
        [| rewrite get_imply, decide_False by discriminate; eassumption
         | rewrite get_imply, decide_False by discriminate; eassumption
         | rewrite get_imply, decide_True, Hu3, Hd3 by reflexivity; reflexivity
         | rewrite get_imply, decide_False by discriminate; eassumption
         | rewrite get_imply, decide_False by discriminate; eassumption
         | rewrite get_imply, decide_False by discriminate; eassumption
         | rewrite get_imply, decide_False by discriminate; eassumption ].
      unfold Js.num. cbn [default from_option id]. rewrite days_from_civil_succ.
      f_equal. lia.
  - split; [exact Hd3 | exact Te].
Qed.

(** X3: range reconciliation only ever touches the hour and the meridiem of
    the start.  The start of every result of [extract] is the primary decode
    of the match in every other field, value and tag; and it is that decode
    itself when there is no following match, when the decoded meridiem is
    CERTAIN, or when the following match has no AM/PM token. *)
Theorem range_start_frame (parser : TimeExpressionParser) (context : ParsingContext)
    (m : RegExpMatchArray) (r : ParsingResult) :
  snd (extract parser context m) = Some r ->
  exists c,
    extractPrimaryTimeComponents context m = Some c
    /\ (forall k, k <> "hour" -> k <> "meridiem" -> same_field k (start r) c)
    /\ (isCertain c "meridiem" = true -> start r = c)
    /\ match followingExec parser (remainingText context m) with
       | Some m' => group m' AM_PM_HOUR_GROUP = None -> start r = c
       | None => start r = c
       end.
Proof.
  intros Hr. unfold extract in Hr. fold (remainingText context m) in Hr.
  destruct (extractPrimaryTimeComponents context m) as [c|]; [|discriminate].
  exists c. split; [reflexivity|].
  assert (forall r0 : ParsingResult, start r0 = c ->
            (forall k, k <> "hour" -> k <> "meridiem" -> same_field k (start r0) c)
            /\ (isCertain c "meridiem" = true -> start r0 = c)) as Hsame.
  { intros r0 ->. split; [intros; apply same_field_refl|reflexivity]. }
  destruct (followingExec parser _) as [m'|].
  - destruct (looks_like_timezone_offset _).
    + injection Hr as Hr.
      assert (start r = c) as Hs by (rewrite <- Hr; reflexivity).
      destruct (Hsame r Hs) as [H1 H2].
      split; [exact H1|]. split; [exact H2|]. intros; exact Hs.
    + destruct (extractEndTimeComponent _ m') as [r'|] eqn:Hend.
      * injection Hr as Hr; subst r'.
        apply extractEnd_start_frame in Hend as (H1 & H2 & H3).
        cbn [start start_only with_start] in H1, H2, H3.
        split; [exact H1|]. split; [exact H2|exact H3].
      * injection Hr as Hr.
        assert (start r = c) as Hs by (rewrite <- Hr; reflexivity).
        destruct (Hsame r Hs) as [H1 H2].
      split; [exact H1|]. split; [exact H2|]. intros; exact Hs.
  - injection Hr as Hr.
    assert (start r = c) as Hs by (rewrite <- Hr; reflexivity).
    destruct (Hsame r Hs) as [H1 H2].
      split; [exact H1|]. split; [exact H2|]. intros; exact Hs.
Qed.

Lemma range_start_frame_witness :
  exists c,
    extractPrimaryTimeComponents (dated_context "10-11pm") m_10 = Some c
    /\ (forall k, k <> "hour" -> k <> "meridiem" ->
        same_field k
          (start (default (start_only (dated_context "10-11pm") m_10 blank_components)
                    (snd (extract (range_with f_11pm) (dated_context "10-11pm") m_10))))
          c)
    /\ get c "hour" = Some 10
    /\ get (start (default (start_only (dated_context "10-11pm") m_10 blank_components)
                     (snd (extract (range_with f_11pm) (dated_context "10-11pm") m_10))))
          "hour" = Some 22.
Proof.
  destruct (range_start_frame (range_with f_11pm) (dated_context "10-11pm") m_10 _ eq_refl)
    as (c & Hc & Hk & _).
  exists c. split; [exact Hc|]. split; [exact Hk|].
  vm_compute in Hc. injection Hc as Hc. subst c. split; reflexivity.
Defined.

(** What a successful primary decode holds of the calendar date, the
    seconds and the milliseconds of the factory. *)
Lemma extractPrimary_dated context m c :
  has_date_and_seconds (createParsingComponents context) ->
  isCertain (createParsingComponents context) "day" = false ->
  extractPrimaryTimeComponents context m = Some c ->
  has_date_and_seconds c /\ isCertain c "day" = false.
Proof.
  intros (Hy & Hmo & Hd & Hs & Hms) Hu Hc.
  apply extractPrimary_seconds in Hc as (Fs & Fms & Fk). cbv zeta in *.
  assert (Fy := Fk "year" ltac:(discriminate) ltac:(discriminate) ltac:(discriminate)
                  ltac:(discriminate) ltac:(discriminate)).
  assert (Fmo := Fk "month" ltac:(discriminate) ltac:(discriminate) ltac:(discriminate)
                   ltac:(discriminate) ltac:(discriminate)).
  assert (Fd := Fk "day" ltac:(discriminate) ltac:(discriminate) ltac:(discriminate)
                  ltac:(discriminate) ltac:(discriminate)).
  split; [|rewrite (same_field_isCertain _ _ _ Fd); exact Hu].
  unfold has_date_and_seconds.
  rewrite (same_field_get _ _ _ Fy), (same_field_get _ _ _ Fmo), (same_field_get _ _ _ Fd).
  repeat split; try assumption.
  - destruct (group m SECOND_GROUP) as [g|].
    + destruct Fs as (-> & _). eauto.
    + rewrite (same_field_get _ _ _ Fs). exact Hs.
  - destruct (group m MILLI_SECOND_GROUP) as [g|].
    + destruct Fms as (-> & _). eauto.
    + rewrite (same_field_get _ _ _ Fms). exact Hms.
Qed.

(** The range branch of [extract]: a result with an end comes from the range
    decoder, run on the start-only result. *)
Lemma extract_with_end parser context m r e :
  snd (extract parser context m) = Some r ->
  end_ r = Some e ->
  exists c m',
    extractPrimaryTimeComponents context m = Some c
    /\ followingExec parser (remainingText context m) = Some m'
    /\ extractEndTimeComponent (start_only context m c) m' = Some r.
Proof.
  intros Hr He. unfold extract in Hr. fold (remainingText context m) in Hr.
  destruct (extractPrimaryTimeComponents context m) as [c|]; [|discriminate].
  exists c.
  destruct (followingExec parser _) as [m'|];
    [|injection Hr as Hr; subst r; discriminate].
  exists m'.
  destruct (looks_like_timezone_offset _);
    [injection Hr as Hr; subst r; discriminate|].
  destruct (extractEndTimeComponent _ m') as [r'|] eqn:Hend;
    [|injection Hr as Hr; subst r; discriminate].
  injection Hr as Hr; subst r. repeat split.
Qed.

(** X5: the end of a range never lies before its start.  When the factory
    supplies an implied calendar date with seconds and milliseconds in
    range, and the returned start's hour is below 24, both instants are
    valid and the end's instant, after the rollover, is at or after the
    start's. *)
Theorem range_end_not_before_start (parser : TimeExpressionParser)
    (context : ParsingContext) (m : RegExpMatchArray) (r : ParsingResult)
    (e : ParsingComponents) :
  seconds_in_range (createParsingComponents context) ->
  has_date_and_seconds (createParsingComponents context) ->
  isCertain (createParsingComponents context) "day" = false ->
  snd (extract parser context m) = Some r ->
  end_ r = Some e ->
  (forall h, get (start r) "hour" = Some h -> h < 24) ->
  exists ts te, getTime (start r) = Some ts /\ getTime e = Some te /\ ts <= te.
Proof.
  intros Hsec Hdated Hu Hr He Hh24.
  destruct (extract_with_end _ _ _ _ _ Hr He) as (c & m' & Hc & _ & Hend).
  destruct (primary_in_range _ _ _ Hsec Hc) as [Hrange Hunc].
  destruct (extractPrimary_dated _ _ _ Hdated Hu Hc)
    as (([y Hy] & [mo Hmo] & [d Hd] & Hs & Hms) & Hud).
  destruct (extractEnd_instants (start_only context m c) m' r e y mo d
              Hrange Hunc Hy Hmo Hd Hud Hs Hms Hend He)
    as (hs & he & ts & te & Hhs & _ & Rts & Rte & Rhs & Rhe & Hts & _ & Hte).
  cbv zeta in *.
  specialize (Hh24 hs Hhs).
  eexists. eexists. split; [exact Hts|]. split; [exact Hte|].
  assert (days_from_civil y mo d <= days_from_civil y mo (if ends_at_twelve_am m' then d + 1 else d)).
  { destruct (ends_at_twelve_am m'); [rewrite days_from_civil_succ|]; lia. }
  destruct (_ <? _) eqn:E; tests_to_facts; lia.
Qed.

Lemma range_end_not_before_start_witness :
  exists r e ts te,
    snd (extract (range_with f_1am) (dated_context "11pm-1am") m_11pm) = Some r
    /\ end_ r = Some e
    /\ getTime (start r) = Some ts /\ getTime e = Some te /\ ts <= te.
Proof.
  assert (Hsec : seconds_in_range (createParsingComponents (dated_context "11pm-1am"))).
  { split; intros v Hv; vm_compute in Hv; injection Hv as <-; lia. }
  assert (Hdated : has_date_and_seconds (createParsingComponents (dated_context "11pm-1am"))).
  { repeat split; vm_compute; eauto. }
  assert (Hh : forall h,
             get (start (default (mkResult 0 EmptyString blank_components None)
                           (snd (extract (range_with f_1am) (dated_context "11pm-1am")
                                   m_11pm)))) "hour" = Some h -> h < 24).
  { intros h Hv. vm_compute in Hv. injection Hv as <-. lia. }
  destruct (range_end_not_before_start (range_with f_1am) (dated_context "11pm-1am")
              m_11pm _ _ Hsec Hdated eq_refl eq_refl eq_refl Hh)
    as (ts & te & Hts & Hte & Hle).
  eexists. eexists. exists ts, te.
  split; [reflexivity|]. split; [reflexivity|]. auto.
Defined.

(** X6: "10pm - 1".  After a start that is a CERTAIN PM, a range end without
    AM/PM token and with a decoded hour below 12 is read as AM, tagged
    IMPLIED, and lands on the day after the start's. *)
Theorem pm_start_morning_end (parser : TimeExpressionParser)
    (context : ParsingContext) (m m' : RegExpMatchArray) (r : ParsingResult)
    (e : ParsingComponents) :
  seconds_in_range (createParsingComponents context) ->
  has_date_and_seconds (createParsingComponents context) ->
  isCertain (createParsingComponents context) "day" = false ->
  isCertain (createParsingComponents context) "meridiem" = false ->
  followingExec parser (remainingText context m) = Some m' ->
  group m' AM_PM_HOUR_GROUP = None ->
  fst (decodeHourMinute m') < 12 ->
  snd (extract parser context m) = Some r ->
  end_ r = Some e ->
  get (start r) "meridiem" = Some Meridiem.PM ->
  get e "meridiem" = Some Meridiem.AM /\ isCertain e "meridiem" = false
  /\ get e "hour" = Some (fst (decodeHourMinute m'))
  /\ exists d, get (start r) "day" = Some d /\ get e "day" = Some (d + 1).
Proof.
  intros Hsec Hdated Hu Hum Hm' Htok Hlt Hr He Hpm.
  destruct (extract_with_end _ _ _ _ _ Hr He) as (c & m'' & Hc & Hm'' & Hend).
  rewrite Hm' in Hm''. injection Hm'' as <-.
  destruct (primary_in_range _ _ _ Hsec Hc) as [Hrange Hunc].
  destruct (extractPrimary_dated _ _ _ Hdated Hu Hc)
    as (([y Hy] & [mo Hmo] & [d Hd] & Hs & Hms) & Hud).
  destruct (extractPrimary_meridiem _ _ _ Hum Hc) as (h & md & Hh & Hmd & Hcase).
  destruct (extractEnd_start_frame _ _ _ Hend) as (_ & _ & Hsame).
  specialize (Hsame Htok). cbn [start start_only with_start] in Hsame.
  rewrite Hsame in Hpm. rewrite Hmd in Hpm. injection Hpm as ->.
  destruct Hcase as [[Habs _]|(_ & Hge & Hcert)]; [discriminate|].
  destruct (extractEnd_instants (start_only context m c) m' r e y mo d
              Hrange Hunc Hy Hmo Hd Hud Hs Hms Hend He)
    as (hs & he & ts & te & Hhs & Hhe & Rts & Rte & Rhs & Rhe & Hts & Hday & _).
  cbv zeta in *.
  rewrite Hsame in Hhs. cbn [start start_only with_start] in Hhs.
  rewrite Hh in Hhs. injection Hhs as <-.
  (* the end's hour and meridiem *)
  pose proof Hend as Hinv.
  apply extractEnd_inv in Hinv
    as (en1 & hour' & mer' & st' & en2 & H1 & _ & _ & Ha & Hr').
  rewrite end_ampm_stage_no_token in Ha by assumption.
  injection Ha as <- <- <- <-.
  rewrite Hr' in He. cbn [end_] in He. apply (inj Some) in He.
  cbn [start start_only with_start] in *.
  assert ((fst (decodeHourMinute m') >=? 12) = false) as Ege
    by (rewrite Z.geb_leb; apply Z.leb_gt; lia).
  rewrite Ege in He.
  pose proof (end_meridiem_stage_hour_minute (fst (decodeHourMinute m'))
                (snd (decodeHourMinute m')) (-1) c en1) as (Hgh & _).
  pose proof (end_meridiem_stage_meridiem (fst (decodeHourMinute m'))
                (snd (decodeHourMinute m')) (-1) c en1) as (_ & Hm2 & _).
  cbv zeta in *.
  assert (Hstart_pm : startAtPM c = true).
  { unfold startAtPM. rewrite Hcert, Hmd. reflexivity. }
  destruct (Hm2 ltac:(lia) Hstart_pm ltac:(rewrite Hh; cbn; lia)) as [Hgm Hcm].
  assert (Fr : forall k, k <> "day" ->
            get e k = get (end_meridiem_stage (fst (decodeHourMinute m'))
                             (snd (decodeHourMinute m')) (-1) c en1) k
            /\ isCertain e k = isCertain (end_meridiem_stage (fst (decodeHourMinute m'))
                             (snd (decodeHourMinute m')) (-1) c en1) k).
  { intros k Hk. subst e.
    split; [apply same_field_get | apply same_field_isCertain];
      apply end_rollover_stage_frame; exact Hk. }
  destruct (Fr "meridiem" ltac:(discriminate)) as [-> ->].
  destruct (Fr "hour" ltac:(discriminate)) as [Hhe' _].
  rewrite Hhe', Hgh in Hhe. injection Hhe as <-.
  split; [exact Hgm|]. split; [exact Hcm|]. split; [rewrite Hhe'; exact Hgh|].
  exists d. rewrite Hsame. cbn [start start_only with_start]. split; [exact Hd|].
  assert (ends_at_twelve_am m' = false) as Hnot
    by (unfold ends_at_twelve_am; rewrite Htok; reflexivity).
  rewrite Hnot in Hday. rewrite Hday.
  match goal with
  | |- context [if ?b then _ else _] => destruct b eqn:E
  end; [reflexivity|].
  tests_to_facts. lia.
Qed.

Lemma pm_start_morning_end_witness :
  exists r e,
    snd (extract (range_with (following_match "-1" "1" None None None None))
           (dated_context "10pm-1") m_10pm) = Some r
    /\ end_ r = Some e
    /\ get e "meridiem" = Some Meridiem.AM /\ isCertain e "meridiem" = false
    /\ get e "hour" = Some 1 /\ get e "day" = Some 11.
Proof.
  assert (Hsec : seconds_in_range (createParsingComponents (dated_context "10pm-1"))).
  { split; intros v Hv; vm_compute in Hv; injection Hv as <-; lia. }
  assert (Hdated : has_date_and_seconds (createParsingComponents (dated_context "10pm-1"))).
  { repeat split; vm_compute; eauto. }
  destruct (pm_start_morning_end
              (range_with (following_match "-1" "1" None None None None))
              (dated_context "10pm-1") m_10pm _ _ _
              Hsec Hdated eq_refl eq_refl eq_refl eq_refl eq_refl eq_refl eq_refl eq_refl)
    as (Hm & Hc & Hh & d & Hd & Hday).
  eexists. eexists. split; [reflexivity|]. split; [reflexivity|].
  split; [exact Hm|]. split; [exact Hc|]. split; [exact Hh|].
  vm_compute in Hd. injection Hd as <-. exact Hday.
Defined.

(** ** The timezone guard *)

Lemma append_cons a (s t : string) : String a s ++ t = String a (s ++ t).
Proof. reflexivity. Qed.

Lemma append_empty (t : string) : EmptyString ++ t = t.
Proof. reflexivity. Qed.

Lemma skip_spaces_app ws t :
  all_spaces ws -> Js.skip_spaces (ws ++ t) = Js.skip_spaces t.
Proof.
  unfold all_spaces. induction ws as [|a ws IH]; [reflexivity|].
  rewrite append_cons. cbn [Js.skip_spaces].
  destruct (Js.is_space a); [exact IH | discriminate].
Qed.

Lemma skip_spaces_prefix s :
  exists ws, s = ws ++ Js.skip_spaces s /\ all_spaces ws.
Proof.
  unfold all_spaces. induction s as [|a s (ws & Hs & Hws)].
  - exists EmptyString. split; reflexivity.
  - cbn [Js.skip_spaces]. destruct (Js.is_space a) eqn:Ea.
    + exists (String a ws). rewrite append_cons. cbn [Js.skip_spaces]. rewrite Ea.
      split; [f_equal; exact Hs | exact Hws].
    + exists EmptyString. split; reflexivity.
Qed.

Lemma skip_spaces_digits ds :
  Js.all_digits ds = true -> Js.skip_spaces ds = ds.
Proof.
  destruct ds as [|a ds]; [reflexivity|]. cbn.
  intros [Ha _]%andb_true_iff.
  assert (Js.is_space a = false) as ->; [|reflexivity].
  unfold Js.is_digit, Js.digit_of in Ha. unfold Js.is_space.
  destruct (_ && _) eqn:E in Ha; [|discriminate].
  apply andb_true_iff in E as [E1 E2]. apply Z.leb_le in E1, E2.
  repeat match goal with
         | |- context [(?x <=? ?y)%nat] => destruct (Nat.leb_spec x y)
         | |- context [(?x =? ?y)%nat] => destruct (Nat.eqb_spec x y)
         end; try reflexivity; lia.
Qed.

(** X7: the timezone guard accepts exactly the strings made of optional
    white space, one sign, optional white space, and three or four decimal
    digits up to the end. *)
Theorem looks_like_timezone_offset_iff (s : string) :
  looks_like_timezone_offset s = true <-> timezone_offset_shape s.
Proof.
  unfold looks_like_timezone_offset, timezone_offset_shape. split.
  - destruct (skip_spaces_prefix s) as (ws1 & Hs & Hws1).
    destruct (Js.skip_spaces s) as [|sign rest]; [discriminate|].
    intros [Hsign Hrest]%andb_true_iff.
    destruct (skip_spaces_prefix rest) as (ws2 & Hr & Hws2).
    apply andb_true_iff in Hrest as [Hd Hlen].
    exists ws1, sign, ws2, (Js.skip_spaces rest).
    split; [rewrite <- Hr; exact Hs|].
    split; [exact Hws1|]. split.
    { apply orb_true_iff in Hsign as [H|H]; apply bool_decide_eq_true in H; auto. }
    split; [exact Hws2|]. split; [exact Hd|].
    apply orb_true_iff in Hlen as [H|H]; apply bool_decide_eq_true in H; auto.
  - intros (ws1 & sign & ws2 & ds & -> & Hws1 & Hsign & Hws2 & Hd & Hlen).
    rewrite skip_spaces_app by assumption.
    assert (Js.skip_spaces (String sign (ws2 ++ ds)) = String sign (ws2 ++ ds)) as ->.
    { destruct Hsign as [-> | ->]; reflexivity. }
    rewrite skip_spaces_app, skip_spaces_digits, Hd by assumption.
    apply andb_true_iff. split.
    + destruct Hsign as [-> | ->]; reflexivity.
    + destruct Hlen as [-> | ->]; reflexivity.
Qed.

(** ** Clock texts *)

Lemma digit_of_digit_char d : 0 <= d <= 9 -> Js.digit_of (digit_char d) = Some d.
Proof.
  intros H.
  assert (d = 0 \/ d = 1 \/ d = 2 \/ d = 3 \/ d = 4 \/ d = 5 \/ d = 6 \/ d = 7
          \/ d = 8 \/ d = 9) as Hd by lia.
  repeat (destruct Hd as [-> | Hd]; [reflexivity|]). subst. reflexivity.
Qed.

Lemma parseInt_from_digit_char acc d s :
  0 <= d <= 9 ->
  Js.parseInt_from acc (String (digit_char d) s) = Js.parseInt_from (10 * acc + d) s.
Proof.
  intros H. cbn [Js.parseInt_from]. rewrite digit_of_digit_char by exact H. reflexivity.
Qed.

Lemma parseInt_two_digits n : 0 <= n <= 99 -> Js.parseInt (two_digits n) = n.
Proof.
  intros H. unfold Js.parseInt, two_digits.
  pose proof (Z.mod_pos_bound n 10 ltac:(lia)).
  pose proof (Z.div_mod n 10 ltac:(lia)).
  assert (0 <= n / 10 <= 9) by lia.
  rewrite !parseInt_from_digit_char by lia. cbn [Js.parseInt_from]. lia.
Qed.

Lemma parseInt_three_digits n extra :
  0 <= n <= 999 -> Js.parseInt (Js.substring_to 3 (three_digits n ++ extra)) = n.
Proof.
  intros H. unfold Js.parseInt, three_digits, two_digits.
  rewrite !append_cons. cbn [Js.substring_to].
  pose proof (Z.mod_pos_bound n 100 ltac:(lia)).
  pose proof (Z.div_mod n 100 ltac:(lia)).
  pose proof (Z.mod_pos_bound (n mod 100) 10 ltac:(lia)).
  pose proof (Z.div_mod (n mod 100) 10 ltac:(lia)).
  assert (0 <= n / 100 <= 9) by lia.
  assert (0 <= n mod 100 / 10 <= 9) by lia.
  rewrite !parseInt_from_digit_char by lia. cbn [Js.parseInt_from]. lia.
Qed.

(** X8: clock texts decode to themselves.  For the captures of
    "HH:MM:SS.mmm..." without AM/PM token, with an hour up to 24, minute and
    seconds up to 59 and any fraction, the primary decode succeeds and
    returns exactly that hour, minute and second and the first three
    fractional digits as milliseconds, each tagged CERTAIN. *)
Theorem clock_text_round_trip (context : ParsingContext) (i : nat)
    (whole boundary extra : string) (h mi s ms : Z) :
  0 <= h <= 24 -> 0 <= mi <= 59 -> 0 <= s <= 59 -> 0 <= ms <= 999 ->
  let m := {| index := i;
              groups := [Some whole; Some boundary; Some (two_digits h);
                         Some (two_digits mi); Some (two_digits s);
                         Some (three_digits ms ++ extra); None] |} in
  exists c,
    extractPrimaryTimeComponents context m = Some c
    /\ get c "hour" = Some h /\ isCertain c "hour" = true
    /\ get c "minute" = Some mi /\ isCertain c "minute" = true
    /\ get c "second" = Some s /\ isCertain c "second" = true
    /\ get c "millisecond" = Some ms /\ isCertain c "millisecond" = true.
Proof.
  intros Hh Hmi Hs Hms m.
  assert (Hdec : decodeHourMinute m = (h, mi)).
  { unfold decodeHourMinute.
    change (group m MINUTE_GROUP) with (Some (two_digits mi)).
    change (group_str m HOUR_GROUP) with (two_digits h).
    rewrite !parseInt_two_digits by lia. reflexivity. }
  destruct (extractPrimaryTimeComponents context m) as [c|] eqn:Hc.
  - exists c. split; [reflexivity|].
    pose proof (extractPrimary_fields _ _ _ Hc) as (_ & _ & Hgm & Hcm & Hch & Hrest).
    pose proof (extractPrimary_seconds _ _ _ Hc) as (Hsec & Hmsec & _).
    cbv zeta in *. rewrite Hdec in *. cbn [fst snd] in *.
    change (group m AM_PM_HOUR_GROUP) with (@None string) in Hrest.
    change (group m SECOND_GROUP) with (Some (two_digits s)) in Hsec.
    change (group m MILLI_SECOND_GROUP) with (Some (three_digits ms ++ extra)) in Hmsec.
    cbv beta iota in Hrest, Hsec, Hmsec.
    rewrite parseInt_two_digits in Hsec by lia.
    rewrite parseInt_three_digits in Hmsec by lia.
    destruct Hrest as (Hgh & _). destruct Hsec as (? & ? & _). destruct Hmsec as (? & ?).
    repeat split; assumption.
  - exfalso. apply extractPrimary_None_iff, primary_rejected_spec in Hc.
    rewrite Hdec in Hc. cbn [fst snd] in Hc.
    destruct Hc as [Hc|[Hc|[[[tok Htok] _]|(g & Hg & Hc)]]]; try lia.
    + discriminate.
    + change (group m SECOND_GROUP) with (Some (two_digits s)) in Hg.
      injection Hg as <-. rewrite parseInt_two_digits in Hc by lia. lia.
Qed.

Lemma clock_text_round_trip_witness :
  exists c,
    extractPrimaryTimeComponents (dated_context "07:05:09.123456")
      {| index := 0;
         groups := [Some "07:05:09.123456"; Some EmptyString; Some "07"; Some "05";
                    Some "09"; Some "123456"; None] |} = Some c
    /\ get c "hour" = Some 7 /\ get c "minute" = Some 5
    /\ get c "second" = Some 9 /\ get c "millisecond" = Some 123.
Proof.
  destruct (clock_text_round_trip (dated_context "07:05:09.123456") 0
              "07:05:09.123456" EmptyString "456" 7 5 9 123
              ltac:(lia) ltac:(lia) ltac:(lia) ltac:(lia))
    as (c & Hc & Hh & _ & Hm & _ & Hs & _ & Hms & _).
  exists c. repeat split; assumption.
Defined.

(** ** Decoding twice *)

Lemma assign_id k v c :
  knownValues c !! k = Some v -> impliedValues c !! k = None -> assign k v c = c.
Proof.
  intros Hk Hi. destruct c as [kn im]. unfold assign. cbn in *.
  f_equal; [apply insert_id; exact Hk | apply delete_id; exact Hi].
Qed.

Lemma imply_id k v c :
  isCertain c k = true \/ impliedValues c !! k = Some v -> imply k v c = c.
Proof.
  intros H. unfold imply. destruct (isCertain c k) eqn:Ec; [reflexivity|].
  destruct H as [H|H]; [discriminate|].
  destruct c as [kn im]. cbn in *. f_equal. apply insert_id. exact H.
Qed.

(** Reads the two maps back through a stack of [assign] and [imply]. *)
Ltac read_maps :=
  repeat first
    [ rewrite known_assign | rewrite implied_assign
    | rewrite known_imply | rewrite implied_imply ];
  repeat (case_decide; simplify_eq); try done.

(** Drops the [assign]s that write into [C] what [C] already holds. *)
Ltac settle_assigns C :=
  repeat match goal with
         | |- context [assign ?k ?v ?c] =>
             constr_eq c C; rewrite (assign_id k v C) by (subst C; read_maps)
         end.

Lemma extractStart_stages r m :
  extractStartTimeComponent r m =
  let '(hour, minute) := decodeHourMinute m in
  if (minute >=? 60) || (hour >? 24) then None else
  '(hour', meridiem) ← primary_ampm_stage m hour;
  st ← end_second_stage (primary_store_stage hour' minute meridiem (start r)) m;
  Some (with_start r st).
Proof.
  unfold extractStartTimeComponent.
  name_decode m hour minute. rewrite <- Ehm. clear Ehm.
  destruct ((minute >=? 60) || (hour >? 24)); [reflexivity|].
  change (match group m AM_PM_HOUR_GROUP with Some _ => _ | None => _ end)
    with (primary_ampm_stage m hour).
  destruct (primary_ampm_stage m hour) as [[hour' meridiem]|]; [|reflexivity].
  cbn [mbind option_bind]. unfold end_second_stage, primary_store_stage.
  destruct (group m MILLI_SECOND_GROUP) as [ms|]; cbn [mbind option_bind];
    try (destruct (_ >=? 1000); [reflexivity|]; cbn [mbind option_bind]);
    destruct (group m SECOND_GROUP) as [s|]; cbn [mbind option_bind];
    try (destruct (Js.parseInt s >=? 60); [reflexivity|]; cbn [mbind option_bind]).
  all: reflexivity.
Qed.

Lemma end_second_stage_again c0 m c :
  end_second_stage c0 m = Some c -> end_second_stage c m = Some c.
Proof.
  unfold end_second_stage.
  destruct (group m MILLI_SECOND_GROUP) as [ms|]; cbn [mbind option_bind];
    try (destruct (_ >=? 1000) eqn:Ems; [discriminate|]; cbn [mbind option_bind]);
    destruct (group m SECOND_GROUP) as [s|];
    try (destruct (Js.parseInt s >=? 60) eqn:Es; [discriminate|]).
  all: intros [= <-]; try reflexivity.
  all: match goal with
       | |- _ = Some ?x =>
           let C := fresh "C" in set (C := x); settle_assigns C; reflexivity
       end.
Qed.

Lemma primary_store_stage_again hour minute meridiem c0 m c :
  end_second_stage (primary_store_stage hour minute meridiem c0) m = Some c ->
  primary_store_stage hour minute meridiem c = c.
Proof.
  unfold end_second_stage, primary_store_stage.
  destruct (group m MILLI_SECOND_GROUP) as [ms|]; cbn [mbind option_bind];
    try (destruct (_ >=? 1000) eqn:Ems; [discriminate|]; cbn [mbind option_bind]);
    destruct (group m SECOND_GROUP) as [s|];
    try (destruct (Js.parseInt s >=? 60) eqn:Es; [discriminate|]).
  all: intros [= <-].
  all: destruct meridiem as [md|]; [|destruct (hour <? 12)].
  all: match goal with
       | |- _ = ?x =>
           let C := fresh "C" in set (C := x); settle_assigns C; subst C
       end; try reflexivity.
  all: apply imply_id;
    destruct (isCertain c0 "meridiem") eqn:Ec; [left; read_fields|right];
    repeat first
      [ rewrite implied_assign | rewrite implied_imply
      | rewrite isCertain_assign | rewrite isCertain_imply
      | case_decide; simplify_eq ];
    rewrite ?Ec; reflexivity.
Qed.

(** X9: decoding the start a second time changes nothing.  When
    [extractStartTimeComponent] succeeds on a result, running it again on
    what it returned, with the same match, returns that same result: every
    assigned field keeps its value and no implied field moves. *)
Theorem extractStartTimeComponent_idempotent (r r' : ParsingResult)
    (m : RegExpMatchArray) :
  extractStartTimeComponent r m = Some r' ->
  extractStartTimeComponent r' m = Some r'.
Proof.
  rewrite !extractStart_stages.
  destruct (decodeHourMinute m) as [hour minute].
  destruct ((minute >=? 60) || (hour >? 24)); [discriminate|].
  destruct (primary_ampm_stage m hour) as [[hour' meridiem]|]; [|discriminate].
  cbn [mbind option_bind].
  destruct (end_second_stage (primary_store_stage hour' minute meridiem (start r)) m)
    as [st|] eqn:Est; [|discriminate].
  cbn [mbind option_bind]. intros [= <-]. cbn [start with_start].
  rewrite (primary_store_stage_again _ _ _ _ _ _ Est).
  rewrite (end_second_stage_again _ _ _ Est). reflexivity.
Qed.

Lemma extractStartTimeComponent_idempotent_witness :
  exists r',
    extractStartTimeComponent
      (start_only (dated_context "10") m_10 dated_components) m_10 = Some r'
    /\ extractStartTimeComponent r' m_10 = Some r'.
Proof.
  eexists. split; [reflexivity|].
  apply (extractStartTimeComponent_idempotent
           (start_only (dated_context "10") m_10 dated_components)).
  reflexivity.
Defined.

(** ** [locales/fr/constants.ts]: the dictionaries *)

(** X10: the dictionaries are made for lower-cased lookups.  Every key of
    the four dictionaries is its own lower-case form, so the lower-cased
    text that [parseNumberPattern] and [collectDateTimeFragment] look up can
    reach every entry; weekdays are numbered 0 to 6, months 1 to 12, the
    integer words 1 to 13, and every time unit is one of the seven unit
    names. *)
Theorem dictionaries_well_formed :
  map_Forall (fun k v => JsText.toLowerCase k = k /\ 0 <= v <= 6) Fr.WEEKDAY_DICTIONARY
  /\ map_Forall (fun k v => JsText.toLowerCase k = k /\ 1 <= v <= 12) Fr.MONTH_DICTIONARY
  /\ map_Forall (fun k v => JsText.toLowerCase k = k /\ 1 <= v <= 13)
       Fr.INTEGER_WORD_DICTIONARY
  /\ map_Forall (fun k v => JsText.toLowerCase k = k
                            /\ v ∈ ["second"; "minute"; "hour"; "d"; "week"; "month"; "year"])
       Fr.TIME_UNIT_DICTIONARY.
Proof.
  split; [|split; [|split]].
  all: apply map_Forall_to_list.
  all: match goal with
       | |- Forall _ ?l => let l' := eval vm_compute in l in change l with l'
       end.
  all: repeat (apply Forall_cons; split;
               [split; [reflexivity
                       | first [lia | cbn [uncurry fst snd]; rewrite !elem_of_cons; tauto]]|]).
  all: by apply Forall_nil.
Qed.

(** ** Texts of digits and white space *)

Lemma append_assoc (s t u : string) : (s ++ t) ++ u = s ++ (t ++ u).
Proof.
  induction s as [|a s IH]; [reflexivity|].
  rewrite !append_cons, IH. reflexivity.
Qed.

Lemma append_empty_r (s : string) : s ++ EmptyString = s.
Proof.
  induction s as [|a s IH]; [reflexivity|]. rewrite append_cons, IH. reflexivity.
Qed.

Lemma string_all_app f s t :
  string_all f (s ++ t) = string_all f s && string_all f t.
Proof.
  induction s as [|a s IH]; [reflexivity|].
  rewrite append_cons. cbn [string_all]. rewrite IH, andb_assoc. reflexivity.
Qed.

Lemma all_digits_plain d : Js.all_digits d = true -> string_all plain_unit d = true.
Proof.
  induction d as [|a d IH]; [reflexivity|]. cbn [Js.all_digits string_all].
  intros [Ha Hd]%andb_true_iff. unfold plain_unit at 1. rewrite Ha, (IH Hd). reflexivity.
Qed.

Lemma all_spaces_plain ws : all_spaces ws -> string_all plain_unit ws = true.
Proof.
  unfold all_spaces. induction ws as [|a ws IH]; [reflexivity|].
  cbn [Js.skip_spaces string_all].
  destruct (Js.is_space a) eqn:Ea; [|discriminate].
  intros H. unfold plain_unit at 1. rewrite Ea, orb_true_r, (IH H). reflexivity.
Qed.

(** A digit or white-space character is below the letters, or is the
    no-break space, and lower-casing leaves it alone. *)
Lemma plain_unit_code a :
  plain_unit a = true ->
  Js.toLowerCase a = a
  /\ ((nat_of_ascii a < 65)%nat \/ nat_of_ascii a = 160%nat).
Proof.
  destruct a as [[] [] [] [] [] [] [] []]; vm_compute; intros H;
    first [discriminate H | split; [reflexivity | first [left; lia | right; reflexivity]]].
Qed.

Lemma digit_unit_code a :
  Js.is_digit a = true ->
  Js.is_space a = false /\ (48 <= nat_of_ascii a <= 57)%nat.
Proof.
  destruct a as [[] [] [] [] [] [] [] []]; vm_compute; intros H;
    first [discriminate H | split; [reflexivity | lia]].
Qed.

Lemma is_digit_digit_of a : Js.is_digit a = true -> exists d, Js.digit_of a = Some d.
Proof.
  unfold Js.is_digit. destruct (Js.digit_of a) as [d|]; [eauto|discriminate].
Qed.

Lemma plain_unit_not_letter_ci p a :
  lower_letter p -> plain_unit a = true -> JsText.unit_ci p a = false.
Proof.
  intros Hp [Hl Hc]%plain_unit_code. unfold JsText.unit_ci.
  apply bool_decide_eq_false. rewrite Hl. intros ->. unfold lower_letter in Hp. lia.
Qed.

Lemma plain_unit_not_letter_eq p a :
  lower_letter p -> plain_unit a = true -> JsText.unit_eq p a = false.
Proof.
  intros Hp [Hl Hc]%plain_unit_code. unfold JsText.unit_eq.
  apply bool_decide_eq_false. intros ->. unfold lower_letter in Hp. lia.
Qed.

(** ** Literal patterns *)

Lemma regex_test_skip eqb p pat pre s :
  string_all (fun c => negb (eqb p c)) pre = true ->
  JsText.regex_test eqb (String p pat) (pre ++ s)
  = JsText.regex_test eqb (String p pat) s.
Proof.
  induction pre as [|a pre IH]; [reflexivity|].
  cbn [string_all]. intros [Ha Hpre]%andb_true_iff. apply negb_true_iff in Ha.
  rewrite append_cons. cbn [JsText.regex_test JsText.matches_at]. rewrite Ha.
  apply IH. exact Hpre.
Qed.

Lemma regex_remove_first_skip eqb p pat pre s :
  string_all (fun c => negb (eqb p c)) pre = true ->
  JsText.regex_remove_first eqb (String p pat) (pre ++ s)
  = pre ++ JsText.regex_remove_first eqb (String p pat) s.
Proof.
  induction pre as [|a pre IH]; [reflexivity|].
  cbn [string_all]. intros [Ha Hpre]%andb_true_iff. apply negb_true_iff in Ha.
  rewrite !append_cons. cbn [JsText.regex_remove_first JsText.matches_at]. rewrite Ha.
  rewrite (IH Hpre). reflexivity.
Qed.

Lemma string_all_weaken (f g : ascii -> bool) s :
  (forall a, f a = true -> g a = true) -> string_all f s = true -> string_all g s = true.
Proof.
  intros Hfg. induction s as [|a s IH]; [reflexivity|]. cbn [string_all].
  intros [Ha Hs]%andb_true_iff. rewrite (Hfg a Ha), (IH Hs). reflexivity.
Qed.

Lemma plain_skips_ci p pre :
  lower_letter p -> string_all plain_unit pre = true ->
  string_all (fun c => negb (JsText.unit_ci p c)) pre = true.
Proof.
  intros Hp. apply string_all_weaken. intros a Ha.
  rewrite (plain_unit_not_letter_ci p a Hp Ha). reflexivity.
Qed.

Lemma plain_skips_eq p pre :
  lower_letter p -> string_all plain_unit pre = true ->
  string_all (fun c => negb (JsText.unit_eq p c)) pre = true.
Proof.
  intros Hp. apply string_all_weaken. intros a Ha.
  rewrite (plain_unit_not_letter_eq p a Hp Ha). reflexivity.
Qed.

(** A text of digits and white space holds no word. *)
Lemma regex_test_plain p pat s :
  lower_letter p -> string_all plain_unit s = true ->
  JsText.regex_test JsText.unit_ci (String p pat) s = false.
Proof.
  intros Hp Hs. rewrite <- (append_empty_r s).
  rewrite regex_test_skip by (apply plain_skips_ci; assumption). reflexivity.
Qed.

(** ** [parseInt] on numerals *)

Lemma read_digits_decimal d rest acc seen :
  Js.all_digits d = true ->
  (rest = EmptyString \/ exists a r, rest = String a r /\ Js.digit_of a = None) ->
  (seen = true \/ d <> EmptyString) ->
  JsText.read_digits 10 Js.digit_of acc seen (d ++ rest) = Some (Js.parseInt_from acc d).
Proof.
  intros Hd Hrest. revert acc seen. induction d as [|c d IH]; intros acc seen Hseen.
  - destruct Hseen as [-> | Hne]; [|contradiction].
    rewrite append_empty. destruct Hrest as [-> | (a & r & -> & Ha)]; [reflexivity|].
    cbn [JsText.read_digits]. rewrite Ha. reflexivity.
  - cbn [Js.all_digits] in Hd. apply andb_true_iff in Hd as [Hc Hd].
    destruct (is_digit_digit_of c Hc) as [x Hx].
    rewrite append_cons. cbn [JsText.read_digits Js.parseInt_from]. rewrite Hx.
    apply IH; auto.
Qed.

(** On a numeral followed by nothing, or by something that starts with
    white space, the full [parseInt] is the reading of the digit groups. *)
Lemma parseInt_numeral d rest :
  Js.all_digits d = true -> d <> EmptyString -> all_spaces rest ->
  JsText.parseInt (d ++ rest) = Some (Js.parseInt d).
Proof.
  intros Hd Hne Hrest.
  assert (Hr : rest = EmptyString
               \/ exists a r, rest = String a r /\ Js.is_space a = true).
  { destruct rest as [|a r]; [auto|]. right. exists a, r. split; [reflexivity|].
    unfold all_spaces in Hrest. cbn [Js.skip_spaces] in Hrest.
    destruct (Js.is_space a); [reflexivity|discriminate]. }
  assert (Hspace : forall a, Js.is_space a = true ->
            Js.digit_of a = None /\ a <> "x"%char /\ a <> "X"%char).
  { intros a. destruct a as [[] [] [] [] [] [] [] []]; vm_compute; intros H;
      first [discriminate H | repeat split; discriminate]. }
  assert (Hdigit : forall a, Js.is_digit a = true ->
            Js.is_space a = false /\ a <> "-"%char /\ a <> "+"%char
            /\ a <> "x"%char /\ a <> "X"%char).
  { intros a. destruct a as [[] [] [] [] [] [] [] []]; vm_compute; intros H;
      first [discriminate H | repeat split; discriminate]. }
  assert (Hread : JsText.read_digits 10 Js.digit_of 0 false (d ++ rest)
                  = Some (Js.parseInt d)).
  { apply read_digits_decimal; auto.
    destruct Hr as [-> | (a & r & -> & Ha)]; [auto|]. right. exists a, r.
    split; [reflexivity|]. apply Hspace. exact Ha. }
  destruct d as [|c d]; [contradiction|].
  cbn [Js.all_digits] in Hd. apply andb_true_iff in Hd as [Hc Hd].
  destruct (Hdigit c Hc) as (Hcs & Hm & Hp & _).
  unfold JsText.parseInt. rewrite append_cons in *. cbn [Js.skip_spaces]. rewrite Hcs.
  rewrite (bool_decide_eq_false_2 _ Hm), (bool_decide_eq_false_2 _ Hp).
  assert (Hprefix :
    match String c (d ++ rest) with
    | String a (String b s') =>
        if bool_decide (a = "0"%char)
           && (bool_decide (b = "x"%char) || bool_decide (b = "X"%char))
        then (16, JsText.hex_digit_of, s')
        else (10, Js.digit_of, String c (d ++ rest))
    | _ => (10, Js.digit_of, String c (d ++ rest))
    end = (10, Js.digit_of, String c (d ++ rest))).
  { destruct (d ++ rest) as [|b s'] eqn:Eb; [reflexivity|].
    assert (b <> "x"%char /\ b <> "X"%char) as [Hx HX].
    { destruct d as [|b' d'].
      - rewrite append_empty in Eb. subst rest.
        destruct Hr as [Hr | (a & r & [= <- <-] & Ha)]; [discriminate|].
        destruct (Hspace _ Ha) as (_ & ? & ?). auto.
      - rewrite append_cons in Eb. injection Eb as <- <-.
        cbn [Js.all_digits] in Hd. apply andb_true_iff in Hd as [Hb _].
        destruct (Hdigit _ Hb) as (_ & _ & _ & ? & ?). auto. }
    rewrite (bool_decide_eq_false_2 _ Hx), (bool_decide_eq_false_2 _ HX), andb_false_r.
    reflexivity. }
  rewrite Hprefix, Hread. cbn [mbind option_bind]. f_equal. lia.
Qed.

(** ** [parseYear] and [parseOrdinalNumberPattern] *)

Lemma letter_b : lower_letter "b".
Proof. unfold lower_letter. vm_compute. lia. Qed.

Lemma letter_a : lower_letter "a".
Proof. unfold lower_letter. vm_compute. lia. Qed.

(** X11: a year without era.  On a numeral of up to 15 digits [parseYear]
    returns a number, never [NaN]: a value up to 50 is a year of the 2000s,
    a value from 51 to 99 a year of the 1900s, and a value of 100 or more is
    the year itself; so the two-digit years are exactly the years 1951 to
    2050. *)
Theorem parseYear_numeral (d : string) :
  Js.all_digits d = true -> d <> EmptyString -> (String.length d <= 15)%nat ->
  let n := Js.parseInt d in
  exists y,
    Fr.parseYear d = Some y
    /\ (n <= 50 -> y = n + 2000)
    /\ (51 <= n <= 99 -> y = n + 1900)
    /\ (100 <= n -> y = n)
    /\ (n < 100 -> 1951 <= y <= 2050).
Proof.
  intros Hd Hne _. cbv zeta.
  pose proof (parseInt_nonneg d) as Hn.
  pose proof (all_digits_plain d Hd) as Hplain.
  unfold Fr.parseYear.
  rewrite !regex_test_plain by (assumption || apply letter_b || apply letter_a).
  pose proof (parseInt_numeral d EmptyString Hd Hne eq_refl) as Hparse.
  rewrite append_empty_r in Hparse. rewrite Hparse.
  cbn [mbind option_bind].
  eexists. split; [reflexivity|].
  destruct (_ <? 100) eqn:E100; [destruct (_ >? 50) eqn:E50|]; tests_to_facts;
    repeat split; lia.
Qed.

Lemma parseYear_numeral_witness :
  Fr.parseYear "50" = Some 2050 /\ Fr.parseYear "51" = Some 1951
  /\ Fr.parseYear "1987" = Some 1987.
Proof.
  destruct (parseYear_numeral "50" eq_refl ltac:(discriminate) ltac:(vm_compute; lia))
    as (y1 & H1 & Hy1 & _).
  destruct (parseYear_numeral "51" eq_refl ltac:(discriminate) ltac:(vm_compute; lia))
    as (y2 & H2 & _ & Hy2 & _).
  destruct (parseYear_numeral "1987" eq_refl ltac:(discriminate) ltac:(vm_compute; lia))
    as (y3 & H3 & _ & _ & Hy3 & _).
  rewrite H1, H2, H3.
  rewrite (Hy1 ltac:(vm_compute; discriminate)).
  rewrite (Hy2 ltac:(vm_compute; split; discriminate)).
  rewrite (Hy3 ltac:(vm_compute; discriminate)).
  repeat split; reflexivity.
Defined.

(** The era letters at the end of a year text. *)
Lemma era_tests e1 e2 p1 p2 q1 q2 :
  Js.toLowerCase e1 = p1 -> Js.toLowerCase e2 = p2 ->
  JsText.regex_test JsText.unit_ci (String q1 (String q2 EmptyString))
    (String e1 (String e2 EmptyString))
  = bool_decide (p1 = q1) && bool_decide (p2 = q2).
Proof.
  intros H1 H2. cbn [JsText.regex_test JsText.matches_at]. unfold JsText.unit_ci.
  rewrite H1, H2.
  destruct (bool_decide (p1 = q1)) eqn:E1; destruct (bool_decide (p2 = q2)) eqn:E2;
    cbn; try reflexivity.
  - destruct (bool_decide (p2 = q1)); reflexivity.
  - destruct (bool_decide (p2 = q1)); reflexivity.
  - destruct (bool_decide (p2 = q1)); reflexivity.
Qed.

Lemma era_removed e1 e2 q1 q2 :
  Js.toLowerCase e1 = q1 -> Js.toLowerCase e2 = q2 ->
  JsText.regex_remove_first JsText.unit_ci (String q1 (String q2 EmptyString))
    (String e1 (String e2 EmptyString))
  = EmptyString.
Proof.
  intros H1 H2. cbn [JsText.regex_remove_first JsText.matches_at]. unfold JsText.unit_ci.
  rewrite H1, H2, !bool_decide_eq_true_2 by reflexivity. reflexivity.
Qed.

(** X12: a year with an era.  For a numeral of up to 15 digits, optional
    white space and the letters of an era in any letter case, [parseYear]
    returns the numeral less 543 for the Buddhist era "BE", its opposite for
    "BC", and the numeral itself for "AD". *)
Theorem parseYear_era (d ws : string) (e1 e2 : ascii) :
  Js.all_digits d = true -> d <> EmptyString -> (String.length d <= 15)%nat ->
  all_spaces ws ->
  let text := d ++ ws ++ String e1 (String e2 EmptyString) in
  let n := Js.parseInt d in
  (Js.toLowerCase e1 = "b"%char -> Js.toLowerCase e2 = "e"%char ->
   Fr.parseYear text = Some (n - 543))
  /\ (Js.toLowerCase e1 = "b"%char -> Js.toLowerCase e2 = "c"%char ->
      Fr.parseYear text = Some (- n))
  /\ (Js.toLowerCase e1 = "a"%char -> Js.toLowerCase e2 = "d"%char ->
      Fr.parseYear text = Some n).
Proof.
  intros Hd Hne _ Hws. cbv zeta.
  assert (Hplain : string_all plain_unit (d ++ ws) = true).
  { rewrite string_all_app, (all_digits_plain d Hd), (all_spaces_plain ws Hws).
    reflexivity. }
  rewrite <- append_assoc.
  assert (Htest : forall q1 q2, lower_letter q1 ->
            JsText.regex_test JsText.unit_ci (String q1 (String q2 EmptyString))
              ((d ++ ws) ++ String e1 (String e2 EmptyString))
            = JsText.regex_test JsText.unit_ci (String q1 (String q2 EmptyString))
                (String e1 (String e2 EmptyString))).
  { intros q1 q2 Hq. apply regex_test_skip, plain_skips_ci; assumption. }
  assert (Hrem : forall q1 q2, lower_letter q1 ->
            Js.toLowerCase e1 = q1 -> Js.toLowerCase e2 = q2 ->
            JsText.parseInt
              (JsText.regex_remove_first JsText.unit_ci (String q1 (String q2 EmptyString))
                 ((d ++ ws) ++ String e1 (String e2 EmptyString)))
            = Some (Js.parseInt d)).
  { intros q1 q2 Hq H1 H2.
    rewrite regex_remove_first_skip by (apply plain_skips_ci; assumption).
    rewrite (era_removed e1 e2 q1 q2 H1 H2), append_empty_r.
    apply parseInt_numeral; assumption. }
  unfold Fr.parseYear.
  rewrite !Htest by (apply letter_b || apply letter_a).
  split; [|split]; intros H1 H2.
  - rewrite (era_tests e1 e2 _ _ "b" "e" H1 H2). cbn [andb bool_decide].
    rewrite bool_decide_eq_true_2 by reflexivity. cbn [andb].
    rewrite bool_decide_eq_true_2 by reflexivity.
    rewrite (Hrem "b"%char "e"%char letter_b H1 H2). reflexivity.
  - rewrite (era_tests e1 e2 _ _ "b" "e" H1 H2),
            (era_tests e1 e2 _ _ "b" "c" H1 H2).
    rewrite (bool_decide_eq_true_2 ("b"%char = "b"%char)) by reflexivity.
    rewrite (bool_decide_eq_false_2 ("c"%char = "e"%char)) by discriminate.
    rewrite (bool_decide_eq_true_2 ("c"%char = "c"%char)) by reflexivity.
    cbn [andb].
    rewrite (Hrem "b"%char "c"%char letter_b H1 H2). reflexivity.
  - rewrite (era_tests e1 e2 _ _ "b" "e" H1 H2),
            (era_tests e1 e2 _ _ "b" "c" H1 H2),
            (era_tests e1 e2 _ _ "a" "d" H1 H2).
    rewrite (bool_decide_eq_false_2 ("a"%char = "b"%char)) by discriminate.
    rewrite (bool_decide_eq_true_2 ("a"%char = "a"%char)) by reflexivity.
    rewrite (bool_decide_eq_true_2 ("d"%char = "d"%char)) by reflexivity.
    cbn [andb].
    rewrite (Hrem "a"%char "d"%char letter_a H1 H2). reflexivity.
Qed.

Lemma parseYear_era_witness :
  Fr.parseYear "2563 BE" = Some 2020 /\ Fr.parseYear "30bc" = Some (-30)
  /\ Fr.parseYear "476 Ad" = Some 476.
Proof.
  destruct (parseYear_era "2563" " " "B" "E" eq_refl ltac:(discriminate)
              ltac:(vm_compute; lia) eq_refl) as (H1 & _).
  destruct (parseYear_era "30" EmptyString "b" "c" eq_refl ltac:(discriminate)
              ltac:(vm_compute; lia) eq_refl) as (_ & H2 & _).
  destruct (parseYear_era "476" " " "A" "d" eq_refl ltac:(discriminate)
              ltac:(vm_compute; lia) eq_refl) as (_ & _ & H3).
  split; [exact (H1 eq_refl eq_refl)|]. split; [exact (H2 eq_refl eq_refl)|].
  exact (H3 eq_refl eq_refl).
Defined.

Lemma toLowerCase_app s t :
  JsText.toLowerCase (s ++ t) = JsText.toLowerCase s ++ JsText.toLowerCase t.
Proof.
  induction s as [|a s IH]; [reflexivity|].
  rewrite append_cons. cbn [JsText.toLowerCase]. rewrite IH, append_cons. reflexivity.
Qed.

Lemma toLowerCase_plain s :
  string_all plain_unit s = true -> JsText.toLowerCase s = s.
Proof.
  induction s as [|a s IH]; [reflexivity|]. cbn [string_all JsText.toLowerCase].
  intros [Ha Hs]%andb_true_iff.
  destruct (plain_unit_code a Ha) as [-> _]. rewrite (IH Hs). reflexivity.
Qed.

Lemma ordinal_suffix_here_plain a s :
  plain_unit a = true -> Fr.ordinal_suffix_here (String a s) = false.
Proof.
  intros Ha. unfold Fr.ordinal_suffix_here.
  destruct s as [|b [|c s]]; try reflexivity.
  rewrite !(plain_unit_not_letter_ci _ a) by (assumption || (unfold lower_letter; vm_compute; lia)).
  reflexivity.
Qed.

Lemma remove_ordinal_suffix_plain d suf :
  string_all plain_unit d = true ->
  Fr.remove_ordinal_suffix (d ++ suf) = d ++ Fr.remove_ordinal_suffix suf.
Proof.
  induction d as [|a d IH]; [reflexivity|]. cbn [string_all].
  intros [Ha Hd]%andb_true_iff. rewrite !append_cons.
  cbn [Fr.remove_ordinal_suffix]. rewrite (ordinal_suffix_here_plain a _ Ha).
  rewrite (IH Hd). reflexivity.
Qed.

(** X13: an ordinal is its numeral.  For a numeral of up to 15 digits,
    alone or followed by one of the suffixes "st", "nd", "rd", "th" in any
    letter case, [parseOrdinalNumberPattern] returns the value of the
    numeral; a suffix without numeral gives [NaN]. *)
Theorem parseOrdinalNumberPattern_numeral (d suf : string) :
  Js.all_digits d = true -> d <> EmptyString -> (String.length d <= 15)%nat ->
  suf = EmptyString \/ JsText.toLowerCase suf ∈ ["st"; "nd"; "rd"; "th"] ->
  Fr.parseOrdinalNumberPattern (d ++ suf) = Some (Js.parseInt d)
  /\ Fr.parseOrdinalNumberPattern suf = None.
Proof.
  intros Hd Hne _ Hsuf.
  pose proof (all_digits_plain d Hd) as Hplain.
  assert (Hrem : Fr.remove_ordinal_suffix (JsText.toLowerCase suf) = EmptyString).
  { destruct Hsuf as [-> | Hin]; [reflexivity|].
    repeat (apply elem_of_cons in Hin as [-> | Hin]; [reflexivity|]).
    apply elem_of_nil in Hin. contradiction. }
  unfold Fr.parseOrdinalNumberPattern. split.
  - rewrite toLowerCase_app, (toLowerCase_plain d Hplain).
    rewrite remove_ordinal_suffix_plain, Hrem by assumption.
    apply parseInt_numeral; [assumption|assumption|reflexivity].
  - rewrite Hrem. reflexivity.
Qed.

Lemma parseOrdinalNumberPattern_numeral_witness :
  Fr.parseOrdinalNumberPattern "21ST" = Some 21
  /\ Fr.parseOrdinalNumberPattern "ST" = None.
Proof.
  apply (parseOrdinalNumberPattern_numeral "21" "ST" eq_refl ltac:(discriminate)
           ltac:(vm_compute; lia)).
  right. vm_compute. set_solver.
Defined.

(** ** [parseNumberPattern] and [parseTimeUnits] *)

Lemma spaces_skip_letter p ws :
  lower_letter p -> all_spaces ws ->
  string_all (fun c => negb (JsText.unit_eq p c)) ws = true.
Proof.
  intros Hp Hws. apply plain_skips_eq; [exact Hp|]. apply all_spaces_plain. exact Hws.
Qed.

Lemma letter_f : lower_letter "f".
Proof. unfold lower_letter. vm_compute. lia. Qed.

Lemma letter_e : lower_letter "e".
Proof. unfold lower_letter. vm_compute. lia. Qed.

(** No integer word starts with "a" or with "ha". *)
Lemma integer_word_none_a rest :
  Fr.INTEGER_WORD_DICTIONARY !! String "a" rest = None.
Proof.
  apply not_elem_of_list_to_map_1.
  match goal with
  | |- _ ∉ ?l => let l' := eval vm_compute in l in change l with l'
  end.
  rewrite !not_elem_of_cons. repeat split; try discriminate. apply not_elem_of_nil.
Qed.

Lemma integer_word_none_ha rest :
  Fr.INTEGER_WORD_DICTIONARY !! String "h" (String "a" rest) = None.
Proof.
  apply not_elem_of_list_to_map_1.
  match goal with
  | |- _ ∉ ?l => let l' := eval vm_compute in l in change l with l'
  end.
  rewrite !not_elem_of_cons. repeat split; try discriminate. apply not_elem_of_nil.
Qed.

Lemma few_found_after_spaces ws :
  all_spaces ws -> JsText.regex_test JsText.unit_eq "few" (ws ++ "few") = true.
Proof.
  intros Hws. rewrite regex_test_skip by (apply spaces_skip_letter; [apply letter_f|exact Hws]).
  reflexivity.
Qed.

Lemma few_absent_after_spaces ws t :
  all_spaces ws -> t = EmptyString \/ t = "a" \/ t = "an" ->
  JsText.regex_test JsText.unit_eq "few" (ws ++ t) = false
  /\ JsText.matches_at JsText.unit_eq "ew" (ws ++ t) = None.
Proof.
  intros Hws Ht. split.
  - rewrite regex_test_skip by (apply spaces_skip_letter; [apply letter_f|exact Hws]).
    destruct Ht as [-> | [-> | ->]]; reflexivity.
  - destruct ws as [|c ws].
    + rewrite append_empty. destruct Ht as [-> | [-> | ->]]; reflexivity.
    + rewrite append_cons. cbn [JsText.matches_at].
      assert (plain_unit c = true) as Hc.
      { apply all_spaces_plain in Hws. cbn [string_all] in Hws.
        apply andb_true_iff in Hws as [Hc _]. exact Hc. }
      rewrite (plain_unit_not_letter_eq "e" c letter_e Hc). reflexivity.
Qed.

(** X14: the quantifier words of [NUMBER_PATTERN].  Whatever [parseFloat]
    does, and in any letter case: "a" and "an" are 1; "few", alone or after
    "a" or "an" and optional white space, is 3; "half", followed by optional
    white space and then nothing, "a" or "an", is one half. *)
Theorem parseNumberPattern_quantifiers (parseFloat : string -> Fr.number)
    (text ws : string) :
  all_spaces ws ->
  let num := JsText.toLowerCase text in
  (num = "a" \/ num = "an" -> Fr.parseNumberPattern parseFloat text = Fr.of_Z 1)
  /\ (num = "few" \/ num = "a" ++ ws ++ "few" \/ num = "an" ++ ws ++ "few" ->
      Fr.parseNumberPattern parseFloat text = Fr.of_Z 3)
  /\ (num = "half" ++ ws \/ num = "half" ++ ws ++ "a" \/ num = "half" ++ ws ++ "an" ->
      Fr.parseNumberPattern parseFloat text = Some (1 # 2)%Q).
Proof.
  intros Hws. cbv zeta. unfold Fr.parseNumberPattern.
  split; [|split].
  - intros [-> | ->]; reflexivity.
  - intros [-> | [-> | ->]]; [reflexivity| |].
    + rewrite append_cons, append_empty.
      rewrite integer_word_none_a.
      assert (bool_decide (String "a" (ws ++ "few") = "a") = false) as ->.
      { apply bool_decide_eq_false. destruct ws; discriminate. }
      assert (bool_decide (String "a" (ws ++ "few") = "an") = false) as ->.
      { apply bool_decide_eq_false. destruct ws as [|c [|c' ws]]; discriminate. }
      cbn [orb JsText.regex_test JsText.matches_at].
      assert (JsText.unit_eq "f" "a" = false) as -> by reflexivity.
      rewrite (few_found_after_spaces ws Hws). reflexivity.
    + rewrite !append_cons, append_empty.
      rewrite integer_word_none_a.
      assert (bool_decide (String "a" (String "n" (ws ++ "few")) = "a") = false) as ->.
      { apply bool_decide_eq_false. discriminate. }
      assert (bool_decide (String "a" (String "n" (ws ++ "few")) = "an") = false) as ->.
      { apply bool_decide_eq_false. destruct ws; discriminate. }
      cbn [orb JsText.regex_test JsText.matches_at].
      assert (JsText.unit_eq "f" "a" = false) as -> by reflexivity.
      assert (JsText.unit_eq "f" "n" = false) as -> by reflexivity.
      rewrite (few_found_after_spaces ws Hws). reflexivity.
  - intros Hnum.
    assert (exists t, (t = EmptyString \/ t = "a" \/ t = "an")
                      /\ JsText.toLowerCase text = "half" ++ ws ++ t) as (t & Ht & ->).
    { destruct Hnum as [-> | [-> | ->]].
      - exists EmptyString. rewrite append_empty_r. auto.
      - exists "a". auto.
      - exists "an". auto. }
    rewrite !append_cons, append_empty.
    rewrite integer_word_none_ha.
    assert (bool_decide (String "h" (String "a" (String "l" (String "f" (ws ++ t)))) = "a")
            = false) as -> by (apply bool_decide_eq_false; discriminate).
    assert (bool_decide (String "h" (String "a" (String "l" (String "f" (ws ++ t)))) = "an")
            = false) as -> by (apply bool_decide_eq_false; discriminate).
    destruct (few_absent_after_spaces ws t Hws Ht) as [Hfew Hew].
    cbn [orb JsText.regex_test JsText.matches_at].
    assert (JsText.unit_eq "f" "h" = false) as -> by reflexivity.
    assert (JsText.unit_eq "f" "a" = false) as -> by reflexivity.
    assert (JsText.unit_eq "f" "l" = false) as -> by reflexivity.
    assert (JsText.unit_eq "f" "f" = true) as -> by reflexivity.
    assert (JsText.unit_eq "h" "h" = true) as -> by reflexivity.
    assert (JsText.unit_eq "a" "a" = true) as -> by reflexivity.
    assert (JsText.unit_eq "l" "l" = true) as -> by reflexivity.
    cbn [JsText.matches_at] in Hew. rewrite Hew, Hfew. reflexivity.
Qed.

Lemma parseNumberPattern_quantifiers_witness :
  Fr.parseNumberPattern (fun _ => None) "An" = Fr.of_Z 1
  /\ Fr.parseNumberPattern (fun _ => None) "a  Few" = Fr.of_Z 3
  /\ Fr.parseNumberPattern (fun _ => None) "Half an" = Some (1 # 2)%Q.
Proof.
  destruct (parseNumberPattern_quantifiers (fun _ => None) "An" EmptyString eq_refl)
    as (H1 & _).
  destruct (parseNumberPattern_quantifiers (fun _ => None) "a  Few" "  " eq_refl)
    as (_ & H2 & _).
  destruct (parseNumberPattern_quantifiers (fun _ => None) "Half an" " " eq_refl)
    as (_ & _ & H3).
  split; [apply H1; right; reflexivity|].
  split; [apply H2; right; left; reflexivity|].
  apply H3. right; right. reflexivity.
Defined.

Lemma substring_from_length n s :
  String.length (Js.substring_from n s) = (String.length s - n)%nat.
Proof.
  revert s. induction n as [|n IH]; intros [|a s]; cbn [Js.substring_from String.length];
    try lia. apply IH.
Qed.

Lemma time_unit_names k v :
  Fr.TIME_UNIT_DICTIONARY !! k = Some v ->
  v ∈ ["second"; "minute"; "hour"; "d"; "week"; "month"; "year"].
Proof.
  revert k v.
  change (map_Forall (fun _ v => v ∈ ["second"; "minute"; "hour"; "d"; "week"; "month";
                                       "year"]) Fr.TIME_UNIT_DICTIONARY).
  apply map_Forall_to_list.
  match goal with
  | |- Forall _ ?l => let l' := eval vm_compute in l in change l with l'
  end.
  repeat (apply Forall_cons; split;
          [cbn [uncurry fst snd]; rewrite !elem_of_cons; tauto|]).
  by apply Forall_nil.
Qed.

Lemma collectDateTimeFragment_keys parseFloat fragments m :
  (forall k, is_Some (fragments !! k) -> k ∈ fragment_keys) ->
  forall k, is_Some (Fr.collectDateTimeFragment parseFloat fragments m !! k) ->
            k ∈ fragment_keys.
Proof.
  intros Hfr k. unfold Fr.collectDateTimeFragment.
  destruct (Fr.TIME_UNIT_DICTIONARY !! _) as [u|] eqn:Eu; cbn [default from_option id].
  - destruct (decide (u = k)) as [<-|Hne].
    + intros _. apply time_unit_names in Eu. unfold fragment_keys.
      rewrite !elem_of_cons, elem_of_nil in Eu. rewrite !elem_of_cons. tauto.
    + rewrite lookup_insert_ne by exact Hne. apply Hfr.
  - destruct (decide ("undefined" = k)) as [<-|Hne].
    + intros _. unfold fragment_keys. rewrite !elem_of_cons. tauto.
    + rewrite lookup_insert_ne by exact Hne. apply Hfr.
Qed.

Lemma parseTimeUnits_loop_runs parseFloat exec :
  (forall t m, exec t = Some m ->
     (0 < String.length (group_str m 0) <= String.length t)%nat) ->
  forall fuel fragments remainingText,
    (String.length remainingText <= fuel)%nat ->
    (forall k, is_Some (fragments !! k) -> k ∈ fragment_keys) ->
    exists out,
      Fr.parseTimeUnits_loop parseFloat exec fuel fragments remainingText = Some out
      /\ (forall fuel', (fuel <= fuel')%nat ->
          Fr.parseTimeUnits_loop parseFloat exec fuel' fragments remainingText = Some out)
      /\ (forall k, is_Some (out !! k) -> k ∈ fragment_keys).
Proof.
  intros Hexec. induction fuel as [|fuel IH]; intros fragments rem Hlen Hkeys.
  - destruct (exec rem) as [m|] eqn:Em.
    + apply Hexec in Em. lia.
    + exists fragments. split; [|split].
      * destruct rem; cbn [Fr.parseTimeUnits_loop]; rewrite Em; reflexivity.
      * intros fuel' _. destruct fuel'; cbn [Fr.parseTimeUnits_loop]; rewrite Em;
          reflexivity.
      * exact Hkeys.
  - destruct (exec rem) as [m|] eqn:Em.
    + pose proof (Hexec _ _ Em) as Hm.
      destruct (IH (Fr.collectDateTimeFragment parseFloat fragments m)
                  (Js.substring_from (String.length (group_str m 0)) rem))
        as (out & Hout & Hmore & Hk).
      { rewrite substring_from_length. lia. }
      { apply collectDateTimeFragment_keys. exact Hkeys. }
      exists out. split; [|split].
      * cbn [Fr.parseTimeUnits_loop]. rewrite Em. exact Hout.
      * intros [|fuel'] Hle; [lia|]. cbn [Fr.parseTimeUnits_loop]. rewrite Em.
        apply Hmore. lia.
      * exact Hk.
    + exists fragments. split; [|split].
      * cbn [Fr.parseTimeUnits_loop]. rewrite Em. reflexivity.
      * intros fuel' _. destruct fuel'; cbn [Fr.parseTimeUnits_loop]; rewrite Em;
          reflexivity.
      * exact Hkeys.
Qed.

(** X15: [parseTimeUnits] returns.  When every match of the single-unit
    pattern is a non-empty part of the text it was found in, the loop stops
    after at most as many rounds as the text has units, more rounds change
    nothing, and the keys of the fragments are unit names of the dictionary,
    or "undefined" for a unit the dictionary lacks; without any match the
    result is empty. *)
Theorem parseTimeUnits_returns (parseFloat : string -> Fr.number)
    (exec : string -> option RegExpMatchArray) (timeunitText : string) :
  (forall t m, exec t = Some m ->
     (0 < String.length (group_str m 0) <= String.length t)%nat) ->
  exists fragments,
    Fr.parseTimeUnits parseFloat exec timeunitText = Some fragments
    /\ (forall fuel, (String.length timeunitText <= fuel)%nat ->
        Fr.parseTimeUnits_loop parseFloat exec fuel ∅ timeunitText = Some fragments)
    /\ (forall k, is_Some (fragments !! k) -> k ∈ fragment_keys)
    /\ (exec timeunitText = None -> fragments = ∅).
Proof.
  intros Hexec.
  destruct (parseTimeUnits_loop_runs parseFloat exec Hexec (String.length timeunitText)
              ∅ timeunitText ltac:(lia)) as (out & Hout & Hmore & Hk).
  { intros k [v Hv]. rewrite lookup_empty in Hv. discriminate. }
  exists out. split; [exact Hout|]. split; [exact Hmore|]. split; [exact Hk|].
  intros Hnone. unfold Fr.parseTimeUnits in Hout.
  destruct (String.length timeunitText); cbn [Fr.parseTimeUnits_loop] in Hout;
    rewrite Hnone in Hout; congruence.
Qed.

Lemma parseTimeUnits_returns_witness :
  exists fragments,
    Fr.parseTimeUnits (fun _ => None) unit_by_unit_exec "ab" = Some fragments
    /\ (forall fuel, (String.length "ab" <= fuel)%nat ->
        Fr.parseTimeUnits_loop (fun _ => None) unit_by_unit_exec fuel ∅ "ab"
        = Some fragments)
    /\ (forall k, is_Some (fragments !! k) -> k ∈ fragment_keys)
    /\ (unit_by_unit_exec "ab" = None -> fragments = ∅).
Proof.
  apply (parseTimeUnits_returns (fun _ => None) unit_by_unit_exec "ab").
  intros [|c t] m; cbn [unit_by_unit_exec]; [discriminate|].
  intros H. injection H as H. subst m. vm_compute group_str. cbn [String.length]. lia.
Defined.
